(** * Gradient boosting over neural base learners: a shallow embedding

    This development embeds [ensemble/gradientboostingclassifier.py] and
    states its specification as theorems.

    Definitions:
    - [Scalar]: the element arithmetic of the tensor library (operations
      only, no laws, so that structural results hold for any arithmetic,
      IEEE floats included); the real numbers are one instance.
    - [tensor]: rank-2 tensors with an explicit shape.
    - [Runtime]: what the autodiff and optimizer library supplies.
    - [State] and the monad [M]: the ensemble object, the parameter
      store, the global modes and the console; an exception keeps the
      state reached; every learner invocation is recorded with the modes
      it ran under.
    - the methods of [GradientBoostingClassifier], one definition each,
      under their own names.
    - the specification's formulas ([spec_onehot], [spec_prediction],
      [spec_residual], ...) and the predicates the theorems use.
    - a small concrete runtime and ensemble.

    Theorems: facts about the primitives, the value of the one-hot
    encoding, prediction and pseudo-residual, a program logic for frame
    properties, construction, the training step, evaluation, and the
    theorems at work on the concrete ensemble. *)

From Stdlib Require Import ZArith List Reals Lra Lia.
From stdpp Require Import base tactics option list gmap strings functions.

Local Open Scope string_scope.
Local Open Scope list_scope.

(** ** Scalars *)

(** The element type of a [FloatTensor] together with the operations the
    program uses.  [of_Z] is the conversion of a Python integer. *)
Class Scalar (T : Type) := {
  s0 : T;
  s1 : T;
  sadd : T -> T -> T;
  ssub : T -> T -> T;
  smul : T -> T -> T;
  sdiv : T -> T -> T;
  sexp : T -> T;
  sltb : T -> T -> bool;
  of_Z : Z -> T
}.

(** ** Tensors of rank 2 *)

(** A tensor is its shape and its entries.  [entry] is only meaningful
    below the shape. *)
Record tensor (T : Type) := Tensor {
  nrows : nat;
  ncols : nat;
  entry : nat -> nat -> T
}.
Arguments Tensor {T} _ _ _.
Arguments nrows {T} _.
Arguments ncols {T} _.
Arguments entry {T} _ _ _.

Definition has_shape {T} (t : tensor T) (b d : nat) : Prop :=
  nrows t = b /\ ncols t = d.

Section Tensors.
Context {T : Type} `{Scalar T}.

(** [torch.zeros(b, d)] *)
Definition zeros (b d : nat) : tensor T := Tensor b d (fun _ _ => s0).

(** [torch.zeros_like(t)] *)
Definition zeros_like (t : tensor T) : tensor T := zeros (nrows t) (ncols t).

(** [c * t] for a Python number [c] *)
Definition scale (c : T) (t : tensor T) : tensor T :=
  Tensor (nrows t) (ncols t) (fun i j => smul c (entry t i j)).

(** Broadcasting of [t] to the shape [(b, d)]: a dimension of [t] must
    equal the target or be 1. *)
Definition expandable (t : tensor T) (b d : nat) : bool :=
  (bool_decide (nrows t = b) || bool_decide (nrows t = 1%nat)) &&
  (bool_decide (ncols t = d) || bool_decide (ncols t = 1%nat)).

Definition expand (t : tensor T) (b d : nat) : tensor T :=
  Tensor b d (fun i j =>
    entry t (if bool_decide (nrows t = b) then i else 0%nat)
            (if bool_decide (ncols t = d) then j else 0%nat)).

(** [acc += t]: in place, so the result keeps the shape of [acc];
    [None] is the library's RuntimeError on shapes that do not
    broadcast. *)
Definition iadd (acc t : tensor T) : option (tensor T) :=
  if expandable t (nrows acc) (ncols acc) then
    let t' := expand t (nrows acc) (ncols acc) in
    Some (Tensor (nrows acc) (ncols acc)
            (fun i j => sadd (entry acc i j) (entry t' i j)))
  else None.

(** [a - b] with broadcasting of both operands. *)
Definition bshape (m n : nat) : option nat :=
  if bool_decide (m = n) then Some m
  else if bool_decide (m = 1%nat) then Some n
  else if bool_decide (n = 1%nat) then Some m
  else None.

Definition tsub (a b : tensor T) : option (tensor T) :=
  match bshape (nrows a) (nrows b), bshape (ncols a) (ncols b) with
  | Some r, Some c =>
      let a' := expand a r c in
      let b' := expand b r c in
      Some (Tensor r c (fun i j => ssub (entry a' i j) (entry b' i j)))
  | _, _ => None
  end.

(** The sum of a list of scalars, accumulated from the left. *)
Definition ssum (l : list T) : T := fold_left sadd l s0.

(** The entries of row [i], in column order. *)
Definition row (t : tensor T) (i : nat) : list T :=
  map (entry t i) (seq 0 (ncols t)).

Definition row_sum (t : tensor T) (i : nat) : T := ssum (row t i).

(** [F.softmax(t, dim=1)]: each entry is its exponential over the sum of
    the exponentials of its row. *)
Definition softmax (t : tensor T) : tensor T :=
  Tensor (nrows t) (ncols t)
    (fun i j => sdiv (sexp (entry t i j)) (ssum (map sexp (row t i)))).

(** [t.sum()] over all entries, row by row. *)
Definition tsum (t : tensor T) : T :=
  ssum (concat (map (row t) (seq 0 (nrows t)))).

(** [t.max(1)[1]] for one row: the first position of the largest entry;
    [None] on an empty row, where the library raises. *)
Fixpoint argmax_from (best : nat) (bv : T) (j : nat) (l : list T) : nat :=
  match l with
  | [] => best
  | x :: l' =>
      if sltb bv x then argmax_from j x (S j) l'
      else argmax_from best bv (S j) l'
  end.

Definition argmax_row (l : list T) : option nat :=
  match l with
  | [] => None
  | x :: l' => Some (argmax_from 0%nat x 1%nat l')
  end.
End Tensors.

(** ** Python values, exceptions *)

(** The values a configuration dict holds. *)
Inductive value (T : Type) :=
  | VInt (z : Z)
  | VFloat (x : T)
  | VBool (b : bool).
Arguments VInt {T} _.
Arguments VFloat {T} _.
Arguments VBool {T} _.

Inductive exn :=
  | KeyError (key : string)
  | TypeError
  | ValueError
  | IndexError
  | RuntimeError
  | ZeroDivisionError.

Inductive Res (A : Type) :=
  | OK (a : A)
  | Raise (e : exn).
Arguments OK {A} _.
Arguments Raise {A} _.

(** ** The tensor runtime *)

(** Identity of a parameter tensor. *)
Definition loc := nat.

(** What the program takes from the autodiff and optimizer library.
    - [input]: a batch of inputs, [batch_size X] is [X.size()[0]];
    - [pval], [gval]: the data of a parameter and of its [.grad];
    - [gacc]: accumulation of a new gradient into [.grad];
    - [gzero]: [grad.zero_()];
    - [adam_init lr weight_decay]: the hyper-parameter checks of
      [torch.optim.Adam] ([None]: it raises ValueError) and its fresh
      state;
    - [adam_update]: the update of one parameter in [step()];
    - [uninitialized]: the contents of freshly allocated tensor memory. *)
Class Runtime (T : Type) := {
  input : Type;
  batch_size : input -> nat;
  pval : Type;
  gval : Type;
  gacc : gval -> gval -> gval;
  gzero : gval -> gval;
  ostate : Type;
  adam_init : value T -> value T -> option ostate;
  adam_update : ostate -> loc -> pval -> gval -> pval * ostate;
  uninitialized : nat -> nat -> T
}.

Section Model.
Context {T : Type} `{Scalar T} `{Runtime T}.

(** A base learner: the parameters it owns ([parameters()]) and its
    forward function, which reads the current parameter values and the
    train/eval flag of the module and returns logits. *)
Record Learner := {
  lparams : list loc;
  lforward : bool -> (loc -> pval) -> input -> tensor T
}.

(** A tensor together with the parameters its autograd graph reaches
    (empty when it was computed without gradient tracking). *)
Record tracked := Tracked {
  tval : tensor T;
  leaves : list loc
}.

(** A line printed on the console. *)
Inductive line :=
  | FitStatus (learner_no epoch_no batch_no : Z) (loss : T)
  | TestingAccuracy (accuracy : T).

(** Everything outside the ensemble object: parameter data, [.grad]
    fields ([None] as in Python), the global gradient mode, the
    console, and the first parameter identity not yet in use (what a
    learner constructor allocates from). *)
Record World := {
  params : loc -> pval;
  grads : loc -> option gval;
  grad_enabled : bool;
  stdout : list line;
  next_loc : loc
}.

(** [torch.device("cuda")] and [torch.device("cpu")] *)
Inductive torch_device := Cuda | Cpu.

(** The learner factory: called with the learner configuration, it
    returns a new learner or raises, and may change the world (it
    initialises parameters). *)
Definition factory : Type :=
  gmap string (value T) -> World -> Res Learner * World.

(** The attributes of a [GradientBoostingClassifier]. *)
Record Ensemble := {
  args : gmap string (value T);
  learner : factory;
  learners : list Learner;
  epochs : value T;
  output_dim : value T;
  log_interval : value T;
  n_estimators : value T;
  shrinkage_rate : value T;
  device : torch_device;
  training : bool
}.

Record State := {
  self : Ensemble;
  world : World
}.

(** One invocation [learner(X)], with the modes it ran under. *)
Record Call := {
  call_learner : Learner;
  call_training : bool;
  call_grad : bool
}.

(** *** The monad: state, exceptions that keep the state, and the
    record of learner invocations *)
Definition M (S A : Type) : Type := S -> Res A * S * list Call.

Definition ret {S A} (a : A) : M S A := fun s => (OK a, s, []).

Definition bind {S A B} (m : M S A) (k : A -> M S B) : M S B :=
  fun s =>
    match m s with
    | (OK a, s1, c1) =>
        match k a s1 with
        | (r, s2, c2) => (r, s2, c1 ++ c2)
        end
    | (Raise e, s1, c1) => (Raise e, s1, c1)
    end.

Definition raise {S A} (e : exn) : M S A := fun s => (Raise e, s, []).

Definition get {S} : M S S := fun s => (OK s, s, []).

Definition modify {S} (f : S -> S) : M S unit := fun s => (OK tt, f s, []).

(** [try: body finally: fin] *)
Definition finally {S A} (body : M S A) (fin : S -> S) : M S A :=
  fun s => match body s with (r, s1, c1) => (r, fin s1, c1) end.

Definition of_option {S A} (e : exn) (o : option A) : M S A :=
  match o with
  | Some a => ret a
  | None => raise e
  end.
End Model.

Declare Scope py_scope.
Delimit Scope py_scope with py.
Notation "'let*' x ':=' c 'in' k" := (bind c (fun x => k))
  (at level 10, x name, c at level 100, k at level 200) : py_scope.
Notation "c ';;' k" := (bind c (fun _ => k))
  (at level 100, k at level 200, right associativity) : py_scope.

(** ** The program *)

Section Program.
Context {T : Type} `{Scalar T} `{Runtime T}.
Local Open Scope py_scope.

(** *** Python and library primitives *)

(** [d[key]] *)
Definition getitem {S} (d : gmap string (value T)) (key : string)
  : M S (value T) :=
  of_option (KeyError key) (d !! key).

(** A value used where an integer is required ([range], a tensor size,
    [%]); [bool] is a subclass of [int].  A float is a TypeError. *)
Definition as_int (v : value T) : option Z :=
  match v with
  | VInt z => Some z
  | VBool b => Some (Z.b2z b)
  | VFloat _ => None
  end.

(** A number as a factor of a tensor. *)
Definition as_scalar (v : value T) : T :=
  match v with
  | VInt z => of_Z z
  | VBool b => of_Z (Z.b2z b)
  | VFloat x => x
  end.

(** Truth value of a number. *)
Definition truthy (v : value T) : bool :=
  match v with
  | VInt z => negb (z =? 0)%Z
  | VBool b => b
  | VFloat x => sltb x s0 || sltb s0 x
  end.

(** [range(n)] *)
Definition range {S} (n : value T) : M S (list nat) :=
  match as_int n with
  | Some z => ret (seq 0 (Z.to_nat z))
  | None => raise TypeError
  end.

(** [enumerate(l)] *)
Definition enumerate {A} (l : list A) : list (nat * A) :=
  combine (seq 0 (length l)) l.

(** [for a in l: b = body(b, a)], [b] being the variables the body
    assigns. *)
Fixpoint for_fold {S A B} (l : list A) (b : B) (body : B -> A -> M S B)
  : M S B :=
  match l with
  | [] => ret b
  | a :: l' => let* b' := body b a in for_fold l' b' body
  end.

(** A size argument of a tensor constructor. *)
Definition as_size {S} (v : value T) : M S nat :=
  match as_int v with
  | None => raise TypeError
  | Some z => if (z <? 0)%Z then raise RuntimeError else ret (Z.to_nat z)
  end.

(** [t.zero_()] *)
Definition zero_ (t : tensor T) : tensor T :=
  Tensor (nrows t) (ncols t) (fun _ _ => s0).

(** [t[i][j] = x] *)
Definition set_entry (t : tensor T) (i j : nat) (x : T) : tensor T :=
  Tensor (nrows t) (ncols t)
    (fun i' j' =>
       if bool_decide (i' = i) && bool_decide (j' = j) then x
       else entry t i' j').

(** [t.scatter_(1, index.view(-1, 1), x)] from row [i] on: row by row,
    [t[i][index[i]] = x]; an index outside the columns of [t] is a
    RuntimeError. *)
Fixpoint scatter_ (t : tensor T) (i : nat) (index : list Z) (x : T)
  : option (tensor T) :=
  match index with
  | [] => Some t
  | yi :: index' =>
      if (0 <=? yi)%Z && (yi <? Z.of_nat (ncols t))%Z
      then scatter_ (set_entry t i (Z.to_nat yi) x) (S i) index' x
      else None
  end.

(** [module(X)] for a learner: its forward pass in the current
    train/eval mode on the current parameters; the result reaches the
    learner's parameters in the autograd graph when gradient tracking
    is on. *)
Definition call (l : Learner) (X : input) : M State tracked :=
  fun s =>
    let tr := training (self s) in
    let g := grad_enabled (world s) in
    (OK (Tracked (lforward l tr (params (world s)) X)
                 (if g then lparams l else [])),
     s,
     [ {| call_learner := l; call_training := tr; call_grad := g |} ]).

(** [acc += c * t] *)
Definition iadd_scaled (acc : tracked) (c : value T) (t : tracked)
  : M State tracked :=
  match iadd (tval acc) (scale (as_scalar c) (tval t)) with
  | Some v => ret (Tracked v (leaves acc ++ leaves t))
  | None => raise RuntimeError
  end.

(** [a - b] *)
Definition sub_tracked (a b : tracked) : M State tracked :=
  match tsub (tval a) (tval b) with
  | Some v => ret (Tracked v (leaves a ++ leaves b))
  | None => raise RuntimeError
  end.

Definition set_training (b : bool) (s : State) : State :=
  {| self :=
       {| args := args (self s); learner := learner (self s);
          learners := learners (self s); epochs := epochs (self s);
          output_dim := output_dim (self s);
          log_interval := log_interval (self s);
          n_estimators := n_estimators (self s);
          shrinkage_rate := shrinkage_rate (self s);
          device := device (self s);
          training := b |};
     world := world s |}.

Definition set_grad_enabled (b : bool) (s : State) : State :=
  {| self := self s;
     world := {| params := params (world s); grads := grads (world s);
                 grad_enabled := b; stdout := stdout (world s);
                 next_loc := next_loc (world s) |} |}.

Definition set_params (p : loc -> pval) (s : State) : State :=
  {| self := self s;
     world := {| params := p; grads := grads (world s);
                 grad_enabled := grad_enabled (world s);
                 stdout := stdout (world s);
                 next_loc := next_loc (world s) |} |}.

Definition set_grads (g : loc -> option gval) (s : State) : State :=
  {| self := self s;
     world := {| params := params (world s); grads := g;
                 grad_enabled := grad_enabled (world s);
                 stdout := stdout (world s);
                 next_loc := next_loc (world s) |} |}.

(** [print(l)] *)
Definition print (l : line) : M State unit :=
  modify (fun s =>
    {| self := self s;
       world := {| params := params (world s); grads := grads (world s);
                   grad_enabled := grad_enabled (world s);
                   stdout := stdout (world s) ++ [l];
                   next_loc := next_loc (world s) |} |}).

(** [with torch.no_grad(): body]: the previous mode is restored on
    exit, also when [body] raises. *)
Definition no_grad {A} (body : M State A) : M State A :=
  fun s =>
    let prev := grad_enabled (world s) in
    finally body (set_grad_enabled prev) (set_grad_enabled false s).

(** *** [GradientBoostingClassifier.__init__] *)

(** [learner(learner_args)] *)
Definition call_factory (f : factory) (cfg : gmap string (value T))
  : M World Learner :=
  fun w => match f cfg w with (r, w') => (r, w', []) end.

(** The attributes are read from [args] in source order, [output_dim]
    is written into the learner configuration, and the factory is
    called [n_estimators] times.  [.to(self.device)] returns the module
    itself; device placement is not modelled further.  (The update of
    [learner_args] is in place: the caller's dict changes as well.) *)
Definition __init__ (args : gmap string (value T)) (learner : factory)
    (learner_args : gmap string (value T)) : M World Ensemble :=
  let* epochs := getitem args "epochs" in
  let* output_dim := getitem args "output_dim" in
  let* log_interval := getitem args "log_interval" in
  let* n_estimators := getitem args "n_estimators" in
  let* shrinkage_rate := getitem args "shrinkage_rate" in
  let* cuda := getitem args "cuda" in
  let device := if truthy cuda then Cuda else Cpu in
  let learner_args := <["output_dim" := output_dim]> learner_args in
  let* r := range n_estimators in
  let* learners :=
    for_fold r [] (fun learners _ =>
      let* l := call_factory learner learner_args in
      ret (learners ++ [l])) in
  ret {| args := args; learner := learner; learners := learners;
         epochs := epochs; output_dim := output_dim;
         log_interval := log_interval; n_estimators := n_estimators;
         shrinkage_rate := shrinkage_rate; device := device;
         training := true |}.

(** [GradientBoostingClassifier(args, learner, learner_args)]: the
    object exists for the caller only when [__init__] returns. *)
Definition construct (args : gmap string (value T)) (learner : factory)
    (learner_args : gmap string (value T)) (w : World)
  : Res State * World :=
  match __init__ args learner learner_args w with
  | (OK e, w', _) => (OK {| self := e; world := w' |}, w')
  | (Raise x, w', _) => (Raise x, w')
  end.

(** *** [forward] *)
Definition forward (X : input) : M State tracked :=
  let batch_size := batch_size X in
  let* s := get in
  let* d := as_size (output_dim (self s)) in
  let y_pred := Tracked (zeros batch_size d) [] in
  for_fold (learners (self s)) y_pred (fun y_pred learner =>
    let* s := get in
    let* out := call learner X in
    iadd_scaled y_pred (shrinkage_rate (self s)) out).

(** *** [_onehot_coding]

    [y] is the label tensor read in row-major order, which is what
    [y.view(-1)] gives. *)
Definition _onehot_coding (y : list Z) : M State (tensor T) :=
  let* s := get in
  let* d := as_size (output_dim (self s)) in
  let y_onehot := Tensor (length y) d uninitialized in
  let y_onehot := zero_ y_onehot in
  of_option RuntimeError (scatter_ y_onehot 0 y s1).

(** *** [_pseudo_residual] *)
Definition _pseudo_residual (X : input) (y : list Z) (learner_idx : Z)
  : M State tracked :=
  let* y_onehot := _onehot_coding y in
  let y_onehot := Tracked y_onehot [] in
  let output := Tracked (zeros_like (tval y_onehot)) [] in
  if (learner_idx =? 0)%Z then
    sub_tracked y_onehot (Tracked (softmax (tval output)) (leaves output))
  else
    let* output :=
      for_fold (seq 0 (Z.to_nat learner_idx)) output (fun output idx =>
        let* s := get in
        let* l := of_option IndexError (learners (self s) !! idx) in
        let* out := call l X in
        iadd_scaled output (shrinkage_rate (self s)) out) in
    sub_tracked y_onehot (Tracked (softmax (tval output)) (leaves output)).

(** *** Training primitives *)

(** A data loader: the batches it yields on every iteration, in order,
    and [len(loader.dataset)]. *)
Record Loader := {
  batches : list (input * list Z);
  dataset_len : nat
}.

(** A 0-dimensional loss with its autograd graph. *)
Record loss_t := {
  loss_value : T;
  loss_leaves : list loc
}.

(** [nn.MSELoss(reduction="sum")(output, target)] *)
Definition criterion (output target : tracked) : M State loss_t :=
  match tsub (tval output) (tval target) with
  | Some d =>
      let sq := Tensor (nrows d) (ncols d)
                  (fun i j => smul (entry d i j) (entry d i j)) in
      ret {| loss_value := tsum sq;
             loss_leaves := leaves output ++ leaves target |}
  | None => raise RuntimeError
  end.

Record optimizer := {
  opt_params : list loc;
  opt_state : ostate
}.

(** [torch.optim.Adam(params, lr=lr, weight_decay=weight_decay)] *)
Definition Adam (ps : list loc) (lr weight_decay : value T)
  : M State optimizer :=
  match adam_init lr weight_decay with
  | None => raise ValueError
  | Some o =>
      match ps with
      | [] => raise ValueError
      | _ => ret {| opt_params := ps; opt_state := o |}
      end
  end.

(** [optimizer.zero_grad()]: every parameter of the optimizer that has
    a gradient gets it zeroed in place (releases of the library that drop
    the gradient instead differ on these parameters only). *)
Definition zero_grad (opt : optimizer) : M State unit :=
  modify (fun s =>
    set_grads
      (fold_left (fun g p => <[p := gzero <$> g p]> g)
                 (opt_params opt) (grads (world s))) s).

(** The gradient of the loss of one training step with respect to one
    parameter, as the autodiff engine computes it. *)
Variable dloss : State -> input -> list Z -> nat -> loc -> gval.

(** [loss.backward()]: a loss without graph is a RuntimeError;
    otherwise the gradient with respect to every parameter the graph
    reaches is accumulated into its [.grad]. *)
Definition backward (loss : loss_t) (X : input) (y : list Z) (k : nat)
  : M State unit :=
  match loss_leaves loss with
  | [] => raise RuntimeError
  | _ =>
      modify (fun s =>
        set_grads
          (fold_left
             (fun g p =>
                <[p := Some match g p with
                            | None => dloss s X y k p
                            | Some old => gacc old (dloss s X y k p)
                            end]> g)
             (remove_dups (loss_leaves loss)) (grads (world s))) s)
  end.

(** [optimizer.step()]: every parameter of the optimizer that has a
    gradient is updated. *)
Definition step (opt : optimizer) : M State optimizer :=
  fun s =>
    let '(ps, o) :=
      fold_left
        (fun '(ps, o) p =>
           match grads (world s) p with
           | None => (ps, o)
           | Some g =>
               let '(v, o') := adam_update o p (ps p) g in
               (<[p := v]> ps, o')
           end)
        (opt_params opt) (params (world s), opt_state opt) in
    (OK {| opt_params := opt_params opt; opt_state := o |},
     set_params ps s, []).

(** *** [fit] *)

(** One pass of the innermost loop body.  ([batch_idx % log_interval]
    with a float [log_interval], which the configuration does not
    provide for, is a TypeError here; Python would take the float
    modulus.) *)
Definition train_step (learner_idx : nat) (learner : Learner)
    (epoch : nat) (opt : optimizer) (batch_idx : nat)
    (X_train : input) (y_train : list Z) : M State optimizer :=
  let* y_residual := _pseudo_residual X_train y_train (Z.of_nat learner_idx) in
  let* output := call learner X_train in
  let* loss := criterion output y_residual in
  zero_grad opt ;;
  backward loss X_train y_train learner_idx ;;
  let* opt := step opt in
  let* s := get in
  let* li := of_option TypeError (as_int (log_interval (self s))) in
  (if (li =? 0)%Z then raise ZeroDivisionError else ret tt) ;;
  (if (Z.of_nat batch_idx mod li =? 0)%Z then
     print (FitStatus (Z.of_nat learner_idx + 1) (Z.of_nat epoch + 1)
              (Z.of_nat batch_idx + 1) (loss_value loss))
   else ret tt) ;;
  ret opt.

(** The body of the loop over the learners: the training phase of one
    learner. *)
Definition fit_learner (train_loader : Loader) (learner_idx : nat)
    (learner : Learner) : M State unit :=
  let* s := get in
  let ps := lparams learner in
  let* lr := getitem (args (self s)) "lr" in
  let* weight_decay := getitem (args (self s)) "weight_decay" in
  let* learner_optimizer := Adam ps lr weight_decay in
  let* r := range (epochs (self s)) in
  for_fold r learner_optimizer (fun opt epoch =>
    for_fold (enumerate (batches train_loader)) opt
      (fun opt '(batch_idx, (X_train, y_train)) =>
         train_step learner_idx learner epoch opt batch_idx
           X_train y_train)) ;;
  ret tt.

Definition fit (train_loader : Loader) : M State unit :=
  modify (set_training true) ;;
  let* s := get in
  for_fold (enumerate (learners (self s))) tt
    (fun _ '(learner_idx, learner) =>
       fit_learner train_loader learner_idx learner).

(** *** [evaluate] *)

(** Modelled from the spec: [predict] is inherited from [BaseModule],
    whose file is not part of the sources at hand; the specification
    gives prediction and [forward] as one operation ("Prediction
    (forward/predict)"). *)
Definition predict (X : input) : M State tracked := forward X.

(** [t.max(1)[1]]: the arg-max of every row. *)
Definition argmax (t : tensor T) : option (list nat) :=
  mapM (fun i => argmax_row (row t i)) (seq 0 (nrows t)).

(** A 1-dimensional tensor broadcast to length [n]. *)
Definition broadcast1 {A} (l : list A) (n : nat) : option (list A) :=
  if bool_decide (length l = n) then Some l
  else match l with
       | [x] => Some (replicate n x)
       | _ => None
       end.

(** The number of positions at which prediction and label agree. *)
Definition matches (y_pred : list nat) (y : list Z) : Z :=
  Z.of_nat (length (filter (fun '(p, l) => Z.of_nat p = l)
                      (zip y_pred y))).

(** [y_pred.eq(y).sum()] on 1-dimensional tensors; shapes that do not
    broadcast are a RuntimeError. *)
Definition count_eq (y_pred : list nat) (y : list Z) : option Z :=
  n ← bshape (length y_pred) (length y);
  y_pred' ← broadcast1 y_pred n;
  y' ← broadcast1 y n;
  Some (matches y_pred' y').

Definition evaluate (test_loader : Loader) : M State unit :=
  modify (set_training false) ;;
  let correct := 0%Z in
  no_grad (
    let* correct :=
      for_fold (enumerate (batches test_loader)) correct
        (fun correct '(batch_idx, (X_test, y_test)) =>
           let* output := predict X_test in
           let* y_pred := of_option RuntimeError (argmax (tval output)) in
           let* c := of_option RuntimeError (count_eq y_pred y_test) in
           ret (correct + c)%Z) in
    let n := dataset_len test_loader in
    if bool_decide (n = 0%nat) then raise ZeroDivisionError
    else
      let accuracy :=
        sdiv (smul (of_Z 100) (of_Z correct)) (of_Z (Z.of_nat n)) in
      print (TestingAccuracy accuracy)).
End Program.

(** ** The specification's words as definitions *)

Section Spec.
Context {T : Type} `{Scalar T}.

(** Two tensors are the same tensor: equal shapes, equal entries below
    the shape. *)
Definition tensor_eq (a b : tensor T) : Prop :=
  nrows a = nrows b /\ ncols a = ncols b /\
  forall i j, (i < nrows a)%nat -> (j < ncols a)%nat ->
              entry a i j = entry b i j.

(** "a one-hot vector of length output_dim": row [i] has its 1 at
    index [y[i]], the rest is 0. *)
Definition spec_onehot (y : list Z) (d : nat) : tensor T :=
  Tensor (length y) d
    (fun i j => if bool_decide (y !! i = Some (Z.of_nat j)) then s1 else s0).

(** "the elementwise sum, over every learner in index order, of
    shrinkage_rate * learner(input)", for the learner outputs [outs];
    the empty sum is the zero tensor. *)
Definition spec_prediction (c : T) (outs : list (tensor T)) (b d : nat)
  : tensor T :=
  Tensor b d (fun i j => ssum (map (fun o => smul c (entry o i j)) outs)).

(** "Residual = one_hot - softmax(partial_logits, over class
    dimension)" *)
Definition spec_residual (y : list Z) (c : T) (outs : list (tensor T))
    (d : nat) : tensor T :=
  let p := softmax (spec_prediction c outs (length y) d) in
  Tensor (length y) d
    (fun i j => ssub (entry (spec_onehot y d) i j) (entry p i j)).
End Spec.

(** ** Observations on runs, and the words of the claims *)

Section Observations.
Context {T : Type} `{Scalar T} `{Runtime T}.

(** The state a computation leaves, whether it returns or raises. *)
Definition post {S A} (m : M S A) (s : S) : S := snd (fst (m s)).

(** Its result. *)
Definition result {S A} (m : M S A) (s : S) : Res A := fst (fst (m s)).

(** The learner invocations it made. *)
Definition trace {S A} (m : M S A) (s : S) : list Call := snd (m s).

(** The output of a learner, the record of its invocation and the
    leaves it contributes, in state [s]. *)
Definition lout (s : State) (X : input) (l : Learner) : tensor T :=
  lforward l (training (self s)) (params (world s)) X.

Definition lcall (s : State) (l : Learner) : Call :=
  {| call_learner := l; call_training := training (self s);
     call_grad := grad_enabled (world s) |}.

Definition lleaves (s : State) (l : Learner) : list loc :=
  if grad_enabled (world s) then lparams l else [].

(** The entry [(i, j)] after accumulating [c * o] for each [o] of
    [outs] onto [a]. *)
Definition accumulate (c : T) (outs : list (tensor T)) (i j : nat) (a : T)
  : T :=
  fold_left (fun a o => sadd a (smul c (entry o i j))) outs a.

(** The indicator row of column [c]. *)
Definition indicator (c j : nat) : T :=
  if bool_decide (j = c) then s1 else s0.

(** [m] keeps the relation [R] between the state before and the state
    after, from any state, and a returned value satisfies [Q]. *)
Definition sat (R : State -> State -> Prop) {A} (m : M State A)
    (Q : A -> Prop) : Prop :=
  forall s, R s (post m s) /\ forall a, result m s = OK a -> Q a.

(** Only parameters in [K] may differ between [s] and [s']. *)
Definition params_outside (K : loc -> Prop) (s s' : State) : Prop :=
  forall p, ~ K p -> params (world s') p = params (world s) p.

(** The learner sequence is the same in [s] and [s']. *)
Definition same_learners (s s' : State) : Prop :=
  learners (self s') = learners (self s).

(** [args] holds the six keys [__init__] reads, with these values. *)
Definition configured (args : gmap string (value T))
    (e d li n sr cu : value T) : Prop :=
  args !! "epochs" = Some e /\ args !! "output_dim" = Some d /\
  args !! "log_interval" = Some li /\ args !! "n_estimators" = Some n /\
  args !! "shrinkage_rate" = Some sr /\ args !! "cuda" = Some cu.

(** [ls] are the learners that successive calls of the factory on [cfg]
    return, starting in world [w] and ending in [w']. *)
Inductive built_by (f : factory) (cfg : gmap string (value T))
  : World -> list Learner -> World -> Prop :=
  | built_nil w : built_by f cfg w [] w
  | built_cons w l w1 ls w' :
      f cfg w = (OK l, w1) -> built_by f cfg w1 ls w' ->
      built_by f cfg w (l :: ls) w'.

(** The factory never raises on [cfg]. *)
Definition factory_total (f : factory) (cfg : gmap string (value T))
  : Prop :=
  forall w, exists l w', f cfg w = (OK l, w').

(** The claim of C7 in its own words: construction fails. *)
Definition construction_fails (args : gmap string (value T)) (f : factory)
    (largs : gmap string (value T)) (w : World) : Prop :=
  exists e w', construct args f largs w = (Raise e, w').

(** [.grad] after a gradient [g] has been accumulated into it. *)
Definition deposited (old : option gval) (g : gval) : option gval :=
  Some match old with
       | None => g
       | Some o => gacc o g
       end.

(** The state after the gradient part of a step: [zero_grad], then
    [backward] on a loss that reaches the parameters [L]. *)
Definition after_backward
    (dloss : State -> input -> list Z -> nat -> loc -> gval)
    (s : State) (opt : optimizer) (L : list loc)
    (X : input) (y : list Z) (k : nat) : State :=
  let sz := post (zero_grad opt) s in
  set_grads
    (fold_left
       (fun g p =>
          <[p := Some match g p with
                      | None => dloss sz X y k p
                      | Some old => gacc old (dloss sz X y k p)
                      end]> g)
       (remove_dups L) (grads (world sz))) sz.

(** The state in which [evaluate] runs its loop: inference mode,
    gradient tracking off. *)
Definition eval_state (s : State) : State :=
  set_grad_enabled false (set_training false s).

(** "the arg-max class per row" of the specification's prediction for
    [X], computed in the state [s]. *)
Definition spec_argmax (s : State) (X : input) (d : nat) : list nat :=
  default []
    (argmax (spec_prediction (as_scalar (shrinkage_rate (self s)))
               (map (lout s X) (learners (self s))) (batch_size X) d)).

(** "compares to true label, accumulates a correct-count" *)
Definition spec_correct (s : State) (d : nat)
    (bs : list (input * list Z)) : Z :=
  foldr Z.add 0%Z (map (fun '(X, y) => matches (spec_argmax s X d) y) bs).

(** A batch [evaluate] can process: as many labels as inputs, and
    every learner returns logits of shape [(B, d)] on it. *)
Definition batch_ok (s : State) (d : nat) (b : input * list Z) : Prop :=
  length (snd b) = batch_size (fst b) /\
  Forall (fun l => has_shape (lout s (fst b) l) (batch_size (fst b)) d)
         (learners (self s)).

(** The accuracy [evaluate] prints:
    [100. * float(correct) / len(test_loader.dataset)]. *)
Definition spec_accuracy (s : State) (d : nat) (loader : Loader) : T :=
  sdiv (smul (of_Z 100)
             (of_Z (spec_correct (eval_state s) d (batches loader))))
       (of_Z (Z.of_nat (dataset_len loader))).

(** The claim of C4 in its own words, for one training step: the
    forward passes inside the pseudo-residual computation run without
    gradient tracking, and backpropagation leaves the gradients of the
    learners below [k] as they were. *)
Definition earlier_learners_untracked
    (dloss : State -> input -> list Z -> nat -> loc -> gval)
    (s : State) (k : nat) (l : Learner) (epoch : nat) (opt : optimizer)
    (batch_idx : nat) (X : input) (y : list Z) : Prop :=
  (forall c, c ∈ trace (_pseudo_residual X y (Z.of_nat k)) s ->
             call_grad c = false) /\
  (forall j l' p,
      (j < k)%nat -> learners (self s) !! j = Some l' -> p ∈ lparams l' ->
      grads (world (post (train_step dloss k l epoch opt batch_idx X y) s)) p
      = grads (world s) p).

(** The claim of C9 in its own words: [evaluate] returns after
    printing an accuracy line. *)
Definition evaluate_prints_accuracy (s : State) (loader : Loader) : Prop :=
  exists accuracy s' calls,
    evaluate loader s = (OK tt, s', calls) /\
    stdout (world s') = stdout (world s) ++ [TestingAccuracy accuracy].
End Observations.

(** ** The real numbers as scalars *)

Definition Rltb (a b : R) : bool := if Rlt_dec a b then true else false.

#[global] Instance R_scalar : Scalar R := {|
  s0 := 0%R;
  s1 := 1%R;
  sadd := Rplus;
  ssub := Rminus;
  smul := Rmult;
  sdiv := Rdiv;
  sexp := exp;
  sltb := Rltb;
  of_Z := IZR
|}.

(** ** A small runtime and ensemble for the examples *)

Section Examples.
Local Open Scope R_scope.

(** One real number per parameter, a batch of real inputs, and plain
    gradient descent standing in for the update rule of Adam. *)
Definition example_runtime : Runtime R := {|
  input := list R;
  batch_size := length;
  pval := R;
  gval := R;
  gacc := Rplus;
  gzero := fun _ => 0;
  ostate := R;
  adam_init := fun lr _ => Some (as_scalar lr);
  adam_update := fun lr _ v g => (v - lr * g, lr);
  uninitialized := fun _ _ => 0
|}.
Local Existing Instance example_runtime.

(** A learner whose logit for class [j] is its parameter [base + j],
    for every example. *)
Definition bias_learner (base d : nat) : Learner := {|
  lparams := seq base d;
  lforward := fun _ ps X =>
    Tensor (length X) d (fun _ j => ps (base + j)%nat)
|}.

(** The factory reads [output_dim] from its configuration and
    allocates one parameter per class. *)
Definition bias_factory : factory :=
  fun cfg w =>
    match cfg !! "output_dim" with
    | None => (Raise (KeyError "output_dim"), w)
    | Some v =>
        match as_int v with
        | None => (Raise TypeError, w)
        | Some d =>
            (OK (bias_learner (next_loc w) (Z.to_nat d)),
             {| params := params w; grads := grads w;
                grad_enabled := grad_enabled w; stdout := stdout w;
                next_loc := (next_loc w + Z.to_nat d)%nat |})
        end
    end.

Definition example_args (n d : Z) : gmap string (value R) :=
  <["epochs" := VInt 1]> (<["output_dim" := VInt d]>
  (<["log_interval" := VInt 1]> (<["n_estimators" := VInt n]>
  (<["shrinkage_rate" := VFloat (1 / 10)]> (<["cuda" := VBool false]>
  (<["lr" := VFloat (1 / 100)]> (<["weight_decay" := VFloat 0]> ∅))))))).

Definition example_world : World := {|
  params := fun _ => 0;
  grads := fun _ => None;
  grad_enabled := true;
  stdout := [];
  next_loc := 0%nat
|}.

(** Two learners over two classes, as construction leaves them. *)
Definition example_state : State := {|
  self := {| args := example_args 2 2; learner := bias_factory;
             learners := [bias_learner 0%nat 2%nat; bias_learner 2%nat 2%nat];
             epochs := VInt 1; output_dim := VInt 2;
             log_interval := VInt 1; n_estimators := VInt 2;
             shrinkage_rate := VFloat (1 / 10);
             device := Cpu; training := true |};
  world := {| params := fun _ => 0; grads := fun _ => None;
              grad_enabled := true; stdout := []; next_loc := 4%nat |}
|}.

Definition example_dloss
  : State -> input -> list Z -> nat -> loc -> gval :=
  fun _ _ _ _ _ => 1.

(** A batch of two inputs with labels 0 and 1, and loaders over it. *)
Definition example_X : input := [0; 0].
Definition example_y : list Z := [0%Z; 1%Z].

Definition example_loader : Loader :=
  {| batches := [(example_X, example_y)]; dataset_len := 2 |}.

Definition empty_loader : Loader :=
  {| batches := []; dataset_len := 0 |}.

(** The optimizer of the second learner. *)
Definition example_optimizer : optimizer :=
  {| opt_params := [2; 3]%nat; opt_state := 1 / 100 |}.
End Examples.

(** ** Further observations: keys, well-formed training data *)

Section MoreObservations.
Context {T : Type} `{Scalar T} `{Runtime T}.

(** The keys [__init__] reads, in the order of its assignments. *)
Definition init_keys : list string :=
  ["epochs"; "output_dim"; "log_interval"; "n_estimators";
   "shrinkage_rate"; "cuda"].

(** What [evaluate] runs inside [with torch.no_grad()]. *)
Definition evaluate_pass (test_loader : Loader) : M State unit :=
  (let* correct :=
     for_fold (enumerate (batches test_loader)) 0%Z
       (fun correct '(batch_idx, (X_test, y_test)) =>
          let* output := predict X_test in
          let* y_pred := of_option RuntimeError (argmax (tval output)) in
          let* c := of_option RuntimeError (count_eq y_pred y_test) in
          ret (correct + c)%Z) in
   let n := dataset_len test_loader in
   if bool_decide (n = 0%nat) then raise ZeroDivisionError
   else
     let accuracy :=
       sdiv (smul (of_Z 100) (of_Z correct)) (of_Z (Z.of_nat n)) in
     print (TestingAccuracy accuracy))%py.

(** Between [s] and [s'] nothing changed but the gradient mode, and the
    console only grew. *)
Definition reads_only (s s' : State) : Prop :=
  self s' = self s /\
  params (world s') = params (world s) /\
  grads (world s') = grads (world s) /\
  next_loc (world s') = next_loc (world s) /\
  stdout (world s) `prefix_of` stdout (world s').

(** Between [s] and [s'] the ensemble object and the gradient mode are
    the same, the console only grew, and only parameters in [K] may have
    new values (gradients are left open). *)
Definition trains_only (K : loc -> Prop) (s s' : State) : Prop :=
  self s' = self s /\
  grad_enabled (world s') = grad_enabled (world s) /\
  next_loc (world s') = next_loc (world s) /\
  stdout (world s) `prefix_of` stdout (world s') /\
  forall p, ~ K p -> params (world s') p = params (world s) p.

(** [p] is a parameter of one of the learners of [s]. *)
Definition learner_param (s : State) (p : loc) : Prop :=
  exists l, l ∈ learners (self s) /\ p ∈ lparams l.

(** The learner returns logits of shape [(b, d)] on [X], whatever its
    parameters and mode. *)
Definition well_shaped (l : Learner) (X : input) (b d : nat) : Prop :=
  forall tr ps, has_shape (lforward l tr ps X) b d.

(** A batch a training step can process with the learners [ls]: labels
    inside [[0, d)], and logits of shape [(number of labels, d)] from
    every learner. *)
Definition batch_trainable (ls : list Learner) (d : Z)
    (b : input * list Z) : Prop :=
  Forall (fun yi => (0 <= yi < d)%Z) (snd b) /\
  Forall (fun l => well_shaped l (fst b) (length (snd b)) (Z.to_nat d)) ls.

(** An ensemble and a loader [fit] can work on: integer [output_dim],
    [epochs] and non-zero [log_interval], the optimizer's
    hyper-parameters present and accepted, every learner with at least
    one parameter, every batch trainable. *)
Definition trainable (e : Ensemble) (loader : Loader) (d li ep : Z) : Prop :=
  output_dim e = VInt d /\ (0 <= d)%Z /\
  log_interval e = VInt li /\ li <> 0%Z /\
  epochs e = VInt ep /\
  (exists lr wd, args e !! "lr" = Some lr /\
                 args e !! "weight_decay" = Some wd /\
                 is_Some (adam_init lr wd)) /\
  Forall (fun l => lparams l <> []) (learners e) /\
  Forall (batch_trainable (learners e) d) (batches loader).

(** Between [s] and [s'] the ensemble object and the gradient mode are
    the same, and outside [K] so are parameters and gradients. *)
Definition touches_only (K : loc -> Prop) (s s' : State) : Prop :=
  self s' = self s /\
  grad_enabled (world s') = grad_enabled (world s) /\
  forall p, ~ K p ->
    grads (world s') p = grads (world s) p /\
    params (world s') p = params (world s) p.

(** The parameters of learner [l] and of the first [k] learners of
    [ls]: what a training step of learner [k] reaches. *)
Definition reached (ls : list Learner) (k : nat) (l : Learner) (p : loc)
  : Prop :=
  p ∈ lparams l \/ p ∈ concat (map lparams (take k ls)).

(** [(a + 1) + (a + 2) + ... + (a + m)]: the learner invocations of one
    batch, summed over the training phases [a .. a + m - 1]. *)
Fixpoint invocations (a m : nat) : nat :=
  match m with
  | O => 0
  | S m' => (a + 1) + invocations (S a) m'
  end.
End MoreObservations.

(** ** Further observations on evaluation *)

Section EvaluationObservations.
Context `{Runtime R}.

(** The examples a loader yields in one pass. *)
Definition examples (loader : Loader) : nat :=
  length (concat (map snd (batches loader))).

(** In every row of the logits [t] the label's class is strictly on
    top. *)
Definition separates (t : tensor R) (y : list Z) : Prop :=
  forall i yi, y !! i = Some yi ->
    (0 <= yi < Z.of_nat (ncols t))%Z /\
    forall j, (j < ncols t)%nat -> j <> Z.to_nat yi ->
      (entry t i j < entry t i (Z.to_nat yi))%R.

(** [forward], run in state [s] on [X], returns logits that put every
    label of [y] strictly on top. *)
Definition classifies (s : State) (b : input * list Z) : Prop :=
  exists t s' calls,
    forward (fst b) s = (OK t, s', calls) /\ separates (tval t) (snd b).
End EvaluationObservations.

(** ** [LeNet5]: the sizes of its tensors

    Whether [LeNet5.forward] returns or raises, and the size of what it
    returns, is decided by the sizes of the tensors alone.  The model
    below follows [size()] through the layers, for a batched input
    [(N, C, H, W)]: each layer is the size arithmetic and the size
    checks of the library's layer, and raises RuntimeError where the
    library does.  (An empty batch passes the layers and is stopped by
    [view]; releases of the library that do not take empty batches stop
    it in the first convolution, with the same exception.) *)

Module LeNet5.
Section Sizes.
Context {T : Type} `{Scalar T} `{Runtime T}.
Local Open Scope py_scope.

(** [nn.Conv2d(in_channels, out_channels, kernel_size, padding=padding)] *)
Record Conv2d := {
  in_channels : nat;
  out_channels : nat;
  kernel_size : nat;
  padding : nat
}.

(** [nn.Linear(in_features, out_features)] *)
Record Linear := {
  in_features : nat;
  out_features : nat
}.

(** The attributes of a [LeNet5]. *)
Record LeNet5 := {
  args : gmap string (value T);
  conv1 : Conv2d;
  conv2 : Conv2d;
  fc1 : Linear;
  fc2 : Linear;
  fc3 : Linear
}.

(** [LeNet5.__init__]: the last layer takes its width from
    [args["output_dim"]], a size of its weight tensor. *)
Definition __init__ {S} (args : gmap string (value T)) : M S LeNet5 :=
  let conv1 := {| in_channels := 3; out_channels := 6; kernel_size := 5;
                  padding := 2 |} in
  let conv2 := {| in_channels := 6; out_channels := 16; kernel_size := 5;
                  padding := 0 |} in
  let fc1 := {| in_features := 576; out_features := 120 |} in
  let fc2 := {| in_features := 120; out_features := 84 |} in
  let* output_dim := getitem args "output_dim" in
  let* d := as_size output_dim in
  let fc3 := {| in_features := 84; out_features := d |} in
  ret {| args := args; conv1 := conv1; conv2 := conv2; fc1 := fc1;
         fc2 := fc2; fc3 := fc3 |}.

(** [size()] of a 4-dimensional and of a 2-dimensional tensor. *)
Record size4 := Size4 { dim0 : nat; dim1 : nat; dim2 : nat; dim3 : nat }.
Record size2 := Size2 { rows : nat; cols : nat }.

Definition size (t : size4) : list nat :=
  [dim0 t; dim1 t; dim2 t; dim3 t].

(** [t.numel()] *)
Definition numel (sz : list nat) : nat := fold_left Nat.mul sz 1%nat.

(** [conv(data)]: the channels must be those of the layer, and the
    padded image at least as large as the kernel; the stride is 1. *)
Definition conv2d {S} (c : Conv2d) (data : size4) : M S size4 :=
  if bool_decide (dim1 data = in_channels c)
     && (kernel_size c <=? dim2 data + 2 * padding c)%nat
     && (kernel_size c <=? dim3 data + 2 * padding c)%nat
  then ret (Size4 (dim0 data) (out_channels c)
              (dim2 data + 2 * padding c - kernel_size c + 1)
              (dim3 data + 2 * padding c - kernel_size c + 1))
  else raise RuntimeError.

(** [F.max_pool2d(t, (kh, kw))]: the stride is the kernel size, there
    is no padding; an empty kernel, or an output without rows or
    columns, is an error. *)
Definition max_pool2d {S} (t : size4) (k : nat * nat) : M S size4 :=
  let '(kh, kw) := k in
  if (0 <? kh)%nat && (0 <? kw)%nat
     && (kh <=? dim2 t)%nat && (kw <=? dim3 t)%nat
  then ret (Size4 (dim0 t) (dim1 t)
              ((dim2 t - kh) / kh + 1) ((dim3 t - kw) / kw + 1))
  else raise RuntimeError.

(** [F.relu] and [F.dropout] keep the size.  ([F.dropout(output)] is
    called without [training=...]: it drops entries in inference mode
    as well.) *)
Definition relu {A} (t : A) : A := t.
Definition dropout {A} (t : A) : A := t.

(** [t.view(-1, n)] of a contiguous tensor: the number of elements
    must be a multiple of [n], and not 0, for the number of rows to be
    determined. *)
Definition view {S} (t : size4) (n : nat) : M S size2 :=
  let m := numel (size t) in
  if (m =? 0)%nat || (n =? 0)%nat then raise RuntimeError
  else if (m mod n =? 0)%nat then ret (Size2 (m / n) n)
  else raise RuntimeError.

(** [fc(t)] on a 2-dimensional tensor. *)
Definition linear {S} (fc : Linear) (t : size2) : M S size2 :=
  if bool_decide (cols t = in_features fc)
  then ret (Size2 (rows t) (out_features fc))
  else raise RuntimeError.

(** [LeNet5.num_flat_features], on [data.size()]. *)
Definition num_flat_features (data_size : list nat) : nat :=
  let size := tail data_size in
  let num_features := 1%nat in
  fold_left (fun num_features s => (num_features * s)%nat) size num_features.

(** [LeNet5.forward] *)
Definition forward {S} (self : LeNet5) (data : size4) : M S size2 :=
  let* output := conv2d (conv1 self) data in
  let* output := max_pool2d (relu output) (2, 2)%nat in
  let* output := conv2d (conv2 self) output in
  let* output := max_pool2d (relu output) (2, 2)%nat in
  let* output := view output (num_flat_features (size output)) in
  let* output := linear (fc1 self) output in
  let output := relu output in
  let output := dropout output in
  let* output := linear (fc2 self) output in
  let output := relu output in
  let output := dropout output in
  let* output := linear (fc3 self) output in
  ret output.

(** The images the network takes: a non-empty batch of 3 channels whose
    two poolings and the unpadded convolution leave 36 positions per
    channel, [16 * 36 = 576] features. *)
Definition accepts (data : size4) : Prop :=
  (0 < dim0 data)%nat /\ dim1 data = 3%nat /\
  (6 <= dim2 data / 2)%nat /\ (6 <= dim3 data / 2)%nat /\
  ((dim2 data / 2 - 4) / 2 * ((dim3 data / 2 - 4) / 2) = 36)%nat.
End Sizes.
End LeNet5.

(** ** Further examples *)

Section MoreExamples.
Local Existing Instance example_runtime.
Local Open Scope R_scope.

(** A factory that runs out of memory: it fails once [limit]
    parameters are allocated. *)
Definition limited_factory (limit : nat) : factory :=
  fun cfg w =>
    if (limit <=? next_loc w)%nat then (Raise RuntimeError, w)
    else bias_factory cfg w.

(** A learner that returns the same [r] rows whatever the batch. *)
Definition fixed_rows_learner (r base d : nat) : Learner :=
  @Build_Learner R example_runtime (seq base d)
    (fun _ ps X => Tensor r d (fun _ j => ps (base + j)%nat)).

(** A learner without parameters. *)
Definition constant_learner (d : nat) : Learner :=
  @Build_Learner R example_runtime []
    (fun _ _ X => Tensor (length X) d (fun _ _ => 0)).

(** The example ensemble with other arguments, learners and logging
    interval, and a state around it. *)
Definition example_ensemble (a : gmap string (value R))
    (ls : list Learner) (li : Z) : Ensemble :=
  {| args := a; learner := bias_factory; learners := ls;
     epochs := VInt 1; output_dim := VInt 2; log_interval := VInt li;
     n_estimators := VInt (Z.of_nat (length ls));
     shrinkage_rate := VFloat (1 / 10); device := Cpu; training := true |}.

Definition example_state_of (e : Ensemble) (g : bool) (ps : loc -> R)
  : State :=
  {| self := e;
     world := {| params := ps; grads := fun _ => None; grad_enabled := g;
                 stdout := []; next_loc := 4%nat |} |}.

(** Parameters that make the first learner vote for class 1. *)
Definition tuned_params : loc -> R :=
  fun p => if (p =? 1)%nat then 1 else 0.

Definition tuned_state : State :=
  example_state_of (self example_state) true tuned_params.

(** A batch of two examples of class 1. *)
Definition ones_loader : Loader :=
  {| batches := [(example_X, [1%Z; 1%Z])]; dataset_len := 2 |}.
End MoreExamples.

(** ** Facts about the primitives *)

Section Facts.
Context {T : Type} `{Scalar T} `{Runtime T}.
Local Open Scope py_scope.

Lemma bind_OK {S A B} (m : M S A) (k : A -> M S B) s a s1 c1 r s2 c2 c :
  m s = (OK a, s1, c1) -> k a s1 = (r, s2, c2) -> c = c1 ++ c2 ->
  bind m k s = (r, s2, c).
Proof. intros Hm Hk ->. unfold bind. now rewrite Hm, Hk. Qed.

Lemma bind_Raise {S A B} (m : M S A) (k : A -> M S B) s e s1 c1 :
  m s = (Raise e, s1, c1) -> bind m k s = (Raise e, s1, c1).
Proof. intros Hm. unfold bind. now rewrite Hm. Qed.

Lemma bind_OK_nil {S A B} (m : M S A) (k : A -> M S B) s a s1 :
  m s = (OK a, s1, []) -> bind m k s = k a s1.
Proof.
  intros Hm. unfold bind. rewrite Hm.
  now destruct (k a s1) as [[r s2] c2].
Qed.

Lemma bind_ret {S A B} (a : A) (k : A -> M S B) s :
  bind (ret a) k s = k a s.
Proof. now apply bind_OK_nil. Qed.

Lemma bind_get {S B} (k : S -> M S B) s : bind get k s = k s s.
Proof. now apply bind_OK_nil. Qed.

Lemma bind_modify {S B} (f : S -> S) (k : unit -> M S B) s :
  bind (modify f) k s = k tt (f s).
Proof. now apply bind_OK_nil. Qed.

Lemma bind_raise {S A B} (e : exn) (k : A -> M S B) s :
  bind (raise e) k s = (Raise e, s, []).
Proof. reflexivity. Qed.

Lemma tensor_eq_refl (a : tensor T) : tensor_eq a a.
Proof. repeat split. Qed.

Lemma tensor_eq_sym (a b : tensor T) : tensor_eq a b -> tensor_eq b a.
Proof.
  intros (Hr & Hc & He). repeat split; try congruence.
  intros i j Hi Hj. symmetry. apply He; congruence.
Qed.

Lemma tensor_eq_trans (a b c : tensor T) :
  tensor_eq a b -> tensor_eq b c -> tensor_eq a c.
Proof.
  intros (Hr & Hc & He) (Hr' & Hc' & He'). repeat split; try congruence.
  intros i j Hi Hj. rewrite He by assumption. apply He'; congruence.
Qed.

Lemma row_ext (a b : tensor T) i :
  tensor_eq a b -> (i < nrows a)%nat -> row a i = row b i.
Proof.
  intros (Hr & Hc & He) Hi. unfold row. rewrite <- Hc.
  apply map_ext_in. intros j Hj. apply in_seq in Hj. apply He; lia.
Qed.

Lemma softmax_ext (a b : tensor T) :
  tensor_eq a b -> tensor_eq (softmax a) (softmax b).
Proof.
  intros Hab. pose proof Hab as (Hr & Hc & He).
  repeat split; simpl; try assumption.
  intros i j Hi Hj. rewrite (row_ext a b i Hab Hi).
  now rewrite He.
Qed.

(** *** [scatter_] *)
Lemma scatter_spec (ys : list Z) (x : T) :
  forall (t : tensor T) (i : nat),
    Forall (fun yi => (0 <= yi < Z.of_nat (ncols t))%Z) ys ->
    exists t',
      scatter_ t i ys x = Some t' /\
      nrows t' = nrows t /\ ncols t' = ncols t /\
      forall i' j,
        entry t' i' j =
        if bool_decide ((i <= i')%nat /\
                        ys !! (i' - i)%nat = Some (Z.of_nat j))
        then x else entry t i' j.
Proof.
  induction ys as [|yi ys IH]; intros t i Hy.
  - exists t. repeat split. intros i' j.
    rewrite bool_decide_eq_false_2; [reflexivity|].
    intros [_ Hl]. discriminate.
  - inversion Hy as [|? ? Hyi Hy']; subst. simpl.
    destruct (Z.leb_spec 0 yi); [|lia].
    destruct (Z.ltb_spec yi (Z.of_nat (ncols t))); [|lia]. simpl.
    destruct (IH (set_entry t i (Z.to_nat yi) x) (S i)) as (t' & Ht' & Hr & Hc & He).
    { exact Hy'. }
    exists t'. repeat split; try assumption.
    intros i' j. rewrite He. simpl.
    destruct (decide (i' = i)) as [->|Hne].
    + rewrite (bool_decide_eq_false_2 (_ /\ _)) by lia.
      rewrite Nat.sub_diag. simpl.
      rewrite (bool_decide_eq_true_2 (i = i)) by reflexivity. simpl.
      destruct (decide (j = Z.to_nat yi)) as [->|Hj].
      * rewrite bool_decide_eq_true_2 by reflexivity.
        rewrite bool_decide_eq_true_2; [reflexivity|].
        split; [lia|]. f_equal. lia.
      * rewrite bool_decide_eq_false_2 by assumption.
        rewrite bool_decide_eq_false_2; [reflexivity|].
        intros [_ Heq]. injection Heq as Heq. lia.
    + rewrite (bool_decide_eq_false_2 (i' = i)) by assumption. simpl.
      destruct (decide (i < i')%nat) as [Hlt|Hge].
      * replace (i' - i)%nat with (S (i' - S i)) by lia. simpl.
        erewrite bool_decide_ext; [reflexivity|].
        split; intros [? ?]; split; auto; lia.
      * rewrite !bool_decide_eq_false_2; [reflexivity| |]; lia.
Qed.

Lemma as_size_VInt {S} (d : Z) (s : S) :
  (0 <= d)%Z -> as_size (VInt d) s = (OK (Z.to_nat d), s, []).
Proof.
  intros Hd. unfold as_size. simpl.
  destruct (Z.ltb_spec d 0); [lia|reflexivity].
Qed.

(** [_onehot_coding] returns, reads the state only, and its result has
    the entries of the specification's one-hot tensor at every
    position. *)
Lemma onehot_coding_entries (s : State) (y : list Z) (d : Z) :
  output_dim (self s) = VInt d -> (0 <= d)%Z ->
  Forall (fun yi => (0 <= yi < d)%Z) y ->
  exists t,
    _onehot_coding y s = (OK t, s, []) /\
    has_shape t (length y) (Z.to_nat d) /\
    forall i j, entry t i j = entry (spec_onehot y (Z.to_nat d)) i j.
Proof.
  intros Hd Hd0 Hy.
  destruct (scatter_spec y s1
              (zero_ (Tensor (length y) (Z.to_nat d) uninitialized)) 0)
    as (t & Ht & Hr & Hc & He).
  { simpl. eapply Forall_impl; [|exact Hy]. simpl. intros; lia. }
  exists t. split; [|split].
  - unfold _onehot_coding. rewrite bind_get, Hd.
    rewrite (bind_OK_nil _ _ _ _ _ (as_size_VInt d s Hd0)).
    rewrite Ht. reflexivity.
  - split; assumption.
  - intros i j. rewrite He. simpl. rewrite Nat.sub_0_r.
    destruct (decide (y !! i = Some (Z.of_nat j))) as [Hl|Hl].
    + rewrite !bool_decide_eq_true_2; auto. split; [lia|assumption].
    + rewrite !bool_decide_eq_false_2; auto. intros [_ ?]; auto.
Qed.

(** *** Sums of indicator rows *)
Section Indicator.
Hypothesis add_0_0 : sadd s0 s0 = s0.
Hypothesis add_0_1 : sadd s0 s1 = s1.
Hypothesis add_1_0 : sadd s1 s0 = s1.

Lemma fold_indicator_out (c n : nat) :
  forall a acc, (c < a \/ a + n <= c)%nat -> acc = s0 \/ acc = s1 ->
    fold_left sadd (map (indicator c) (seq a n)) acc = acc.
Proof.
  induction n as [|n IH]; intros a acc Hc Hacc; [reflexivity|].
  simpl. unfold indicator at 2.
  rewrite bool_decide_eq_false_2 by lia.
  rewrite IH.
  - destruct Hacc as [->| ->]; assumption.
  - lia.
  - destruct Hacc as [->| ->]; [left|right]; assumption.
Qed.

Lemma fold_indicator_in (c n : nat) :
  forall a, (a <= c < a + n)%nat ->
    fold_left sadd (map (indicator c) (seq a n)) s0 = s1.
Proof.
  induction n as [|n IH]; intros a Hc; [lia|].
  simpl. unfold indicator at 2.
  destruct (decide (a = c)) as [->|Hne].
  - rewrite bool_decide_eq_true_2 by reflexivity. rewrite add_0_1.
    apply fold_indicator_out; [lia|now right].
  - rewrite bool_decide_eq_false_2 by assumption. rewrite add_0_0.
    apply IH. lia.
Qed.

Lemma ssum_indicator (c d : nat) :
  (c < d)%nat -> ssum (map (indicator c) (seq 0 d)) = s1.
Proof. intros Hc. apply fold_indicator_in. lia. Qed.

Lemma spec_onehot_row_sum (y : list Z) (d : nat) (i : nat) (yi : Z) :
  y !! i = Some yi -> (0 <= yi < Z.of_nat d)%Z ->
  row_sum (spec_onehot y d) i = s1.
Proof.
  intros Hi Hyi. unfold row_sum, row. simpl.
  erewrite map_ext; [apply (ssum_indicator (Z.to_nat yi) d); lia|].
  intros j. simpl. rewrite Hi. unfold indicator.
  erewrite bool_decide_ext; [reflexivity|].
  split; [intros [= ->]; lia | intros ->; f_equal; lia].
Qed.
End Indicator.

(** *** The accumulation loops of [forward] and [_pseudo_residual] *)

Lemma iadd_same_shape (acc t : tensor T) (b d : nat) :
  has_shape acc b d -> has_shape t b d ->
  exists v, iadd acc t = Some v /\ has_shape v b d /\
            forall i j, entry v i j = sadd (entry acc i j) (entry t i j).
Proof.
  intros [Hr Hc] [Hr' Hc']. unfold iadd, expandable.
  rewrite Hr, Hc, Hr', Hc'.
  rewrite (bool_decide_eq_true_2 (b = b)) by reflexivity.
  rewrite (bool_decide_eq_true_2 (d = d)) by reflexivity. simpl.
  eexists. split; [reflexivity|]. split; [split; reflexivity|].
  intros i j. simpl. rewrite Hr', Hc'.
  rewrite (bool_decide_eq_true_2 (b = b)) by reflexivity.
  now rewrite (bool_decide_eq_true_2 (d = d)) by reflexivity.
Qed.

Lemma accumulate_ssum (c : T) (outs : list (tensor T)) (i j : nat) :
  accumulate c outs i j s0 = ssum (map (fun o => smul c (entry o i j)) outs).
Proof.
  unfold accumulate, ssum. generalize s0.
  induction outs as [|o outs IH]; intros a; [reflexivity|].
  simpl. apply IH.
Qed.

Lemma accumulate_step (s : State) (X : input) (acc : tracked)
    (l : Learner) (b d : nat) :
  has_shape (tval acc) b d -> has_shape (lout s X l) b d ->
  exists acc',
    (let* out := call l X in
     iadd_scaled acc (shrinkage_rate (self s)) out) s
    = (OK acc', s, [lcall s l]) /\
    has_shape (tval acc') b d /\
    (forall i j, entry (tval acc') i j =
                 sadd (entry (tval acc) i j)
                      (smul (as_scalar (shrinkage_rate (self s)))
                            (entry (lout s X l) i j))) /\
    leaves acc' = leaves acc ++ lleaves s l.
Proof.
  intros Ha Hl.
  destruct (iadd_same_shape (tval acc)
              (scale (as_scalar (shrinkage_rate (self s))) (lout s X l))
              b d Ha) as (v & Hv & Hs & He).
  { exact Hl. }
  exists (Tracked v (leaves acc ++ lleaves s l)).
  split; [|split; [exact Hs|split; [exact He|reflexivity]]].
  unfold bind, call, iadd_scaled. simpl.
  fold (lout s X l). rewrite Hv. reflexivity.
Qed.

Lemma forward_loop_spec (s : State) (X : input) (b d : nat) :
  forall (ls : list Learner) (acc : tracked),
    has_shape (tval acc) b d ->
    Forall (fun l => has_shape (lout s X l) b d) ls ->
    exists acc',
      for_fold ls acc (fun y_pred learner =>
        let* s := get in
        let* out := call learner X in
        iadd_scaled y_pred (shrinkage_rate (self s)) out) s
      = (OK acc', s, map (lcall s) ls) /\
      has_shape (tval acc') b d /\
      (forall i j, entry (tval acc') i j =
         accumulate (as_scalar (shrinkage_rate (self s)))
           (map (lout s X) ls) i j (entry (tval acc) i j)) /\
      leaves acc' = leaves acc ++ concat (map (lleaves s) ls).
Proof.
  induction ls as [|l ls IH]; intros acc Ha Hls.
  - exists acc. repeat split; try apply Ha. simpl. now rewrite app_nil_r.
  - inversion Hls as [|? ? Hl Hls']; subst.
    destruct (accumulate_step s X acc l b d Ha Hl)
      as (acc1 & Hstep & Hs1 & He1 & Hl1).
    destruct (IH acc1 Hs1 Hls') as (acc' & Hrun & Hs' & He' & Hl').
    exists acc'. split; [|split; [exact Hs'|split]].
    + cbn [for_fold].
      eapply bind_OK; [rewrite bind_get; exact Hstep|exact Hrun|].
      reflexivity.
    + intros i j. rewrite He'. simpl. unfold accumulate. simpl.
      now rewrite He1.
    + rewrite Hl', Hl1. simpl. now rewrite app_assoc.
Qed.

Lemma residual_loop_spec (s : State) (X : input) (b d : nat) :
  forall (n a : nat) (acc : tracked),
    has_shape (tval acc) b d ->
    (a + n <= length (learners (self s)))%nat ->
    Forall (fun l => has_shape (lout s X l) b d)
           (take n (drop a (learners (self s)))) ->
    exists acc',
      for_fold (seq a n) acc (fun output idx =>
        let* s := get in
        let* l := of_option IndexError (learners (self s) !! idx) in
        let* out := call l X in
        iadd_scaled output (shrinkage_rate (self s)) out) s
      = (OK acc', s, map (lcall s) (take n (drop a (learners (self s))))) /\
      has_shape (tval acc') b d /\
      (forall i j, entry (tval acc') i j =
         accumulate (as_scalar (shrinkage_rate (self s)))
           (map (lout s X) (take n (drop a (learners (self s))))) i j
           (entry (tval acc) i j)) /\
      leaves acc' =
        leaves acc ++
        concat (map (lleaves s) (take n (drop a (learners (self s))))).
Proof.
  induction n as [|n IH]; intros a acc Ha Hlen Hls.
  - exists acc. repeat split; try apply Ha. simpl. now rewrite app_nil_r.
  - destruct (lookup_lt_is_Some_2 (learners (self s)) a) as [l Hl]; [lia|].
    assert (Hdrop : drop a (learners (self s))
                    = l :: drop (S a) (learners (self s))).
    { now apply drop_S. }
    rewrite Hdrop in Hls |- *.
    cbn [firstn map for_fold seq concat] in Hls |- *.
    inversion Hls as [|? ? Hl0 Hls']; subst.
    destruct (accumulate_step s X acc l b d Ha Hl0)
      as (acc1 & Hstep & Hs1 & He1 & Hl1).
    destruct (IH (S a) acc1 Hs1) as (acc' & Hrun & Hs' & He' & Hl');
      [lia|exact Hls'|].
    exists acc'. split; [|split; [exact Hs'|split]].
    + eapply bind_OK; [|exact Hrun|].
      * rewrite bind_get, Hl. cbn [of_option]. rewrite bind_ret.
        exact Hstep.
      * reflexivity.
    + intros i j. rewrite He'. unfold accumulate. simpl. now rewrite He1.
    + rewrite Hl', Hl1. now rewrite <- app_assoc.
Qed.

Lemma tsub_same_shape (a t : tensor T) (b d : nat) :
  has_shape a b d -> has_shape t b d ->
  exists v, tsub a t = Some v /\ has_shape v b d /\
            forall i j, entry v i j = ssub (entry a i j) (entry t i j).
Proof.
  intros [Hr Hc] [Hr' Hc']. unfold tsub, bshape.
  rewrite Hr, Hc, Hr', Hc'.
  rewrite (bool_decide_eq_true_2 (b = b)) by reflexivity.
  rewrite (bool_decide_eq_true_2 (d = d)) by reflexivity.
  eexists. split; [reflexivity|]. split; [split; reflexivity|].
  intros i j. simpl. rewrite Hr, Hc, Hr', Hc'.
  rewrite (bool_decide_eq_true_2 (b = b)) by reflexivity.
  now rewrite (bool_decide_eq_true_2 (d = d)) by reflexivity.
Qed.

(** *** [forward] against the specification's prediction *)
Lemma forward_spec (s : State) (X : input) (d : Z) :
  output_dim (self s) = VInt d -> (0 <= d)%Z ->
  Forall (fun l => has_shape (lout s X l) (batch_size X) (Z.to_nat d))
         (learners (self s)) ->
  exists t,
    forward X s = (OK t, s, map (lcall s) (learners (self s))) /\
    tensor_eq (tval t)
      (spec_prediction (as_scalar (shrinkage_rate (self s)))
         (map (lout s X) (learners (self s)))
         (batch_size X) (Z.to_nat d)) /\
    leaves t = concat (map (lleaves s) (learners (self s))).
Proof.
  intros Hd Hd0 Hls.
  destruct (forward_loop_spec s X (batch_size X) (Z.to_nat d)
              (learners (self s))
              (Tracked (zeros (batch_size X) (Z.to_nat d)) []))
    as (t & Hrun & [Hr Hc] & He & Hl); [split; reflexivity|exact Hls|].
  exists t. split; [|split].
  - unfold forward. rewrite bind_get, Hd.
    rewrite (bind_OK_nil _ _ _ _ _ (as_size_VInt d s Hd0)).
    exact Hrun.
  - split; [exact Hr|split; [exact Hc|]].
    intros i j _ _. rewrite He. simpl. apply accumulate_ssum.
  - exact Hl.
Qed.

(** *** [_pseudo_residual] against the specification's residual *)
Lemma residual_tail (s : State) (y : list Z) (d : nat) (c : T)
    (outs : list (tensor T)) (onehot : tensor T) (output : tracked) :
  has_shape onehot (length y) d ->
  (forall i j, entry onehot i j = entry (spec_onehot y d) i j) ->
  has_shape (tval output) (length y) d ->
  (forall i j, entry (tval output) i j = accumulate c outs i j s0) ->
  exists r,
    sub_tracked (Tracked onehot [])
      (Tracked (softmax (tval output)) (leaves output)) s
    = (OK r, s, []) /\
    tensor_eq (tval r) (spec_residual y c outs d) /\
    leaves r = leaves output.
Proof.
  intros Hoh Hohe Hout Houte.
  destruct (tsub_same_shape onehot (softmax (tval output)) (length y) d Hoh)
    as (v & Hv & [Hr Hc] & He).
  { exact Hout. }
  exists (Tracked v (leaves output)). split; [|split; [|reflexivity]].
  - unfold sub_tracked. simpl. now rewrite Hv.
  - split; [exact Hr|split; [exact Hc|]].
    intros i j Hi Hj. rewrite He, Hohe.
    cbn [spec_residual entry]. f_equal.
    apply (softmax_ext (tval output) (spec_prediction c outs (length y) d)).
    + destruct Hout as [Hr' Hc'].
      split; [exact Hr'|split; [exact Hc'|]].
      intros i' j' _ _. rewrite Houte. apply accumulate_ssum.
    + destruct Hout as [Hr' _]. simpl in Hi |- *. lia.
    + destruct Hout as [_ Hc']. simpl in Hj |- *. lia.
Qed.

Lemma pseudo_residual_spec (s : State) (X : input) (y : list Z)
    (k d : Z) :
  output_dim (self s) = VInt d -> (0 <= d)%Z ->
  Forall (fun yi => (0 <= yi < d)%Z) y ->
  (0 <= k)%Z -> (Z.to_nat k <= length (learners (self s)))%nat ->
  Forall (fun l => has_shape (lout s X l) (length y) (Z.to_nat d))
         (take (Z.to_nat k) (learners (self s))) ->
  exists r,
    _pseudo_residual X y k s
    = (OK r, s, map (lcall s) (take (Z.to_nat k) (learners (self s)))) /\
    tensor_eq (tval r)
      (spec_residual y (as_scalar (shrinkage_rate (self s)))
         (map (lout s X) (take (Z.to_nat k) (learners (self s))))
         (Z.to_nat d)) /\
    leaves r =
      concat (map (lleaves s) (take (Z.to_nat k) (learners (self s)))).
Proof.
  intros Hd Hd0 Hy Hk Hlen Hls.
  destruct (onehot_coding_entries s y d Hd Hd0 Hy)
    as (oh & Hoh & Hohs & Hohe).
  pose proof Hohs as [Hohr Hohc].
  unfold _pseudo_residual.
  rewrite (bind_OK_nil _ _ _ _ _ Hoh). cbn [tval leaves].
  destruct (Z.eqb_spec k 0) as [->|Hk0].
  - cbn [Z.to_nat take map concat firstn].
    destruct (residual_tail s y (Z.to_nat d)
                (as_scalar (shrinkage_rate (self s))) [] oh
                (Tracked (zeros_like oh) []) Hohs Hohe)
      as (r & Hr & Hre & Hrl).
    { unfold zeros_like. rewrite Hohr, Hohc. split; reflexivity. }
    { reflexivity. }
    exists r. split; [exact Hr|split; [exact Hre|exact Hrl]].
  - destruct (residual_loop_spec s X (length y) (Z.to_nat d)
                (Z.to_nat k) 0 (Tracked (zeros_like oh) []))
      as (out & Hrun & Houts & Houte & Houtl).
    { unfold zeros_like. rewrite Hohr, Hohc. split; reflexivity. }
    { simpl. exact Hlen. }
    { rewrite drop_0. exact Hls. }
    rewrite drop_0 in Hrun, Houte, Houtl.
    destruct (residual_tail s y (Z.to_nat d)
                (as_scalar (shrinkage_rate (self s)))
                (map (lout s X) (take (Z.to_nat k) (learners (self s))))
                oh out Hohs Hohe Houts)
      as (r & Hr & Hre & Hrl).
    { exact Houte. }
    exists r. split; [|split; [exact Hre|]].
    + eapply bind_OK; [exact Hrun|exact Hr|]. now rewrite app_nil_r.
    + rewrite Hrl, Houtl. reflexivity.
Qed.
End Facts.

(** ** Sums of real numbers *)

Section RealSums.
Local Open Scope R_scope.








End RealSums.

(** ** Label encoding, prediction, pseudo-residual *)

Section ValueClaims.
Context {T : Type} `{Scalar T} `{Runtime T}.

(** C5.  For labels inside [[0, output_dim)], [_onehot_coding] returns a
    tensor of shape [(B, output_dim)] whose row [i] has 1 at column
    [y[i]] and 0 elsewhere, hence sums to 1, in batch order.  The sum
    needs only that adding 0 to 0 or to 1 is exact, which holds for
    IEEE arithmetic and for the reals alike. *)
Theorem onehot_coding_correct (s : State) (y : list Z) (d : Z) :
  sadd s0 s0 = s0 -> sadd s0 s1 = s1 -> sadd s1 s0 = s1 ->
  output_dim (self s) = VInt d -> (0 <= d)%Z ->
  Forall (fun yi => (0 <= yi < d)%Z) y ->
  exists t,
    _onehot_coding y s = (OK t, s, []) /\
    has_shape t (length y) (Z.to_nat d) /\
    forall i yi, y !! i = Some yi ->
      entry t i (Z.to_nat yi) = s1 /\
      (forall j, (j < Z.to_nat d)%nat -> j <> Z.to_nat yi ->
                 entry t i j = s0) /\
      row_sum t i = s1.
Proof.
  intros H00 H01 H10 Hd Hd0 Hy.
  destruct (onehot_coding_entries s y d Hd Hd0 Hy) as (t & Ht & Hs & He).
  exists t. split; [exact Ht|split; [exact Hs|]].
  intros i yi Hi.
  assert (Hyi : (0 <= yi < d)%Z).
  { rewrite Forall_forall in Hy. apply Hy.
    apply list_elem_of_In. eapply list_elem_of_lookup_2. exact Hi. }
  split; [|split].
  - rewrite He. simpl. rewrite Hi.
    rewrite bool_decide_eq_true_2; [reflexivity|]. f_equal. lia.
  - intros j Hj Hne. rewrite He. simpl. rewrite Hi.
    rewrite bool_decide_eq_false_2; [reflexivity|].
    intros [= ->]. apply Hne. lia.
  - rewrite <- (spec_onehot_row_sum H00 H01 H10 y (Z.to_nat d) i yi Hi)
      by lia.
    unfold row_sum. f_equal. apply row_ext.
    + destruct Hs as [Hr Hc].
      split; [exact Hr|split; [exact Hc|]]. intros; apply He.
    + destruct Hs as [Hr _]. rewrite Hr.
      apply lookup_lt_Some in Hi. exact Hi.
Qed.

(** C1.  For a learner index [k] within the ensemble,
    [_pseudo_residual(X, y, k)] returns [one_hot(y)] minus the row-wise
    softmax of the partial logits, the sum of
    [shrinkage_rate * learner_i(X)] over [i < k] (the zero tensor for
    [k = 0]); its shape is [(B, output_dim)]. *)
Theorem pseudo_residual_correct (s : State) (X : input) (y : list Z)
    (k d : Z) :
  output_dim (self s) = VInt d -> (0 <= d)%Z ->
  Forall (fun yi => (0 <= yi < d)%Z) y ->
  length y = batch_size X ->
  (0 <= k < Z.of_nat (length (learners (self s))))%Z ->
  Forall (fun l => has_shape (lout s X l) (batch_size X) (Z.to_nat d))
         (take (Z.to_nat k) (learners (self s))) ->
  exists r,
    _pseudo_residual X y k s
    = (OK r, s, map (lcall s) (take (Z.to_nat k) (learners (self s)))) /\
    has_shape (tval r) (batch_size X) (Z.to_nat d) /\
    tensor_eq (tval r)
      (spec_residual y (as_scalar (shrinkage_rate (self s)))
         (map (lout s X) (take (Z.to_nat k) (learners (self s))))
         (Z.to_nat d)) /\
    (k = 0%Z ->
     forall i j,
       entry (spec_prediction (as_scalar (shrinkage_rate (self s)))
                (map (lout s X) (take (Z.to_nat k) (learners (self s))))
                (batch_size X) (Z.to_nat d)) i j = s0).
Proof.
  intros Hd Hd0 Hy Hlen Hk Hls. rewrite <- Hlen in Hls.
  destruct (pseudo_residual_spec s X y k d Hd Hd0 Hy) as (r & Hrun & Heq & _);
    [lia|lia|exact Hls|].
  exists r. split; [exact Hrun|split; [|split; [exact Heq|]]].
  - destruct Heq as (Hr & Hc & _). rewrite <- Hlen. split; assumption.
  - intros -> i j. reflexivity.
Qed.
End ValueClaims.

Section RealClaims.
Context `{Runtime R}.
Local Open Scope R_scope.



End RealClaims.

(** ** A small program logic for frame properties *)

Section Hoare.
Context {T : Type} `{Scalar T} `{Runtime T}.
Local Open Scope py_scope.

(** [R] relates the state before to the state after; [K] is the set of
    parameters a step may write. *)
Variable R : State -> State -> Prop.
Variable K : loc -> Prop.
Hypothesis R_refl : forall s, R s s.
Hypothesis R_trans : forall s1 s2 s3, R s1 s2 -> R s2 s3 -> R s1 s3.
Hypothesis R_training : forall s b, R s (set_training b s).
Hypothesis R_grad_enabled : forall s b, R s (set_grad_enabled b s).
Hypothesis R_grads : forall s g, R s (set_grads g s).
Hypothesis R_stdout : forall s l, R s (post (print l) s).
Hypothesis R_params : forall s ps,
  (forall p, ~ K p -> ps p = params (world s) p) -> R s (set_params ps s).

Lemma sat_weaken {A} (m : M State A) (Q Q' : A -> Prop) :
  sat R m Q -> (forall a, Q a -> Q' a) -> sat R m Q'.
Proof.
  intros Hm HQ s. destruct (Hm s) as [HR Hres]. split; [exact HR|].
  intros a Ha. apply HQ, Hres, Ha.
Qed.

Lemma sat_pure {A} (m : M State A) (Q : A -> Prop) :
  (forall s, post m s = s) ->
  (forall s a, result m s = OK a -> Q a) -> sat R m Q.
Proof.
  intros Hp Hq s. rewrite Hp. split; [apply R_refl|apply Hq].
Qed.

Lemma sat_ret {A} (a : A) (Q : A -> Prop) : Q a -> sat R (ret a) Q.
Proof.
  intros Ha. apply sat_pure; [reflexivity|].
  intros s a' [= <-]. exact Ha.
Qed.

Lemma sat_raise {A} (e : exn) (Q : A -> Prop) : sat R (raise e) Q.
Proof. apply sat_pure; [reflexivity|]. intros s a [=]. Qed.

Lemma sat_of_option {A} (e : exn) (o : option A) (Q : A -> Prop) :
  (forall a, o = Some a -> Q a) -> sat R (of_option e o) Q.
Proof.
  intros Ho. destruct o as [a|]; [apply sat_ret; auto|apply sat_raise].
Qed.

Lemma sat_get (Q : State -> Prop) : (forall s, Q s) -> sat R get Q.
Proof.
  intros HQ. apply sat_pure; [reflexivity|]. intros s a _. apply HQ.
Qed.

Lemma sat_modify (f : State -> State) (Q : unit -> Prop) :
  (forall s, R s (f s)) -> Q tt -> sat R (modify f) Q.
Proof.
  intros Hf HQ s. split; [apply Hf|]. intros [] _. exact HQ.
Qed.

Lemma sat_bind {A B} (m : M State A) (k : A -> M State B)
    (Q : A -> Prop) (Q' : B -> Prop) :
  sat R m Q -> (forall a, Q a -> sat R (k a) Q') -> sat R (bind m k) Q'.
Proof.
  intros Hm Hk s. destruct (Hm s) as [HR Hres].
  unfold post, result, bind in *.
  destruct (m s) as [[[a|e] s1] c1]; simpl in *.
  - destruct (Hk a (Hres a eq_refl) s1) as [HR' Hres'].
    unfold post, result in *.
    destruct (k a s1) as [[r s2] c2]; simpl in *.
    split; [eapply R_trans; eassumption|exact Hres'].
  - split; [exact HR|]. intros b [=].
Qed.

Lemma sat_for_fold {A B} (l : list A) (body : B -> A -> M State B)
    (I : B -> Prop) :
  (forall b a, I b -> sat R (body b a) I) ->
  forall b, I b -> sat R (for_fold l b body) I.
Proof.
  intros Hbody. induction l as [|a l IH]; intros b Hb; cbn [for_fold].
  - apply sat_ret, Hb.
  - eapply sat_bind; [apply Hbody, Hb|]. intros b' Hb'. apply IH, Hb'.
Qed.

Lemma sat_finally {A} (body : M State A) (fin : State -> State)
    (Q : A -> Prop) :
  sat R body Q -> (forall s, R s (fin s)) -> sat R (finally body fin) Q.
Proof.
  intros Hb Hf s. destruct (Hb s) as [HR Hres].
  unfold post, result, finally in *.
  destruct (body s) as [[r s1] c1]; simpl in *.
  split; [eapply R_trans; [exact HR|apply Hf]|exact Hres].
Qed.

Lemma sat_no_grad {A} (body : M State A) (Q : A -> Prop) :
  sat R body Q -> sat R (no_grad body) Q.
Proof.
  intros Hb s. unfold no_grad.
  destruct (sat_finally body (set_grad_enabled (grad_enabled (world s))) Q Hb
              (fun s' => R_grad_enabled s' _) (set_grad_enabled false s))
    as [HR Hres].
  split; [|exact Hres].
  eapply R_trans; [apply (R_grad_enabled s false)|exact HR].
Qed.

(** The primitives. *)
Lemma sat_getitem (d : gmap string (value T)) (key : string) :
  sat R (getitem d key) (fun _ => True).
Proof. apply sat_of_option. auto. Qed.

Lemma sat_range (n : value T) : sat R (range n) (fun _ => True).
Proof.
  unfold range. destruct (as_int n); [apply sat_ret|apply sat_raise]; auto.
Qed.

Lemma sat_as_size (v : value T) : sat R (as_size v) (fun _ => True).
Proof.
  unfold as_size. destruct (as_int v) as [z|]; [|apply sat_raise].
  destruct (z <? 0)%Z; [apply sat_raise|apply sat_ret]; auto.
Qed.

Lemma sat_call (l : Learner) (X : input) : sat R (call l X) (fun _ => True).
Proof. apply sat_pure; [reflexivity|auto]. Qed.

Lemma sat_iadd_scaled (acc : tracked) (c : value T) (t : tracked) :
  sat R (iadd_scaled acc c t) (fun _ => True).
Proof.
  unfold iadd_scaled. destruct (iadd _ _); [apply sat_ret|apply sat_raise].
  auto.
Qed.

Lemma sat_sub_tracked (a b : tracked) :
  sat R (sub_tracked a b) (fun _ => True).
Proof.
  unfold sub_tracked. destruct (tsub _ _); [apply sat_ret|apply sat_raise].
  auto.
Qed.

Lemma sat_print (l : line) : sat R (print l) (fun _ => True).
Proof. intros s. split; [apply R_stdout|auto]. Qed.

(** The methods that only read. *)
Lemma sat_forward (X : input) : sat R (forward X) (fun _ => True).
Proof.
  unfold forward.
  eapply sat_bind; [apply (sat_get (fun _ => True)); auto|]. intros s _.
  eapply sat_bind; [apply sat_as_size|]. intros d _.
  apply (sat_for_fold _ _ (fun _ => True)); [|exact I].
  intros y_pred l _.
  eapply sat_bind; [apply (sat_get (fun _ => True)); auto|]. intros s' _.
  eapply sat_bind; [apply sat_call|]. intros out _.
  apply sat_iadd_scaled.
Qed.

Lemma sat_onehot_coding (y : list Z) :
  sat R (_onehot_coding y) (fun _ => True).
Proof.
  unfold _onehot_coding.
  eapply sat_bind; [apply (sat_get (fun _ => True)); auto|]. intros s _.
  eapply sat_bind; [apply sat_as_size|]. intros d _.
  apply sat_of_option. auto.
Qed.

Lemma sat_pseudo_residual (X : input) (y : list Z) (k : Z) :
  sat R (_pseudo_residual X y k) (fun _ => True).
Proof.
  unfold _pseudo_residual.
  eapply sat_bind; [apply sat_onehot_coding|]. intros oh _.
  destruct (k =? 0)%Z; [apply sat_sub_tracked|].
  eapply sat_bind; [|intros; apply sat_sub_tracked].
  apply (sat_for_fold _ _ (fun _ => True)); [|exact I].
  intros output idx _.
  eapply sat_bind; [apply (sat_get (fun _ => True)); auto|]. intros s' _.
  eapply sat_bind; [apply (sat_of_option _ _ (fun _ => True)); auto|].
  intros l _.
  eapply sat_bind; [apply sat_call|]. intros out _.
  apply sat_iadd_scaled.
Qed.

(** The training primitives. *)
Variable dloss : State -> input -> list Z -> nat -> loc -> gval.

Lemma sat_criterion (output target : tracked) :
  sat R (criterion output target) (fun _ => True).
Proof.
  unfold criterion. destruct (tsub _ _); [apply sat_ret|apply sat_raise].
  auto.
Qed.

Lemma sat_Adam (ps : list loc) (lr wd : value T) :
  sat R (Adam ps lr wd) (fun opt => opt_params opt = ps).
Proof.
  unfold Adam. destruct (adam_init lr wd) as [o|]; [|apply sat_raise].
  destruct ps; [apply sat_raise|apply sat_ret]. reflexivity.
Qed.

Lemma sat_zero_grad (opt : optimizer) :
  sat R (zero_grad opt) (fun _ => True).
Proof. apply sat_modify; [|exact I]. intros s. apply R_grads. Qed.

Lemma sat_backward (loss : loss_t) (X : input) (y : list Z) (k : nat) :
  sat R (backward dloss loss X y k) (fun _ => True).
Proof.
  unfold backward. destruct (loss_leaves loss); [apply sat_raise|].
  apply sat_modify; [|exact I]. intros s. apply R_grads.
Qed.

(** [step] writes the parameters of its optimizer only. *)
Lemma step_fold_outside (g : loc -> option gval) (ps : list loc) :
  forall (acc : (loc -> pval) * ostate) (p : loc),
    p ∉ ps ->
    fst (fold_left
           (fun '(ps, o) p =>
              match g p with
              | None => (ps, o)
              | Some gr =>
                  let '(v, o') := adam_update o p (ps p) gr in
                  (<[p := v]> ps, o')
              end) ps acc) p
    = fst acc p.
Proof.
  induction ps as [|q ps IH]; intros [vals o] p Hp; [reflexivity|].
  apply not_elem_of_cons in Hp as [Hpq Hp].
  cbn [fold_left]. rewrite IH by exact Hp.
  destruct (g q) as [gr|]; [|reflexivity].
  destruct (adam_update o q (vals q) gr) as [v o']. cbn [fst].
  apply fn_lookup_insert_ne. congruence.
Qed.

Lemma sat_step (opt : optimizer) :
  (forall p, p ∈ opt_params opt -> K p) ->
  sat R (step opt) (fun opt' => opt_params opt' = opt_params opt).
Proof.
  intros HK s. unfold post, result, step.
  pose proof (step_fold_outside (grads (world s)) (opt_params opt)
                (params (world s), opt_state opt)) as Hout.
  destruct (fold_left _ (opt_params opt) (params (world s), opt_state opt))
    as [ps o].
  cbn [fst snd] in *. split.
  - apply R_params. intros p Hp. apply Hout. intros Hin. apply Hp, HK, Hin.
  - intros a [= <-]. reflexivity.
Qed.

Lemma sat_train_step (learner_idx : nat) (learner : Learner) (epoch : nat)
    (opt : optimizer) (batch_idx : nat) (X : input) (y : list Z) :
  (forall p, p ∈ opt_params opt -> K p) ->
  sat R (train_step dloss learner_idx learner epoch opt batch_idx X y)
      (fun opt' => opt_params opt' = opt_params opt).
Proof.
  intros HK. unfold train_step.
  eapply sat_bind; [apply sat_pseudo_residual|]. intros y_residual _.
  eapply sat_bind; [apply sat_call|]. intros output _.
  eapply sat_bind; [apply sat_criterion|]. intros loss _.
  eapply sat_bind; [apply sat_zero_grad|]. intros _ _.
  eapply sat_bind; [apply sat_backward|]. intros _ _.
  eapply sat_bind; [apply sat_step, HK|]. intros opt' Hopt'.
  eapply sat_bind; [apply (sat_get (fun _ => True)); auto|]. intros s _.
  eapply sat_bind; [apply (sat_of_option _ _ (fun _ => True)); auto|].
  intros li _.
  eapply sat_bind.
  { destruct (li =? 0)%Z;
      [apply sat_raise|apply (sat_ret _ (fun _ => True)); exact I]. }
  intros _ _.
  eapply sat_bind.
  { destruct (_ =? 0)%Z;
      [apply sat_print|apply (sat_ret _ (fun _ => True)); exact I]. }
  intros _ _. apply sat_ret. exact Hopt'.
Qed.

Lemma sat_fit_learner (loader : Loader) (learner_idx : nat)
    (learner : Learner) :
  (forall p, p ∈ lparams learner -> K p) ->
  sat R (fit_learner dloss loader learner_idx learner) (fun _ => True).
Proof.
  intros HK. unfold fit_learner.
  eapply sat_bind; [apply (sat_get (fun _ => True)); auto|]. intros s _.
  eapply sat_bind; [apply sat_getitem|]. intros lr _.
  eapply sat_bind; [apply sat_getitem|]. intros wd _.
  eapply sat_bind; [apply sat_Adam|]. intros opt Hopt.
  eapply sat_bind; [apply sat_range|]. intros r _.
  eapply sat_bind; [|intros; apply sat_ret; exact I].
  apply (sat_for_fold _ _
           (fun o => opt_params o = lparams learner)); [|exact Hopt].
  intros o epoch Ho.
  apply (sat_for_fold _ _
           (fun o => opt_params o = lparams learner)); [|exact Ho].
  intros o' [batch_idx [X y]] Ho'.
  eapply sat_weaken.
  - apply sat_train_step. rewrite Ho'. exact HK.
  - cbn beta. intros o'' ->. exact Ho'.
Qed.

Lemma sat_fit (loader : Loader) :
  (forall p, K p) -> sat R (fit dloss loader) (fun _ => True).
Proof.
  intros HK. unfold fit.
  eapply sat_bind.
  { apply (sat_modify _ (fun _ => True)); [|exact I].
    intros s. apply R_training. }
  intros _ _.
  eapply sat_bind; [apply (sat_get (fun _ => True)); auto|]. intros s _.
  apply (sat_for_fold _ _ (fun _ => True)); [|exact I].
  intros _ [learner_idx learner] _.
  apply sat_fit_learner. intros p _. apply HK.
Qed.

Lemma sat_evaluate (loader : Loader) :
  sat R (evaluate loader) (fun _ => True).
Proof.
  unfold evaluate.
  eapply sat_bind.
  { apply (sat_modify _ (fun _ => True)); [|exact I].
    intros s. apply R_training. }
  intros _ _. apply sat_no_grad.
  eapply sat_bind.
  { apply (sat_for_fold _ _ (fun _ => True)); [|exact I].
    intros correct [batch_idx [X y]] _.
    eapply sat_bind; [apply sat_forward|]. intros output _.
    eapply sat_bind; [apply (sat_of_option _ _ (fun _ => True)); auto|].
    intros y_pred _.
    eapply sat_bind; [apply (sat_of_option _ _ (fun _ => True)); auto|].
    intros c _. apply sat_ret. exact I. }
  intros correct _.
  destruct (bool_decide _); [apply sat_raise|apply sat_print].
Qed.
End Hoare.

(** ** Frame properties of the methods *)

Section FrameClaims.
Context {T : Type} `{Scalar T} `{Runtime T}.
Variable dloss : State -> input -> list Z -> nat -> loc -> gval.

Lemma forward_pure (X : input) (s : State) : post (forward X) s = s.
Proof.
  assert (Hs : sat eq (forward X) (fun _ => True)).
  { apply sat_forward; [intros; reflexivity|intros ? ? ? -> ->; reflexivity]. }
  symmetry. exact (proj1 (Hs s)).
Qed.

(** C2.  [forward] has no effect on the state, whether it returns or
    raises; when every learner returns logits of shape
    [(B, output_dim)] it returns a tensor of that shape whose entries are
    the sums, over all learners in ascending index order, of
    [shrinkage_rate * learner(X)], having called every learner once, in
    order. *)
Theorem forward_correct (s : State) (X : input) (d : Z) :
  output_dim (self s) = VInt d -> (0 <= d)%Z ->
  Forall (fun l => has_shape (lout s X l) (batch_size X) (Z.to_nat d))
         (learners (self s)) ->
  (forall s' X', post (forward X') s' = s') /\
  exists t,
    forward X s = (OK t, s, map (lcall s) (learners (self s))) /\
    has_shape (tval t) (batch_size X) (Z.to_nat d) /\
    tensor_eq (tval t)
      (spec_prediction (as_scalar (shrinkage_rate (self s)))
         (map (lout s X) (learners (self s)))
         (batch_size X) (Z.to_nat d)).
Proof.
  intros Hd Hd0 Hls. split; [intros s' X'; apply forward_pure|].
  destruct (forward_spec s X d Hd Hd0 Hls) as (t & Hrun & Heq & _).
  exists t. split; [exact Hrun|split; [|exact Heq]].
  destruct Heq as (Hr & Hc & _). split; assumption.
Qed.

Lemma fit_learner_params_outside (loader : Loader) (k : nat) (l : Learner)
    (s : State) :
  params_outside (fun p => p ∈ lparams l) s
    (post (fit_learner dloss loader k l) s).
Proof.
  assert (Hs : sat (params_outside (fun p => p ∈ lparams l))
                 (fit_learner dloss loader k l) (fun _ => True)).
  { apply sat_fit_learner with (K := fun p => p ∈ lparams l);
      unfold params_outside;
      first [ solve [intros; reflexivity]
            | solve [intros s1 s2 s3 H12 H23 p Hp;
                     rewrite (H23 p Hp); exact (H12 p Hp)]
            | solve [intros s0 ps Hps p Hp; exact (Hps p Hp)]
            | solve [auto] ]. }
  exact (proj1 (Hs s)).
Qed.

(** C3.  The training phase of learner [k] (the body of the loop of
    [fit]: optimizer creation, and for every epoch and batch gradient
    zeroing, backpropagation and optimizer step) changes no parameter
    outside those of learner [k], whether it completes or raises; so
    every parameter of a learner with another index, sharing no
    parameter with learner [k], is left as it was. *)
Theorem fit_learner_frame (loader : Loader) (k : nat) (l : Learner)
    (s : State) :
  learners (self s) !! k = Some l ->
  (forall p, p ∉ lparams l ->
     params (world (post (fit_learner dloss loader k l) s)) p
     = params (world s) p) /\
  (forall j l', j <> k -> learners (self s) !! j = Some l' ->
     (forall p, p ∈ lparams l' -> p ∉ lparams l) ->
     forall p, p ∈ lparams l' ->
       params (world (post (fit_learner dloss loader k l) s)) p
       = params (world s) p).
Proof.
  intros _.
  pose proof (fit_learner_params_outside loader k l s) as Hout.
  split.
  - intros p Hp. apply Hout, Hp.
  - intros j l' _ _ Hdisj p Hp. apply Hout, Hdisj, Hp.
Qed.

Lemma same_learners_sat {A} (m : M State A) :
  (forall R K,
      (forall s, R s s) ->
      (forall s1 s2 s3, R s1 s2 -> R s2 s3 -> R s1 s3) ->
      (forall s b, R s (set_training b s)) ->
      (forall s b, R s (set_grad_enabled b s)) ->
      (forall s g, R s (set_grads g s)) ->
      (forall s ln, R s (post (print ln) s)) ->
      (forall s ps,
          (forall p, ~ K p -> ps p = params (world s) p) ->
          R s (set_params ps s)) ->
      (forall p : loc, K p) ->
      sat R m (fun _ => True)) ->
  forall s, same_learners s (post m s).
Proof.
  intros Hm s.
  refine (proj1 (Hm same_learners (fun _ => True) _ _ _ _ _ _ _ _ s));
    unfold same_learners; try (intros; reflexivity); auto.
  intros s1 s2 s3 H12 H23. congruence.
Qed.

(** No method changes the learner sequence. *)
Lemma methods_keep_learners (s : State) :
  (forall X, same_learners s (post (forward X) s)) /\
  (forall X y k, same_learners s (post (_pseudo_residual X y k) s)) /\
  (forall loader, same_learners s (post (fit dloss loader) s)) /\
  (forall loader, same_learners s (post (evaluate loader) s)).
Proof.
  repeat split; intros; apply same_learners_sat; intros.
  - apply sat_forward; auto.
  - apply sat_pseudo_residual; auto.
  - eapply sat_fit; eauto.
  - apply sat_evaluate; auto.
Qed.
End FrameClaims.

(** ** Construction *)

Section Construction.
Context {T : Type} `{Scalar T} `{Runtime T}.
Local Open Scope py_scope.

Lemma build_loop_inv (f : factory) (cfg : gmap string (value T))
    (r : list nat) :
  forall acc w ls w' c,
    for_fold r acc (fun learners _ =>
      let* l := call_factory f cfg in ret (learners ++ [l])) w
    = (OK ls, w', c) ->
    exists new, ls = acc ++ new /\ length new = length r /\
                built_by f cfg w new w'.
Proof.
  induction r as [|a r IH]; intros acc w ls w' c Hrun.
  - injection Hrun as <- <- _. exists []. rewrite app_nil_r.
    repeat split. constructor.
  - cbn [for_fold] in Hrun. unfold bind at 1 in Hrun.
    unfold bind at 1, call_factory in Hrun.
    destruct (f cfg w) as [[l|e] w1] eqn:Hf; [|discriminate].
    cbn in Hrun.
    destruct (for_fold r (acc ++ [l]) _ w1) as [[res w2] c2] eqn:Hrest.
    injection Hrun as -> -> _.
    destruct (IH _ _ _ _ _ Hrest) as (new & -> & Hlen & Hb).
    exists (l :: new). rewrite <- app_assoc. repeat split.
    + simpl. now rewrite Hlen.
    + econstructor; eassumption.
Qed.

Lemma build_loop_total (f : factory) (cfg : gmap string (value T))
    (r : list nat) :
  factory_total f cfg ->
  forall acc w, exists ls w',
    for_fold r acc (fun learners _ =>
      let* l := call_factory f cfg in ret (learners ++ [l])) w
    = (OK ls, w', []).
Proof.
  intros Hf. induction r as [|a r IH]; intros acc w.
  - exists acc, w. reflexivity.
  - destruct (Hf w) as (l & w1 & Hl).
    destruct (IH (acc ++ [l]) w1) as (ls & w' & Hrun).
    exists ls, w'. cbn [for_fold].
    eapply bind_OK; [|exact Hrun|].
    + unfold bind, call_factory. rewrite Hl. reflexivity.
    + reflexivity.
Qed.

(** [__init__] once the six keys are read. *)
Lemma init_configured (args : gmap string (value T)) (f : factory)
    (largs : gmap string (value T)) (e d li n sr cu : value T) (w : World) :
  configured args e d li n sr cu ->
  __init__ args f largs w
  = (let* r := range n in
     let* learners :=
       for_fold r [] (fun learners _ =>
         let* l := call_factory f (<["output_dim" := d]> largs) in
         ret (learners ++ [l])) in
     ret {| args := args; learner := f; learners := learners;
            epochs := e; output_dim := d; log_interval := li;
            n_estimators := n; shrinkage_rate := sr;
            device := if truthy cu then Cuda else Cpu;
            training := true |})%py w.
Proof.
  intros (He & Hd & Hli & Hn & Hsr & Hcu). unfold __init__, getitem.
  rewrite He, Hd, Hli, Hn, Hsr, Hcu. cbn [of_option].
  now rewrite !bind_ret.
Qed.

Lemma construct_ok_inv (args : gmap string (value T)) (f : factory)
    (largs : gmap string (value T)) (e d li sr cu : value T) (n : Z)
    (w : World) (st : State) (w' : World) :
  configured args e d li (VInt n) sr cu ->
  construct args f largs w = (OK st, w') ->
  world st = w' /\
  n_estimators (self st) = VInt n /\ output_dim (self st) = d /\
  length (learners (self st)) = Z.to_nat n /\
  built_by f (<["output_dim" := d]> largs) w (learners (self st)) w'.
Proof.
  intros Hcfg Hc. unfold construct in Hc.
  rewrite (init_configured _ _ _ _ _ _ _ _ _ _ Hcfg) in Hc.
  unfold range in Hc. cbn [as_int] in Hc. rewrite bind_ret in Hc.
  unfold bind at 1 in Hc.
  destruct (for_fold _ _ _ w) as [[[ls|x] w1] c1] eqn:Hloop;
    [|discriminate].
  cbn in Hc. injection Hc as <- <-. cbn.
  destruct (build_loop_inv _ _ _ _ _ _ _ _ Hloop) as (new & -> & Hlen & Hb).
  rewrite length_seq in Hlen. repeat split; assumption.
Qed.

Lemma construct_total (args : gmap string (value T)) (f : factory)
    (largs : gmap string (value T)) (e d li sr cu : value T) (n : Z)
    (w : World) :
  configured args e d li (VInt n) sr cu ->
  factory_total f (<["output_dim" := d]> largs) ->
  exists st w', construct args f largs w = (OK st, w').
Proof.
  intros Hcfg Hf. unfold construct.
  rewrite (init_configured _ _ _ _ _ _ _ _ _ _ Hcfg).
  unfold range. cbn [as_int]. rewrite bind_ret.
  destruct (build_loop_total f _ (seq 0 (Z.to_nat n)) Hf [] w)
    as (ls & w' & Hrun).
  rewrite (bind_OK_nil _ _ _ _ _ Hrun). cbn [ret].
  eexists _, _. reflexivity.
Qed.

Lemma construct_empty (args : gmap string (value T)) (f : factory)
    (largs : gmap string (value T)) (e d li sr cu : value T) (n : Z)
    (w : World) :
  configured args e d li (VInt n) sr cu -> (n <= 0)%Z ->
  exists st, construct args f largs w = (OK st, w) /\
             learners (self st) = [] /\ world st = w /\
             output_dim (self st) = d /\
             shrinkage_rate (self st) = sr.
Proof.
  intros Hcfg Hn. unfold construct.
  rewrite (init_configured _ _ _ _ _ _ _ _ _ _ Hcfg).
  unfold range. cbn [as_int]. rewrite bind_ret.
  replace (Z.to_nat n) with 0%nat by lia. cbn [seq for_fold].
  rewrite bind_ret. cbn [ret].
  eexists. repeat split.
Qed.
End Construction.

(** ** One training step *)

Section TrainStep.
Context {T : Type} `{Scalar T} `{Runtime T}.
Variable dloss : State -> input -> list Z -> nat -> loc -> gval.
Local Open Scope py_scope.

Lemma deposit_fold (d : loc -> gval) (L : list loc) :
  NoDup L ->
  forall (g : loc -> option gval) (p : loc),
    fold_left
      (fun g p =>
         <[p := Some match g p with
                     | None => d p
                     | Some old => gacc old (d p)
                     end]> g) L g p
    = if bool_decide (p ∈ L) then deposited (g p) (d p) else g p.
Proof.
  induction 1 as [|q L Hq HL IH]; intros g p; cbn [fold_left].
  - rewrite bool_decide_eq_false_2; [reflexivity|]. apply not_elem_of_nil.
  - rewrite IH. destruct (decide (p = q)) as [->|Hne].
    + rewrite (bool_decide_eq_false_2 (q ∈ L)) by exact Hq.
      rewrite (bool_decide_eq_true_2 (q ∈ q :: L)) by apply list_elem_of_here.
      apply fn_lookup_insert.
    + rewrite fn_lookup_insert_ne by congruence.
      erewrite bool_decide_ext; [reflexivity|].
      rewrite elem_of_cons. tauto.
Qed.

Lemma zero_fold_outside (L : list loc) :
  forall (g : loc -> option gval) (p : loc),
    p ∉ L ->
    fold_left (fun g p => <[p := gzero <$> g p]> g) L g p = g p.
Proof.
  induction L as [|q L IH]; intros g p Hp; [reflexivity|].
  apply not_elem_of_cons in Hp as [Hpq Hp].
  cbn [fold_left]. rewrite IH by exact Hp.
  apply fn_lookup_insert_ne. congruence.
Qed.

Lemma criterion_same_shape (s : State) (output target : tracked)
    (b d : nat) :
  has_shape (tval output) b d -> has_shape (tval target) b d ->
  exists loss,
    criterion output target s = (OK loss, s, []) /\
    loss_leaves loss = leaves output ++ leaves target.
Proof.
  intros Ho Ht.
  destruct (tsub_same_shape _ _ b d Ho Ht) as (v & Hv & _ & _).
  unfold criterion. rewrite Hv. eexists. split; reflexivity.
Qed.

Lemma backward_run (s : State) (loss : loss_t) (X : input) (y : list Z)
    (k : nat) :
  loss_leaves loss <> [] ->
  backward dloss loss X y k s
  = (OK tt,
     set_grads
       (fold_left
          (fun g p =>
             <[p := Some match g p with
                         | None => dloss s X y k p
                         | Some old => gacc old (dloss s X y k p)
                         end]> g)
          (remove_dups (loss_leaves loss)) (grads (world s))) s,
     []).
Proof.
  intros Hne. unfold backward.
  destruct (loss_leaves loss); [congruence|reflexivity].
Qed.

(** A training step on a well-shaped batch with gradient tracking on
    runs to its end; its learner invocations are those of the earlier
    learners, then that of the learner being trained; the gradients of
    all of them are accumulated. *)
Lemma train_step_run (s : State) (k : nat) (l : Learner) (epoch : nat)
    (opt : optimizer) (batch_idx : nat) (X : input) (y : list Z)
    (d li : Z) :
  (k <= length (learners (self s)))%nat ->
  output_dim (self s) = VInt d -> (0 <= d)%Z ->
  Forall (fun yi => (0 <= yi < d)%Z) y ->
  Forall (fun l' => has_shape (lout s X l') (length y) (Z.to_nat d))
         (take k (learners (self s))) ->
  has_shape (lout s X l) (length y) (Z.to_nat d) ->
  grad_enabled (world s) = true ->
  lparams l <> [] ->
  log_interval (self s) = VInt li -> li <> 0%Z ->
  exists opt' s',
    train_step dloss k l epoch opt batch_idx X y s
    = (OK opt', s',
       map (lcall s) (take k (learners (self s))) ++ [lcall s l]) /\
    grads (world s')
    = grads (world
        (after_backward dloss s opt
           (lparams l ++ concat (map lparams (take k (learners (self s)))))
           X y k)) /\
    params (world s')
    = params (world (post (step opt)
        (after_backward dloss s opt
           (lparams l ++ concat (map lparams (take k (learners (self s)))))
           X y k))).
Proof.
  intros Hk Hd Hd0 Hy Hls Hl Hg Hne Hli Hli0.
  destruct (pseudo_residual_spec s X y (Z.of_nat k) d Hd Hd0 Hy)
    as (r & Hr & (Hrr & Hrc & _) & Hrl);
    [lia|rewrite Nat2Z.id; exact Hk|rewrite Nat2Z.id; exact Hls|].
  rewrite Nat2Z.id in Hr, Hrl.
  cbn [spec_residual nrows ncols] in Hrr, Hrc.
  set (out := Tracked (lout s X l) (lleaves s l)).
  destruct (criterion_same_shape s out r (length y) (Z.to_nat d))
    as (loss & Hloss & Hleaves); [exact Hl|split; assumption|].
  assert (Hlv : loss_leaves loss
                = lparams l ++
                  concat (map lparams (take k (learners (self s))))).
  { rewrite Hleaves, Hrl. unfold out, lleaves. cbn [leaves].
    rewrite Hg. reflexivity. }
  assert (Hnz : loss_leaves loss <> []).
  { rewrite Hlv. destruct (lparams l); [congruence|discriminate]. }
  set (sz := post (zero_grad opt) s).
  pose proof (backward_run sz loss X y k Hnz) as Hback.
  rewrite Hlv in Hback.
  set (sb := after_backward dloss s opt
               (lparams l ++ concat (map lparams (take k (learners (self s)))))
               X y k) in *.
  destruct (step opt sb) as [[ro sp] co] eqn:Hstep.
  assert (Hstep' : exists opt', ro = OK opt' /\ co = [] /\
                     sp = post (step opt) sb).
  { unfold post. rewrite Hstep. unfold step in Hstep.
    destruct (fold_left _ _ _) as [ps o] in Hstep.
    injection Hstep as <- <- <-. eexists. repeat split. }
  destruct Hstep' as (opt' & -> & -> & Hsp).
  assert (Hlog : exists s',
    (let* s0 := get in
     let* li := of_option TypeError (as_int (log_interval (self s0))) in
     (if (li =? 0)%Z then raise ZeroDivisionError else ret tt) ;;
     (if (Z.of_nat batch_idx mod li =? 0)%Z then
        print (FitStatus (Z.of_nat k + 1) (Z.of_nat epoch + 1)
                 (Z.of_nat batch_idx + 1) (loss_value loss))
      else ret tt) ;;
     ret opt') sp = (OK opt', s', []) /\
    grads (world s') = grads (world sp) /\
    params (world s') = params (world sp)).
  { rewrite bind_get.
    assert (Hlsp : log_interval (self sp) = VInt li).
    { rewrite Hsp. unfold post, step.
      destruct (fold_left _ _ _) as [ps o]. exact Hli. }
    rewrite Hlsp. cbn [as_int of_option]. rewrite bind_ret.
    destruct (Z.eqb_spec li 0) as [?|_]; [contradiction|].
    rewrite bind_ret.
    destruct (Z.of_nat batch_idx mod li =? 0)%Z.
    - eexists. split; [reflexivity|split; reflexivity].
    - eexists. split; [reflexivity|split; reflexivity]. }
  destruct Hlog as (s' & Hs' & Hgs' & Hps').
  exists opt', s'. split; [|split].
  - unfold train_step.
    eapply bind_OK; [exact Hr| |reflexivity].
    eapply bind_OK; [reflexivity| |reflexivity].
    fold (lout s X l). fold (lleaves s l). fold out.
    rewrite (bind_OK_nil _ _ _ _ _ Hloss).
    assert (Hz : zero_grad opt s = (OK tt, sz, [])) by reflexivity.
    rewrite (bind_OK_nil _ _ _ _ _ Hz).
    rewrite (bind_OK_nil _ _ _ _ _ Hback).
    change (set_grads _ sz) with sb.
    rewrite (bind_OK_nil _ _ _ _ _ Hstep).
    exact Hs'.
  - rewrite Hgs', Hsp. unfold post, step.
    destruct (fold_left _ _ _) as [ps o]. reflexivity.
  - rewrite Hps', Hsp. reflexivity.
Qed.
Lemma lleaves_untracked (s : State) (ls : list Learner) :
  grad_enabled (world s) = false -> concat (map (lleaves s) ls) = [].
Proof.
  intros Hg. induction ls as [|l ls IH]; [reflexivity|].
  cbn [map concat]. rewrite IH. unfold lleaves. now rewrite Hg.
Qed.

(** With gradient tracking off nothing reaches a parameter, and the step
    stops at [loss.backward()]. *)
Lemma train_step_untracked (s : State) (k : nat) (l : Learner)
    (epoch : nat) (opt : optimizer) (batch_idx : nat) (X : input)
    (y : list Z) (d : Z) :
  (k <= length (learners (self s)))%nat ->
  output_dim (self s) = VInt d -> (0 <= d)%Z ->
  Forall (fun yi => (0 <= yi < d)%Z) y ->
  Forall (fun l' => has_shape (lout s X l') (length y) (Z.to_nat d))
         (take k (learners (self s))) ->
  has_shape (lout s X l) (length y) (Z.to_nat d) ->
  grad_enabled (world s) = false ->
  train_step dloss k l epoch opt batch_idx X y s
  = (Raise RuntimeError, post (zero_grad opt) s,
     map (lcall s) (take k (learners (self s))) ++ [lcall s l]).
Proof.
  intros Hk Hd Hd0 Hy Hls Hl Hg.
  destruct (pseudo_residual_spec s X y (Z.of_nat k) d Hd Hd0 Hy)
    as (r & Hr & (Hrr & Hrc & _) & Hrl);
    [lia|rewrite Nat2Z.id; exact Hk|rewrite Nat2Z.id; exact Hls|].
  rewrite Nat2Z.id in Hr, Hrl.
  rewrite (lleaves_untracked s _ Hg) in Hrl.
  cbn [spec_residual nrows ncols] in Hrr, Hrc.
  set (out := Tracked (lout s X l) (lleaves s l)).
  destruct (criterion_same_shape s out r (length y) (Z.to_nat d))
    as (loss & Hloss & Hleaves); [exact Hl|split; assumption|].
  assert (Hlv : loss_leaves loss = []).
  { rewrite Hleaves, Hrl. unfold out, lleaves. cbn [leaves].
    rewrite Hg. reflexivity. }
  unfold train_step.
  eapply bind_OK; [exact Hr| |reflexivity].
  eapply bind_OK; [reflexivity| |reflexivity].
  fold (lout s X l). fold (lleaves s l). fold out.
  rewrite (bind_OK_nil _ _ _ _ _ Hloss).
  assert (Hz : zero_grad opt s = (OK tt, post (zero_grad opt) s, []))
    by reflexivity.
  rewrite (bind_OK_nil _ _ _ _ _ Hz).
  unfold backward. rewrite Hlv. reflexivity.
Qed.
End TrainStep.

Section GradientFlow.
Context {T : Type} `{Scalar T} `{Runtime T}.
Variable dloss : State -> input -> list Z -> nat -> loc -> gval.

Lemma earlier_param_in_leaves (ls : list Learner) (k j : nat)
    (l' : Learner) (p : loc) :
  (j < k)%nat -> ls !! j = Some l' -> p ∈ lparams l' ->
  p ∈ concat (map lparams (take k ls)).
Proof.
  intros Hj Hl Hp. apply list_elem_of_In, in_concat.
  exists (lparams l'). split; [|apply list_elem_of_In, Hp].
  apply in_map, list_elem_of_In.
  apply (list_elem_of_lookup_2 _ j). rewrite lookup_take_lt by exact Hj.
  exact Hl.
Qed.

Lemma lcall_in_calls (s : State) (ls : list Learner) (c : Call) :
  c ∈ map (lcall s) ls -> call_grad c = grad_enabled (world s).
Proof.
  intros Hc. apply list_elem_of_In, in_map_iff in Hc as (l & <- & _).
  reflexivity.
Qed.

(** C4, as the code has it.  In a training step of learner [k > 0] on
    a well-shaped batch the forward passes of the learners [0..k-1]
    inside the pseudo-residual computation run in the gradient mode the
    step is entered in: neither [fit] nor [_pseudo_residual] changes it.
    With gradient tracking on, they are tracked, and backpropagation
    accumulates a gradient into every parameter of every learner with
    index below [k]; what the step leaves alone is the value of those
    parameters.  With gradient tracking off the step raises at
    [loss.backward()] and updates nothing. *)
Theorem train_step_reaches_earlier_learners (s : State) (k : nat)
    (l : Learner) (epoch : nat) (opt : optimizer) (batch_idx : nat)
    (X : input) (y : list Z) (d li : Z) :
  (0 < k)%nat -> learners (self s) !! k = Some l ->
  opt_params opt = lparams l -> lparams l <> [] ->
  output_dim (self s) = VInt d -> (0 <= d)%Z ->
  Forall (fun yi => (0 <= yi < d)%Z) y ->
  Forall (fun l' => has_shape (lout s X l') (length y) (Z.to_nat d))
         (take (S k) (learners (self s))) ->
  log_interval (self s) = VInt li -> li <> 0%Z ->
  trace (_pseudo_residual X y (Z.of_nat k)) s
  = map (lcall s) (take k (learners (self s))) /\
  (forall c, c ∈ trace (_pseudo_residual X y (Z.of_nat k)) s ->
             call_grad c = grad_enabled (world s)) /\
  (grad_enabled (world s) = true ->
   exists opt' s' calls,
     train_step dloss k l epoch opt batch_idx X y s = (OK opt', s', calls) /\
     forall j l' p,
       (j < k)%nat -> learners (self s) !! j = Some l' ->
       p ∈ lparams l' ->
       is_Some (grads (world s') p) /\
       (p ∉ lparams l ->
        grads (world s') p
        = deposited (grads (world s) p)
            (dloss (post (zero_grad opt) s) X y k p) /\
        params (world s') p = params (world s) p)) /\
  (grad_enabled (world s) = false ->
   exists s' calls,
     train_step dloss k l epoch opt batch_idx X y s
     = (Raise RuntimeError, s', calls) /\
     params (world s') = params (world s)).
Proof.
  intros Hk Hl Hopt Hne Hd Hd0 Hy Hls Hli Hli0.
  assert (Hlen : (k < length (learners (self s)))%nat)
    by (eapply lookup_lt_Some; exact Hl).
  rewrite (take_S_r _ _ _ Hl) in Hls.
  apply Forall_app in Hls as [Hls Hl0].
  inversion Hl0 as [|? ? Hshape _]; subst.
  destruct (pseudo_residual_spec s X y (Z.of_nat k) d Hd Hd0 Hy)
    as (r & Hr & _);
    [lia|rewrite Nat2Z.id; lia|rewrite Nat2Z.id; exact Hls|].
  rewrite Nat2Z.id in Hr.
  assert (Htr : trace (_pseudo_residual X y (Z.of_nat k)) s
                = map (lcall s) (take k (learners (self s)))).
  { unfold trace. rewrite Hr. reflexivity. }
  split; [exact Htr|]. split; [|split].
  - intros c Hc. rewrite Htr in Hc. exact (lcall_in_calls s _ c Hc).
  - intros Hg.
    destruct (train_step_run dloss s k l epoch opt batch_idx X y d li)
      as (opt' & s' & Hrun & Hgr & Hpa); try assumption; [lia|].
    eexists opt', s', _. split; [exact Hrun|].
    intros j l' p Hj Hl' Hp.
    pose proof (earlier_param_in_leaves _ k j l' p Hj Hl' Hp) as Hin.
    assert (Hdep : grads (world s') p
                   = deposited (grads (world (post (zero_grad opt) s)) p)
                       (dloss (post (zero_grad opt) s) X y k p)).
    { rewrite Hgr. unfold after_backward. cbn [set_grads world grads].
      rewrite deposit_fold by apply NoDup_remove_dups.
      rewrite bool_decide_eq_true_2; [reflexivity|].
      apply elem_of_remove_dups, elem_of_app. right. exact Hin. }
    split; [rewrite Hdep; eexists; reflexivity|].
    intros Hpl. split.
    + rewrite Hdep. f_equal. unfold post, zero_grad, modify.
      cbn [fst snd set_grads world grads].
      apply zero_fold_outside. rewrite Hopt. exact Hpl.
    + rewrite Hpa. unfold post, step.
      pose proof (step_fold_outside
        (grads (world (after_backward dloss s opt
           (lparams l ++ concat (map lparams (take k (learners (self s)))))
           X y k)))
        (opt_params opt)
        (params (world (after_backward dloss s opt
           (lparams l ++ concat (map lparams (take k (learners (self s)))))
           X y k)), opt_state opt) p) as Hout.
      destruct (fold_left _ _ _) as [ps o].
      cbn [fst snd set_params world params] in *.
      rewrite Hout; [reflexivity|]. rewrite Hopt. exact Hpl.
  - intros Hg. eexists _, _. split.
    + apply (train_step_untracked dloss s k l epoch opt batch_idx X y d);
        try assumption. lia.
    + reflexivity.
Qed.
End GradientFlow.

(** ** Evaluation *)

Section Evaluation.
Context {T : Type} `{Scalar T} `{Runtime T}.
Local Open Scope py_scope.

Lemma mapM_ext_in {A B} (f g : A -> option B) (l : list A) :
  (forall x, In x l -> f x = g x) -> mapM f l = mapM g l.
Proof.
  induction l as [|a l IH]; intros Hfg; [reflexivity|].
  cbn. rewrite (Hfg a) by (left; reflexivity).
  rewrite IH; [reflexivity|]. intros x Hx. apply Hfg. right. exact Hx.
Qed.

Lemma argmax_ext (a b : tensor T) :
  tensor_eq a b -> argmax a = argmax b.
Proof.
  intros Hab. pose proof Hab as (Hr & _). unfold argmax. rewrite <- Hr.
  apply mapM_ext_in. intros i Hi. apply in_seq in Hi.
  rewrite (row_ext a b i Hab) by lia. reflexivity.
Qed.

Lemma argmax_Some (a : tensor T) :
  (0 < ncols a)%nat ->
  exists p, argmax a = Some p /\ length p = nrows a.
Proof.
  intros Hc.
  destruct (mapM_is_Some_2 (fun i => argmax_row (row a i))
              (seq 0 (nrows a))) as [p Hp].
  - apply Forall_forall. intros i _. unfold row. cbn.
    destruct (ncols a) as [|n]; [lia|]. cbn. eexists. reflexivity.
  - exists p. split; [exact Hp|].
    apply length_mapM in Hp. rewrite length_seq in Hp. now symmetry.
Qed.

Lemma count_eq_same_length (p : list nat) (y : list Z) :
  length p = length y -> count_eq p y = Some (matches p y).
Proof.
  intros Hlen. unfold count_eq, bshape, broadcast1. rewrite Hlen.
  rewrite (bool_decide_eq_true_2 (length y = length y)) by reflexivity.
  cbn.
  rewrite (bool_decide_eq_true_2 (length y = length y)) by reflexivity.
  reflexivity.
Qed.

(** One pass of the loop body of [evaluate]. *)
Lemma evaluate_batch (s : State) (d : Z) (X : input) (y : list Z)
    (correct : Z) :
  output_dim (self s) = VInt d -> (0 < d)%Z ->
  batch_ok s (Z.to_nat d) (X, y) ->
  (let* output := predict X in
   let* y_pred := of_option RuntimeError (argmax (tval output)) in
   let* c := of_option RuntimeError (count_eq y_pred y) in
   ret (correct + c)%Z) s
  = (OK (correct + matches (spec_argmax s X (Z.to_nat d)) y)%Z, s,
     map (lcall s) (learners (self s))).
Proof.
  intros Hd Hd0 [Hlen Hls]. cbn [fst snd] in Hlen, Hls.
  destruct (forward_spec s X d Hd) as (t & Hrun & Heq & _);
    [lia|exact Hls|].
  destruct (argmax_Some (tval t)) as (p & Hp & Hpl).
  { destruct Heq as (_ & Hc & _). rewrite Hc. cbn. lia. }
  assert (Hsp : spec_argmax s X (Z.to_nat d) = p).
  { unfold spec_argmax. rewrite <- (argmax_ext _ _ Heq), Hp. reflexivity. }
  assert (Hcount : count_eq p y = Some (matches p y)).
  { apply count_eq_same_length. rewrite Hpl, Hlen.
    destruct Heq as (Hr & _). rewrite Hr. reflexivity. }
  eapply bind_OK; [exact Hrun| |symmetry; apply app_nil_r].
  rewrite Hp. cbn [of_option]. rewrite bind_ret.
  rewrite Hcount. cbn [of_option]. rewrite bind_ret, Hsp. reflexivity.
Qed.

Lemma evaluate_loop (s : State) (d : Z) :
  output_dim (self s) = VInt d -> (0 < d)%Z ->
  forall (bs : list (input * list Z)) (a : nat) (correct : Z),
    Forall (batch_ok s (Z.to_nat d)) bs ->
    for_fold (combine (seq a (length bs)) bs) correct
      (fun correct '(batch_idx, (X_test, y_test)) =>
         let* output := predict X_test in
         let* y_pred := of_option RuntimeError (argmax (tval output)) in
         let* c := of_option RuntimeError (count_eq y_pred y_test) in
         ret (correct + c)%Z) s
    = (OK (correct + spec_correct s (Z.to_nat d) bs)%Z, s,
       concat (map (fun _ => map (lcall s) (learners (self s))) bs)).
Proof.
  intros Hd Hd0. induction bs as [|[X y] bs IH]; intros a correct Hbs.
  - cbn. now rewrite Z.add_0_r.
  - inversion Hbs as [|? ? Hb Hbs']; subst.
    cbn [length seq combine for_fold].
    eapply bind_OK;
      [apply (evaluate_batch s d X y correct Hd Hd0 Hb)| |].
    + rewrite (IH (S a) _ Hbs'). unfold spec_correct.
      cbn [map foldr]. rewrite Z.add_assoc. reflexivity.
    + reflexivity.
Qed.
End Evaluation.

Section EvaluationClaim.
Context {T : Type} `{Scalar T} `{Runtime T}.
Local Open Scope py_scope.

Lemma evaluate_body (s : State) (loader : Loader) (d : Z) :
  output_dim (self s) = VInt d -> (0 < d)%Z ->
  Forall (batch_ok (eval_state s) (Z.to_nat d)) (batches loader) ->
  for_fold (enumerate (batches loader)) 0%Z
    (fun correct '(batch_idx, (X_test, y_test)) =>
       let* output := predict X_test in
       let* y_pred := of_option RuntimeError (argmax (tval output)) in
       let* c := of_option RuntimeError (count_eq y_pred y_test) in
       ret (correct + c)%Z) (eval_state s)
  = (OK (spec_correct (eval_state s) (Z.to_nat d) (batches loader)),
     eval_state s,
     concat (map (fun _ => map (lcall (eval_state s)) (learners (self s)))
                 (batches loader))).
Proof.
  intros Hd Hd0 Hbs. unfold enumerate.
  rewrite (evaluate_loop (eval_state s) d Hd Hd0 (batches loader) 0 0%Z Hbs).
  rewrite Z.add_0_l. reflexivity.
Qed.

(** C9, as the code has it.  On well-shaped test batches [evaluate]
    puts the ensemble in inference mode, runs every forward pass with
    inference mode on and gradient tracking off, counts the rows whose
    arg-max of the prediction equals the label and, when the dataset is
    not empty, prints [100 * correct / len(dataset)], returns [None]
    and restores the gradient mode; on an empty dataset the division
    raises ZeroDivisionError and nothing is printed. *)
Theorem evaluate_correct (s : State) (loader : Loader) (d : Z) :
  output_dim (self s) = VInt d -> (0 < d)%Z ->
  Forall (batch_ok (eval_state s) (Z.to_nat d)) (batches loader) ->
  let calls :=
    concat (map (fun _ => map (lcall (eval_state s)) (learners (self s)))
                (batches loader)) in
  (forall c, c ∈ calls -> call_training c = false /\ call_grad c = false) /\
  ((0 < dataset_len loader)%nat ->
   evaluate loader s
   = (OK tt,
      set_grad_enabled (grad_enabled (world s))
        (post (print (TestingAccuracy
                        (spec_accuracy s (Z.to_nat d) loader)))
              (eval_state s)),
      calls)) /\
  (dataset_len loader = 0%nat ->
   evaluate loader s
   = (Raise ZeroDivisionError,
      set_grad_enabled (grad_enabled (world s)) (eval_state s),
      calls)).
Proof.
  intros Hd Hd0 Hbs calls.
  pose proof (evaluate_body s loader d Hd Hd0 Hbs) as Hloop.
  fold calls in Hloop. split; [|split].
  - intros c Hc. apply list_elem_of_In, in_concat in Hc as (cs & Hcs & Hc).
    apply in_map_iff in Hcs as (b & <- & _).
    apply in_map_iff in Hc as (l & <- & _). split; reflexivity.
  - intros Hlen. unfold evaluate. rewrite bind_modify.
    unfold no_grad, finally. fold (eval_state s).
    erewrite bind_OK; [reflexivity|exact Hloop| |symmetry; apply app_nil_r].
    rewrite bool_decide_eq_false_2 by lia. reflexivity.
  - intros Hlen. unfold evaluate. rewrite bind_modify.
    unfold no_grad, finally. fold (eval_state s).
    erewrite bind_OK; [reflexivity|exact Hloop| |symmetry; apply app_nil_r].
    rewrite bool_decide_eq_true_2 by exact Hlen. reflexivity.
Qed.
End EvaluationClaim.

(** ** Construction: what is and is not checked *)

Section ConstructionClaims.
Context {T : Type} `{Scalar T} `{Runtime T}.
Variable dloss : State -> input -> list Z -> nat -> loc -> gval.

(** C7, as the code has it.  Construction raises KeyError when
    [output_dim] is missing from [args]; it validates neither
    [n_estimators] nor [output_dim]: with [n_estimators <= 0] it
    returns an ensemble with no learners, and whatever value
    [output_dim] has is stored and handed to the factory, so that
    construction succeeds whenever the factory does. *)
Theorem construct_validation (args : gmap string (value T)) (f : factory)
    (largs : gmap string (value T)) (e d li sr cu : value T) (n : Z)
    (w : World) :
  configured args e d li (VInt n) sr cu ->
  construct (delete "output_dim" args) f largs w
  = (Raise (KeyError "output_dim"), w) /\
  ((n <= 0)%Z ->
   exists st, construct args f largs w = (OK st, w) /\
              learners (self st) = [] /\ output_dim (self st) = d) /\
  (factory_total f (<["output_dim" := d]> largs) ->
   exists st w', construct args f largs w = (OK st, w') /\
                 output_dim (self st) = d).
Proof.
  intros Hcfg. split; [|split].
  - destruct Hcfg as (He & _). unfold construct, __init__, getitem.
    rewrite lookup_delete_ne by discriminate. rewrite He.
    rewrite lookup_delete_eq. reflexivity.
  - intros Hn.
    destruct (construct_empty args f largs e d li sr cu n w Hcfg Hn)
      as (st & Hc & Hl & _ & Hd & _).
    exists st. repeat split; assumption.
  - intros Hf.
    destruct (construct_total args f largs e d li sr cu n w Hcfg Hf)
      as (st & w' & Hc).
    exists st, w'. split; [exact Hc|].
    apply (construct_ok_inv args f largs e d li sr cu n w st w' Hcfg Hc).
Qed.

(** C8.  Construction calls the factory [n_estimators] times, each time
    on the learner configuration with [output_dim] written into it;
    the learner sequence of the ensemble it returns is the results in
    call order, of length [n_estimators]; and [forward],
    [_pseudo_residual], [fit] and [evaluate] leave the sequence as it
    is, whether they return or raise. *)
Theorem construct_builds_learners (args : gmap string (value T))
    (f : factory) (largs : gmap string (value T))
    (e d li sr cu : value T) (n : Z) (w : World) :
  configured args e d li (VInt n) sr cu -> (0 <= n)%Z ->
  (forall st w',
      construct args f largs w = (OK st, w') ->
      Z.of_nat (length (learners (self st))) = n /\
      n_estimators (self st) = VInt n /\
      built_by f (<["output_dim" := d]> largs) w (learners (self st)) w') /\
  (factory_total f (<["output_dim" := d]> largs) ->
   exists st w', construct args f largs w = (OK st, w')) /\
  (forall s : State,
      (forall X, same_learners s (post (forward X) s)) /\
      (forall X y k, same_learners s (post (_pseudo_residual X y k) s)) /\
      (forall loader, same_learners s (post (fit dloss loader) s)) /\
      (forall loader, same_learners s (post (evaluate loader) s))).
Proof.
  intros Hcfg Hn. split; [|split].
  - intros st w' Hc.
    destruct (construct_ok_inv args f largs e d li sr cu n w st w' Hcfg Hc)
      as (_ & Hne & _ & Hlen & Hb).
    split; [lia|split; assumption].
  - intros Hf. eapply construct_total; eassumption.
  - intros s. apply methods_keep_learners.
Qed.

(** C10.  No check stands in the way of [n_estimators = 0]:
    construction returns an ensemble with an empty learner sequence
    without calling the factory, and its [forward] returns the zero
    tensor of shape [(B, output_dim)]; for any [n_estimators >= 0]
    construction returns whenever the factory does. *)
Theorem construct_without_learners (args : gmap string (value T))
    (f : factory) (largs : gmap string (value T))
    (e li sr cu : value T) (d n : Z) (w : World) :
  configured args e (VInt d) li (VInt n) sr cu ->
  (0 <= d)%Z -> (0 <= n)%Z ->
  (factory_total f (<["output_dim" := VInt d]> largs) ->
   exists st w', construct args f largs w = (OK st, w') /\
                 Z.of_nat (length (learners (self st))) = n) /\
  (n = 0%Z ->
   exists st,
     construct args f largs w = (OK st, w) /\
     learners (self st) = [] /\
     forall X, exists t,
       forward X st = (OK t, st, []) /\
       has_shape (tval t) (batch_size X) (Z.to_nat d) /\
       forall i j, (i < batch_size X)%nat -> (j < Z.to_nat d)%nat ->
                   entry (tval t) i j = s0).
Proof.
  intros Hcfg Hd Hn. split.
  - intros Hf.
    destruct (construct_total args f largs _ _ _ _ _ n w Hcfg Hf)
      as (st & w' & Hc).
    exists st, w'. split; [exact Hc|].
    destruct (construct_ok_inv args f largs _ _ _ _ _ n w st w' Hcfg Hc)
      as (_ & _ & _ & Hlen & _). lia.
  - intros ->.
    destruct (construct_empty args f largs _ _ _ _ _ 0 w Hcfg)
      as (st & Hc & Hl & _ & Hod & _); [lia|].
    exists st. split; [exact Hc|split; [exact Hl|]].
    intros X.
    destruct (forward_spec st X d Hod Hd) as (t & Hrun & Heq & _).
    { rewrite Hl. constructor. }
    rewrite Hl in Hrun, Heq. exists t. split; [exact Hrun|].
    destruct Heq as (Hr & Hc' & He). split; [split; assumption|].
    intros i j Hi Hj. rewrite He; [reflexivity| |];
      cbn [spec_prediction nrows ncols] in Hr, Hc'; lia.
Qed.
End ConstructionClaims.



(** ** The theorems at work on the example ensemble *)

Section Witnesses.
Local Existing Instance example_runtime.
Local Open Scope R_scope.

Lemma example_shapes :
  Forall (fun l => has_shape (lout example_state example_X l) 2 2)
         (learners (self example_state)).
Proof. repeat constructor. Qed.

Lemma example_labels : Forall (fun yi => (0 <= yi < 2)%Z) example_y.
Proof. repeat constructor; lia. Qed.

(** The concrete ensemble is what construction returns. *)
Example example_state_constructed :
  construct (example_args 2 2) bias_factory ∅ example_world
  = (OK example_state, world example_state).
Proof. reflexivity. Qed.

Example onehot_coding_example :
  exists t,
    _onehot_coding example_y example_state = (OK t, example_state, []) /\
    entry t 0 0 = 1 /\ entry t 0 1 = 0 /\
    entry t 1 0 = 0 /\ entry t 1 1 = 1.
Proof. eexists. repeat split. Qed.

Example matches_example : matches [0; 1; 1]%nat [0; 0; 1]%Z = 2%Z.
Proof. reflexivity. Qed.

Example argmax_row_example : argmax_row [0; 1; 1 / 2; 1] = Some 1%nat.
Proof.
  cbn. unfold Rltb.
  destruct (Rlt_dec 0 1) as [_|Hn]; [|exfalso; apply Hn; lra].
  cbn. destruct (Rlt_dec 1 (1 / 2)) as [Hlt|_]; [exfalso; lra|].
  cbn. destruct (Rlt_dec 1 1) as [Hlt|_]; [exfalso; lra|].
  reflexivity.
Qed.

(** An out-of-range label stops [_onehot_coding]. *)
Example onehot_coding_out_of_range :
  _onehot_coding [0%Z; 2%Z] example_state
  = (Raise RuntimeError, example_state, []).
Proof. reflexivity. Qed.

Lemma onehot_coding_correct_witness :
  exists t,
    _onehot_coding example_y example_state = (OK t, example_state, []) /\
    has_shape t 2 2 /\ row_sum t 0 = 1 /\ row_sum t 1 = 1.
Proof.
  destruct (onehot_coding_correct example_state example_y 2)
    as (t & Ht & Hs & He).
  - simpl. lra.
  - simpl. lra.
  - simpl. lra.
  - reflexivity.
  - lia.
  - exact example_labels.
  - exists t. split; [exact Ht|split; [exact Hs|split]].
    + exact (proj2 (proj2 (He 0%nat 0%Z eq_refl))).
    + exact (proj2 (proj2 (He 1%nat 1%Z eq_refl))).
Defined.

Lemma forward_correct_witness :
  exists t,
    forward example_X example_state
    = (OK t, example_state,
       map (lcall example_state) (learners (self example_state))) /\
    has_shape (tval t) 2 2.
Proof.
  destruct (forward_correct example_state example_X 2)
    as (_ & t & Ht & Hs & _).
  - reflexivity.
  - lia.
  - exact example_shapes.
  - exists t. split; [exact Ht|exact Hs].
Defined.

Lemma pseudo_residual_correct_witness :
  exists r,
    _pseudo_residual example_X example_y 1 example_state
    = (OK r, example_state,
       [lcall example_state (bias_learner 0 2)]) /\
    has_shape (tval r) 2 2.
Proof.
  destruct (pseudo_residual_correct example_state example_X example_y 1 2)
    as (r & Hr & Hs & _).
  - reflexivity.
  - lia.
  - exact example_labels.
  - reflexivity.
  - simpl. lia.
  - repeat constructor.
  - exists r. split; [exact Hr|exact Hs].
Defined.


Lemma fit_learner_frame_witness :
  params (world (post (fit_learner example_dloss example_loader 1
                         (bias_learner 2 2)) example_state)) 0%nat
  = params (world example_state) 0%nat.
Proof.
  apply (proj2 (fit_learner_frame example_dloss example_loader 1
                  (bias_learner 2 2) example_state eq_refl)
           0%nat (bias_learner 0 2)).
  - discriminate.
  - reflexivity.
  - intros p Hp Hq. simpl in Hp, Hq.
    apply list_elem_of_In in Hp, Hq. simpl in Hp, Hq. lia.
  - simpl. apply list_elem_of_here.
Defined.

Lemma train_step_reaches_earlier_learners_witness :
  exists opt' s' calls,
    train_step example_dloss 1 (bias_learner 2 2) 0 example_optimizer 0
      example_X example_y example_state
    = (OK opt', s', calls) /\
    grads (world s') 0%nat
    = deposited (grads (world example_state) 0%nat) 1 /\
    params (world s') 0%nat = params (world example_state) 0%nat.
Proof.
  destruct (train_step_reaches_earlier_learners example_dloss
              example_state 1 (bias_learner 2 2) 0 example_optimizer 0
              example_X example_y 2 1)
    as (_ & _ & Hon & _).
  - lia.
  - reflexivity.
  - reflexivity.
  - discriminate.
  - reflexivity.
  - lia.
  - exact example_labels.
  - repeat constructor.
  - reflexivity.
  - discriminate.
  - destruct (Hon eq_refl) as (opt' & s' & calls & Hrun & Hdep).
    exists opt', s', calls. split; [exact Hrun|].
    destruct (Hdep 0%nat (bias_learner 0 2) 0%nat) as [_ Hout].
    + lia.
    + reflexivity.
    + simpl. apply list_elem_of_here.
    + apply Hout. intros Hq. simpl in Hq.
      apply list_elem_of_In in Hq. simpl in Hq. lia.
Defined.

Lemma evaluate_correct_witness :
  evaluate example_loader example_state
  = (OK tt,
     set_grad_enabled true
       (post (print (TestingAccuracy
                       (spec_accuracy example_state 2 example_loader)))
             (eval_state example_state)),
     map (lcall (eval_state example_state))
         (learners (self example_state))).
Proof.
  apply (proj1 (proj2 (evaluate_correct example_state example_loader 2
                         eq_refl ltac:(lia)
                         ltac:(repeat constructor)))).
  simpl. lia.
Defined.

Lemma construct_validation_witness :
  exists st,
    construct (example_args 0 (-1)) bias_factory ∅ example_world
    = (OK st, example_world) /\
    learners (self st) = [] /\ output_dim (self st) = VInt (-1).
Proof.
  apply (proj1 (proj2 (construct_validation (example_args 0 (-1))
                         bias_factory ∅ (VInt 1) (VInt (-1)) (VInt 1)
                         (VFloat (1 / 10)) (VBool false) 0 example_world
                         ltac:(repeat split)))).
  lia.
Defined.

Lemma construct_builds_learners_witness :
  exists st w',
    construct (example_args 2 2) bias_factory ∅ example_world
    = (OK st, w').
Proof.
  apply (proj1 (proj2 (construct_builds_learners example_dloss
                         (example_args 2 2) bias_factory ∅ (VInt 1)
                         (VInt 2) (VInt 1) (VFloat (1 / 10)) (VBool false)
                         2 example_world
                         ltac:(repeat split) ltac:(lia)))).
  intros w. eexists _, _. reflexivity.
Defined.

Lemma construct_without_learners_witness :
  exists st,
    construct (example_args 0 2) bias_factory ∅ example_world
    = (OK st, example_world) /\
    learners (self st) = [] /\
    forall X, exists t,
      forward X st = (OK t, st, []) /\
      has_shape (tval t) (batch_size X) 2 /\
      forall i j, (i < batch_size X)%nat -> (j < 2)%nat ->
                  entry (tval t) i j = 0.
Proof.
  apply (proj2 (construct_without_learners (example_args 0 2)
                  bias_factory ∅ (VInt 1) (VInt 1) (VFloat (1 / 10))
                  (VBool false) 2 0 example_world
                  ltac:(repeat split) ltac:(lia) ltac:(lia))).
  reflexivity.
Defined.
End Witnesses.

(** ** Where the code departs from the specification *)

Section Counterexamples.
Local Existing Instance example_runtime.
Local Open Scope R_scope.

(** Training the second learner of the example ensemble: the first
    learner's forward pass is tracked and its parameter 0 receives a
    gradient. *)
Lemma earlier_learner_receives_gradient :
  ~ earlier_learners_untracked example_dloss example_state 1
      (bias_learner 2 2) 0 example_optimizer 0 example_X example_y.
Proof.
  intros [Htr Hgr].
    specialize (Hgr 0%nat (bias_learner 0 2) 0%nat).
  assert (E : grads (world (post (train_step example_dloss 1
                                    (bias_learner 2 2) 0 example_optimizer
                                    0 example_X example_y)
                                 example_state)) 0%nat
              = Some 1) by reflexivity.
  rewrite E in Hgr.
  assert (Hc : Some 1 = grads (world example_state) 0%nat).
  { apply Hgr; [lia|reflexivity|]. simpl. apply list_elem_of_here. }
  discriminate Hc.
Qed.

(** [n_estimators = 0] and [output_dim = -1]: construction returns. *)
Lemma construct_accepts_invalid_configuration :
  ~ construction_fails (example_args 0 (-1)) bias_factory ∅ example_world.
Proof.
  intros (e & w' & Hc).
  assert (E : exists st,
             construct (example_args 0 (-1)) bias_factory ∅ example_world
             = (OK st, example_world)) by (eexists; reflexivity).
  destruct E as (st & E). rewrite E in Hc. discriminate Hc.
Qed.

(** A loader over an empty dataset: [evaluate] raises
    ZeroDivisionError and prints nothing. *)
Lemma evaluate_empty_dataset_raises :
  evaluate empty_loader example_state
  = (Raise ZeroDivisionError, set_training false example_state, []) /\
  ~ evaluate_prints_accuracy example_state empty_loader.
Proof.
  assert (E : evaluate empty_loader example_state
              = (Raise ZeroDivisionError, set_training false example_state,
                 [])) by reflexivity.
  split; [exact E|].
  intros (accuracy & s' & calls & Hrun & _). rewrite E in Hrun.
  discriminate Hrun.
Qed.
End Counterexamples.

(** ** Construction: errors *)

Section ConstructionErrors.
Context {T : Type} `{Scalar T} `{Runtime T}.
Local Open Scope py_scope.

(** X1.  [__init__] reads its six keys in a fixed order; the first one
    missing from [args] is the KeyError the caller sees, and it is
    raised before the factory is called: the world is as it was. *)
Theorem construct_missing_key (args : gmap string (value T)) (f : factory)
    (largs : gmap string (value T)) (w : World) (i : nat) (key : string) :
  init_keys !! i = Some key ->
  (forall j k, (j < i)%nat -> init_keys !! j = Some k ->
               is_Some (args !! k)) ->
  args !! key = None ->
  construct args f largs w = (Raise (KeyError key), w).
Proof.
  intros Hi Hbefore Hkey.
  unfold construct, __init__, getitem.
  destruct i as [|[|[|[|[|[|i]]]]]]; cbn in Hi; try discriminate Hi;
    injection Hi as <-;
    repeat match goal with
    | |- context [args !! ?k] =>
        lazymatch k with
        | key => fail
        | _ =>
            let v := fresh "v" in
            let Hv := fresh "Hv" in
            assert (is_Some (args !! k)) as [v Hv]
              by (first [apply (Hbefore 0%nat); [lia|reflexivity]
                        |apply (Hbefore 1%nat); [lia|reflexivity]
                        |apply (Hbefore 2%nat); [lia|reflexivity]
                        |apply (Hbefore 3%nat); [lia|reflexivity]
                        |apply (Hbefore 4%nat); [lia|reflexivity]]);
            rewrite Hv; cbn [of_option]; rewrite bind_ret
        end
    end;
    rewrite Hkey; reflexivity.
Qed.

Lemma build_loop_raises (f : factory) (cfg : gmap string (value T))
    (x : exn) (w2 : World) (ls : list Learner) (w w1 : World) :
  built_by f cfg w ls w1 ->
  f cfg w1 = (Raise x, w2) ->
  forall (r : list nat) (acc : list Learner),
    (length ls < length r)%nat ->
    for_fold r acc (fun learners _ =>
      let* l := call_factory f cfg in ret (learners ++ [l])) w
    = (Raise x, w2, []).
Proof.
  intros Hb Hx. induction Hb as [w|w l w1' ls w' Hl Hb IH];
    intros r acc Hlen; (destruct r as [|a r]; [cbn in Hlen; lia|]);
    cbn [for_fold].
  - unfold bind at 1. unfold bind at 1. unfold call_factory.
    rewrite Hx. reflexivity.
  - eapply bind_OK; [|apply (IH Hx r (acc ++ [l])); cbn in Hlen; lia|].
    + unfold bind, call_factory. rewrite Hl. reflexivity.
    + reflexivity.
Qed.

(** X2.  When the factory returns the first [m < n_estimators] learners
    and raises on the next call, construction raises that exception: no
    ensemble is returned, no further call is made, and what the calls did
    to the world stays. *)
Theorem construct_factory_raises (args : gmap string (value T))
    (f : factory) (largs : gmap string (value T))
    (e d li sr cu : value T) (n : Z) (w w1 w2 : World)
    (ls : list Learner) (x : exn) :
  configured args e d li (VInt n) sr cu ->
  built_by f (<["output_dim" := d]> largs) w ls w1 ->
  (Z.of_nat (length ls) < n)%Z ->
  f (<["output_dim" := d]> largs) w1 = (Raise x, w2) ->
  construct args f largs w = (Raise x, w2).
Proof.
  intros Hcfg Hb Hlen Hx. unfold construct.
  rewrite (init_configured _ _ _ _ _ _ _ _ _ _ Hcfg).
  unfold range. cbn [as_int]. rewrite bind_ret.
  unfold bind at 1.
  rewrite (build_loop_raises f _ x w2 ls w w1 Hb Hx); [reflexivity|].
  rewrite length_seq. lia.
Qed.
End ConstructionErrors.

(** ** The pseudo-residual at its edges *)

Section ResidualEdges.
Context {T : Type} `{Scalar T} `{Runtime T}.
Local Open Scope py_scope.

Lemma bind_assoc {S A B C} (m : M S A) (f : A -> M S B) (g : B -> M S C)
    (s : S) :
  bind (bind m f) g s = bind m (fun a => bind (f a) g) s.
Proof.
  unfold bind. destruct (m s) as [[[a|e] s1] c1]; [|reflexivity].
  destruct (f a s1) as [[[b|e] s2] c2]; [|reflexivity].
  destruct (g b s2) as [[r s3] c3]. now rewrite app_assoc.
Qed.

Lemma bind_ext {S A B} (m : M S A) (f g : A -> M S B) (s : S) :
  (forall a s', f a s' = g a s') -> bind m f s = bind m g s.
Proof.
  intros Hfg. unfold bind. destruct (m s) as [[[a|e] s1] c1]; [|reflexivity].
  now rewrite Hfg.
Qed.

Lemma for_fold_app {S A B} (l1 l2 : list A) (body : B -> A -> M S B) :
  forall (b : B) (s : S),
    for_fold (l1 ++ l2) b body s
    = bind (for_fold l1 b body) (fun b' => for_fold l2 b' body) s.
Proof.
  induction l1 as [|a l1 IH]; intros b s.
  - cbn [app for_fold]. now rewrite bind_ret.
  - cbn [app for_fold]. rewrite bind_assoc. apply bind_ext.
    intros b' s'. apply IH.
Qed.

Lemma scatter_bad (x : T) (ys : list Z) :
  forall (t : tensor T) (i : nat),
    Exists (fun yi => ~ (0 <= yi < Z.of_nat (ncols t))%Z) ys ->
    scatter_ t i ys x = None.
Proof.
  induction ys as [|yi ys IH]; intros t i Hbad.
  - inversion Hbad.
  - cbn [scatter_].
    destruct ((0 <=? yi)%Z && (yi <? Z.of_nat (ncols t))%Z) eqn:Hin;
      [|reflexivity].
    apply andb_true_iff in Hin as [Hlo Hhi].
    apply Z.leb_le in Hlo. apply Z.ltb_lt in Hhi.
    inversion Hbad as [? ? Hhead|? ? Htail]; subst; [lia|].
    apply IH. exact Htail.
Qed.

(** X3.  A label outside [[0, output_dim)] stops [_onehot_coding] with a
    RuntimeError; [_pseudo_residual] and the training step stop with it
    before any learner is invoked, any gradient zeroed or any parameter
    changed. *)
Theorem bad_label_stops (s : State) (y : list Z) (d : Z) :
  output_dim (self s) = VInt d -> (0 <= d)%Z ->
  Exists (fun yi => ~ (0 <= yi < d)%Z) y ->
  _onehot_coding y s = (Raise RuntimeError, s, []) /\
  (forall X k, _pseudo_residual X y k s = (Raise RuntimeError, s, [])) /\
  (forall dloss k l epoch opt batch_idx X,
      train_step dloss k l epoch opt batch_idx X y s
      = (Raise RuntimeError, s, [])).
Proof.
  intros Hd Hd0 Hbad.
  assert (Hoh : _onehot_coding y s = (Raise RuntimeError, s, [])).
  { unfold _onehot_coding. rewrite bind_get, Hd.
    rewrite (bind_OK_nil _ _ _ _ _ (as_size_VInt d s Hd0)).
    rewrite scatter_bad; [reflexivity|]. cbn [zero_ ncols].
    eapply Exists_impl; [|exact Hbad]. cbn. intros yi Hyi. lia. }
  assert (Hres : forall X k,
             _pseudo_residual X y k s = (Raise RuntimeError, s, [])).
  { intros X k. unfold _pseudo_residual. unfold bind at 1.
    rewrite Hoh. reflexivity. }
  split; [exact Hoh|split; [exact Hres|]].
  intros dloss k l epoch opt batch_idx X. unfold train_step.
  unfold bind at 1. rewrite Hres. reflexivity.
Qed.

(** X4.  A learner index out of range: a negative index is taken as 0
    (the loop over [range(learner_idx)] is empty), and an index beyond
    the number of learners raises IndexError once every learner the
    ensemble has was invoked, in order. *)
Theorem residual_index_out_of_range (s : State) (X : input) (y : list Z)
    (k d : Z) :
  ((k < 0)%Z -> _pseudo_residual X y k s = _pseudo_residual X y 0 s) /\
  (output_dim (self s) = VInt d -> (0 <= d)%Z ->
   Forall (fun yi => (0 <= yi < d)%Z) y ->
   Forall (fun l => has_shape (lout s X l) (length y) (Z.to_nat d))
          (learners (self s)) ->
   (Z.of_nat (length (learners (self s))) < k)%Z ->
   _pseudo_residual X y k s
   = (Raise IndexError, s, map (lcall s) (learners (self s)))).
Proof.
  split.
  - intros Hk. unfold _pseudo_residual. apply bind_ext. intros oh s'.
    destruct (Z.eqb_spec k 0) as [?|_]; [lia|].
    replace (Z.to_nat k) with 0%nat by lia. cbn [seq for_fold Z.eqb].
    now rewrite bind_ret.
  - intros Hd Hd0 Hy Hls Hk.
    destruct (onehot_coding_entries s y d Hd Hd0 Hy)
      as (oh & Hoh & [Hohr Hohc] & _).
    unfold _pseudo_residual.
    rewrite (bind_OK_nil _ _ _ _ _ Hoh). cbn [tval leaves].
    destruct (Z.eqb_spec k 0) as [?|_]; [lia|].
    set (n := length (learners (self s))) in *.
    replace (Z.to_nat k) with (n + S (Z.to_nat k - S n))%nat by lia.
    rewrite seq_app. cbn [Nat.add].
    destruct (residual_loop_spec s X (length y) (Z.to_nat d) n 0
                (Tracked (zeros_like oh) []))
      as (acc & Hrun & _).
    { unfold zeros_like. rewrite Hohr, Hohc. split; reflexivity. }
    { unfold n. lia. }
    { rewrite drop_0. unfold n. rewrite firstn_all. exact Hls. }
    rewrite drop_0 in Hrun. unfold n in Hrun at 2. rewrite firstn_all in Hrun.
    unfold bind at 1. rewrite for_fold_app.
    erewrite (bind_OK _ _ _ _ _ _ (Raise IndexError) s []);
      [reflexivity|exact Hrun| |now rewrite app_nil_r].
    cbn [seq for_fold]. unfold bind at 1. rewrite bind_get.
    rewrite (lookup_ge_None_2 (learners (self s)) n) by (unfold n; lia).
    reflexivity.
Qed.

End ResidualEdges.

(** ** What [evaluate] and [fit] leave alone *)

Section MethodFrames.
Context {T : Type} `{Scalar T} `{Runtime T}.
Variable dloss : State -> input -> list Z -> nat -> loc -> gval.
Local Open Scope py_scope.

Lemma sat_for_fold_in (R : State -> State -> Prop) {A B} (l : list A)
    (body : B -> A -> M State B) (I : B -> Prop) :
  (forall s, R s s) ->
  (forall s1 s2 s3, R s1 s2 -> R s2 s3 -> R s1 s3) ->
  (forall b a, a ∈ l -> I b -> sat R (body b a) I) ->
  forall b, I b -> sat R (for_fold l b body) I.
Proof.
  intros Hrefl Htrans. induction l as [|a l IH]; intros Hbody b Hb;
    cbn [for_fold].
  - apply sat_ret; assumption.
  - eapply sat_bind; [exact Htrans|apply Hbody; [apply list_elem_of_here|exact Hb]|].
    intros b' Hb'. apply IH; [|exact Hb'].
    intros b0 a0 Ha0. apply Hbody. now apply list_elem_of_further.
Qed.

Lemma reads_only_refl (s : State) : reads_only s s.
Proof. repeat split; reflexivity. Qed.

Lemma reads_only_trans (s1 s2 s3 : State) :
  reads_only s1 s2 -> reads_only s2 s3 -> reads_only s1 s3.
Proof.
  intros (Ha & Hb & Hc & Hd & He) (Ha' & Hb' & Hc' & Hd' & He').
  repeat split; try congruence. etransitivity; eassumption.
Qed.

Lemma reads_only_print (s : State) (ln : line) :
  reads_only s (post (print ln) s).
Proof. repeat split. cbn. now apply prefix_app_r. Qed.

Lemma sat_evaluate_pass (loader : Loader) :
  sat reads_only (evaluate_pass loader) (fun _ => True).
Proof.
  unfold evaluate_pass.
  eapply sat_bind; [exact reads_only_trans| |].
  - apply (sat_for_fold reads_only reads_only_refl reads_only_trans
             _ _ (fun _ => True)); [|exact I].
    intros correct [batch_idx [X y]] _.
    eapply sat_bind; [exact reads_only_trans| |].
    + apply sat_forward; [exact reads_only_refl|exact reads_only_trans].
    + intros output _.
      eapply sat_bind; [exact reads_only_trans| |].
      * apply (sat_of_option reads_only reads_only_refl _ _ (fun _ => True)).
        auto.
      * intros y_pred _.
        eapply sat_bind; [exact reads_only_trans| |].
        -- apply (sat_of_option reads_only reads_only_refl _ _
                    (fun _ => True)). auto.
        -- intros c _. apply sat_ret; [exact reads_only_refl|exact I].
  - intros correct _. destruct (bool_decide _).
    + apply sat_raise. exact reads_only_refl.
    + apply sat_print. exact reads_only_print.
Qed.

Lemma evaluate_post (loader : Loader) (s : State) :
  post (evaluate loader) s
  = set_grad_enabled (grad_enabled (world s))
      (post (evaluate_pass loader) (eval_state s)).
Proof.
  unfold evaluate. unfold post at 1. rewrite bind_modify.
  unfold no_grad, finally, post, evaluate_pass, eval_state.
  now destruct (bind _ _ _) as [[r s1] c1].
Qed.

(** X6.  However [evaluate] ends, by returning or by raising, it has
    changed no parameter and no gradient, the ensemble object differs
    only by being in inference mode, the gradient mode is the one it was
    entered with, and the console has only grown. *)
Theorem evaluate_frame (loader : Loader) (s : State) :
  self (post (evaluate loader) s) = self (set_training false s) /\
  training (self (post (evaluate loader) s)) = false /\
  params (world (post (evaluate loader) s)) = params (world s) /\
  grads (world (post (evaluate loader) s)) = grads (world s) /\
  grad_enabled (world (post (evaluate loader) s)) = grad_enabled (world s) /\
  stdout (world s) `prefix_of` stdout (world (post (evaluate loader) s)).
Proof.
  rewrite evaluate_post.
  destruct (sat_evaluate_pass loader (eval_state s))
    as [(Hself & Hp & Hg & _ & Hout) _].
  cbn [set_grad_enabled self world params grads grad_enabled stdout].
  repeat split; try assumption.
  rewrite Hself. reflexivity.
Qed.

Lemma trains_only_refl (K : loc -> Prop) (s : State) : trains_only K s s.
Proof. repeat split; reflexivity. Qed.

Lemma trains_only_trans (K : loc -> Prop) (s1 s2 s3 : State) :
  trains_only K s1 s2 -> trains_only K s2 s3 -> trains_only K s1 s3.
Proof.
  intros (Ha & Hb & Hc & Hd & He) (Ha' & Hb' & Hc' & Hd' & He').
  repeat split; try congruence; [etransitivity; eassumption|].
  intros p Hp. rewrite (He' p Hp). apply He, Hp.
Qed.

Lemma sat_fit_learner_trains (K : loc -> Prop) (loader : Loader)
    (k : nat) (l : Learner) :
  (forall p, p ∈ lparams l -> K p) ->
  sat (trains_only K) (fit_learner dloss loader k l) (fun _ => True).
Proof.
  intros HK. apply sat_fit_learner with (K := K);
    first [ exact (trains_only_refl K)
          | exact (trains_only_trans K)
          | exact HK
          | idtac ].
  - intros s g. repeat split; reflexivity.
  - intros s ln. repeat split. cbn. now apply prefix_app_r.
  - intros s ps Hps. repeat split; try reflexivity. exact Hps.
Qed.

(** X7.  However [fit] ends, the ensemble object differs only by being
    in training mode (configuration and learner sequence are the same),
    the gradient mode is unchanged, the console has only grown, and no
    parameter that belongs to none of the learners has a new value. *)
Theorem fit_frame (loader : Loader) (s : State) :
  self (post (fit dloss loader) s) = self (set_training true s) /\
  training (self (post (fit dloss loader) s)) = true /\
  grad_enabled (world (post (fit dloss loader) s))
  = grad_enabled (world s) /\
  stdout (world s) `prefix_of` stdout (world (post (fit dloss loader) s)) /\
  forall p, ~ learner_param s p ->
    params (world (post (fit dloss loader) s)) p = params (world s) p.
Proof.
  assert (Hloop : sat (trains_only (learner_param s))
                    (for_fold (enumerate (learners (self s))) tt
                       (fun _ '(learner_idx, learner) =>
                          fit_learner dloss loader learner_idx learner))
                    (fun _ => True)).
  { apply sat_for_fold_in;
      [exact (trains_only_refl _)|exact (trains_only_trans _)| |exact I].
    intros [] [k l] Hin _. apply sat_fit_learner_trains.
    intros p Hp. exists l. split; [|exact Hp].
    apply list_elem_of_In in Hin. apply in_combine_r in Hin.
    now apply list_elem_of_In. }
  assert (Hpost : post (fit dloss loader) s
                  = post (for_fold (enumerate (learners (self s))) tt
                            (fun _ '(learner_idx, learner) =>
                               fit_learner dloss loader learner_idx learner))
                      (set_training true s)).
  { unfold fit. unfold post at 1. rewrite bind_modify, bind_get.
    reflexivity. }
  rewrite Hpost.
  destruct (Hloop (set_training true s)) as [(Hself & Hg & _ & Hout & Hp) _].
  repeat split; try assumption.
  rewrite Hself. reflexivity.
Qed.
End MethodFrames.

(** ** Runs of [fit] *)

Section FitRuns.
Context {T : Type} `{Scalar T} `{Runtime T}.
Variable dloss : State -> input -> list Z -> nat -> loc -> gval.
Local Open Scope py_scope.

Lemma touches_only_refl (K : loc -> Prop) (s : State) : touches_only K s s.
Proof. repeat split. Qed.

Lemma touches_only_trans (K : loc -> Prop) (s1 s2 s3 : State) :
  touches_only K s1 s2 -> touches_only K s2 s3 -> touches_only K s1 s3.
Proof.
  intros (Ha & Hb & Hc) (Ha' & Hb' & Hc').
  split; [congruence|split; [congruence|]].
  intros p Hp. destruct (Hc p Hp) as [Hg Hq].
  destruct (Hc' p Hp) as [Hg' Hq']. split; congruence.
Qed.

(** A training step keeps the ensemble object and the gradient mode,
    and returns the optimizer with the parameters it had. *)
Lemma train_step_keeps (k : nat) (l : Learner) (epoch : nat)
    (opt : optimizer) (batch_idx : nat) (X : input) (y : list Z)
    (s : State) :
  self (post (train_step dloss k l epoch opt batch_idx X y) s) = self s /\
  grad_enabled (world (post (train_step dloss k l epoch opt batch_idx X y) s))
  = grad_enabled (world s) /\
  forall opt',
    result (train_step dloss k l epoch opt batch_idx X y) s = OK opt' ->
    opt_params opt' = opt_params opt.
Proof.
  assert (Hs : sat (fun s s' => self s' = self s /\
                      grad_enabled (world s') = grad_enabled (world s))
                 (train_step dloss k l epoch opt batch_idx X y)
                 (fun opt' => opt_params opt' = opt_params opt)).
  { apply sat_train_step with (K := fun _ => True);
      first [ solve [intros; split; reflexivity]
            | solve [intros s1 s2 s3 [? ?] [? ?]; split; congruence]
            | solve [auto] ]. }
  destruct (Hs s) as [[Hself Hg] Hres]. auto.
Qed.

(** A training step on trainable data, with gradient tracking on. *)
Lemma train_step_ok (s : State) (loader : Loader) (d li ep : Z)
    (k : nat) (l : Learner) (epoch : nat) (opt : optimizer)
    (batch_idx : nat) (X : input) (y : list Z) :
  trainable (self s) loader d li ep ->
  grad_enabled (world s) = true ->
  (k <= length (learners (self s)))%nat ->
  l ∈ learners (self s) ->
  opt_params opt = lparams l ->
  batch_trainable (learners (self s)) d (X, y) ->
  exists opt' s',
    train_step dloss k l epoch opt batch_idx X y s
    = (OK opt', s',
       map (lcall s) (take k (learners (self s))) ++ [lcall s l]) /\
    opt_params opt' = lparams l /\
    touches_only (reached (learners (self s)) k l) s s'.
Proof.
  intros (Hd & Hd0 & Hli & Hli0 & _ & _ & Hne & _) Hg Hk Hl Hopt [Hy Hws].
  cbn [fst snd] in Hy, Hws.
  assert (Hshape : forall l', l' ∈ learners (self s) ->
             has_shape (lout s X l') (length y) (Z.to_nat d)).
  { intros l' Hl'. rewrite Forall_forall in Hws. apply Hws.
    now apply list_elem_of_In. }
  assert (Hlne : lparams l <> []).
  { rewrite Forall_forall in Hne. apply Hne. now apply list_elem_of_In. }
  destruct (train_step_run dloss s k l epoch opt batch_idx X y d li)
    as (opt' & s' & Hrun & Hgr & Hpa); try assumption.
  { apply Forall_forall. intros l' Hl'. apply Hshape.
    apply list_elem_of_In in Hl'. exact (subseteq_take _ _ _ Hl'). }
  { apply Hshape, Hl. }
  destruct (train_step_keeps k l epoch opt batch_idx X y s)
    as (Hself & Hge & Hop).
  unfold post, result in Hself, Hge, Hop. rewrite Hrun in Hself, Hge, Hop.
  cbn [fst snd] in Hself, Hge, Hop.
  exists opt', s'. split; [exact Hrun|]. split.
  { rewrite (Hop opt' eq_refl). exact Hopt. }
  split; [exact Hself|split; [exact Hge|]].
  intros p Hp.
  assert (Hpl : p ∉ lparams l) by (intros ?; apply Hp; now left).
  assert (Hpe : p ∉ concat (map lparams (take k (learners (self s)))))
    by (intros ?; apply Hp; now right).
  split.
  - rewrite Hgr. unfold after_backward. cbn [set_grads world grads].
    rewrite deposit_fold by apply NoDup_remove_dups.
    rewrite bool_decide_eq_false_2.
    + unfold post, zero_grad, modify. cbn [fst snd set_grads world grads].
      apply zero_fold_outside. rewrite Hopt. exact Hpl.
    + rewrite elem_of_remove_dups, elem_of_app. tauto.
  - rewrite Hpa. unfold post, step.
    pose proof (step_fold_outside
      (grads (world (after_backward dloss s opt
         (lparams l ++ concat (map lparams (take k (learners (self s)))))
         X y k)))
      (opt_params opt)
      (params (world (after_backward dloss s opt
         (lparams l ++ concat (map lparams (take k (learners (self s)))))
         X y k)), opt_state opt) p) as Hout.
    destruct (fold_left _ _ _) as [ps o].
    cbn [fst snd set_params world params] in *.
    rewrite Hout; [reflexivity|]. rewrite Hopt. exact Hpl.
Qed.

Lemma trainable_self (s s' : State) (loader : Loader) (d li ep : Z) :
  self s' = self s ->
  trainable (self s) loader d li ep -> trainable (self s') loader d li ep.
Proof. intros ->. auto. Qed.

Lemma touches_only_self (K : loc -> Prop) (s s' : State) :
  touches_only K s s' -> self s' = self s.
Proof. intros (Hs & _). exact Hs. Qed.

(** The loop over the batches of one epoch. *)
Lemma batches_loop_ok (loader : Loader) (d li ep : Z) (k : nat)
    (l : Learner) (epoch : nat) :
  forall (bs : list (input * list Z)) (a : nat) (opt : optimizer)
         (s : State),
    trainable (self s) loader d li ep ->
    grad_enabled (world s) = true ->
    (k <= length (learners (self s)))%nat ->
    l ∈ learners (self s) ->
    opt_params opt = lparams l ->
    Forall (batch_trainable (learners (self s)) d) bs ->
    exists opt' s' calls,
      for_fold (combine (seq a (length bs)) bs) opt
        (fun opt '(batch_idx, (X_train, y_train)) =>
           train_step dloss k l epoch opt batch_idx X_train y_train) s
      = (OK opt', s', calls) /\
      length calls = (length bs * (k + 1))%nat /\
      opt_params opt' = lparams l /\
      touches_only (reached (learners (self s)) k l) s s'.
Proof.
  induction bs as [|[X y] bs IH]; intros a opt s Ht Hg Hk Hl Hopt Hbs.
  - exists opt, s, []. repeat split; try reflexivity. exact Hopt.
  - inversion Hbs as [|? ? Hb Hbs']; subst.
    destruct (train_step_ok s loader d li ep k l epoch opt a X y
                Ht Hg Hk Hl Hopt Hb)
      as (opt1 & s1 & Hrun & Hopt1 & Hto).
    pose proof (touches_only_self _ _ _ Hto) as Hself.
    destruct Hto as (_ & Hg1 & Hframe).
    destruct (IH (S a) opt1 s1) as (opt' & s' & calls & Hloop & Hlen & Hopt' & Hto');
      try (rewrite Hself; assumption); [congruence|exact Hopt1|].
    rewrite Hself in Hto'.
    exists opt', s'. eexists. split; [|split; [|split; [exact Hopt'|]]].
    + cbn [length seq combine for_fold].
      eapply bind_OK; [exact Hrun|exact Hloop|reflexivity].
    + rewrite !length_app, length_map, Hlen. cbn [length].
      rewrite length_take. lia.
    + eapply touches_only_trans; [|exact Hto'].
      split; [exact Hself|split; [exact Hg1|exact Hframe]].
Qed.

(** The loop over the epochs. *)
Lemma epochs_loop_ok (loader : Loader) (d li ep : Z) (k : nat)
    (l : Learner) :
  forall (es : list nat) (opt : optimizer) (s : State),
    trainable (self s) loader d li ep ->
    grad_enabled (world s) = true ->
    (k <= length (learners (self s)))%nat ->
    l ∈ learners (self s) ->
    opt_params opt = lparams l ->
    exists opt' s' calls,
      for_fold es opt (fun opt epoch =>
        for_fold (enumerate (batches loader)) opt
          (fun opt '(batch_idx, (X_train, y_train)) =>
             train_step dloss k l epoch opt batch_idx X_train y_train)) s
      = (OK opt', s', calls) /\
      length calls
      = (length es * (length (batches loader) * (k + 1)))%nat /\
      opt_params opt' = lparams l /\
      touches_only (reached (learners (self s)) k l) s s'.
Proof.
  induction es as [|epoch es IH]; intros opt s Ht Hg Hk Hl Hopt.
  - exists opt, s, []. repeat split; try reflexivity. exact Hopt.
  - pose proof Ht as (_ & _ & _ & _ & _ & _ & _ & Hbs).
    destruct (batches_loop_ok loader d li ep k l epoch (batches loader) 0
                opt s Ht Hg Hk Hl Hopt Hbs)
      as (opt1 & s1 & calls1 & Hrun & Hlen1 & Hopt1 & Hto).
    pose proof (touches_only_self _ _ _ Hto) as Hself.
    pose proof Hto as (_ & Hg1 & _).
    destruct (IH opt1 s1) as (opt' & s' & calls & Hloop & Hlen & Hopt' & Hto');
      try (rewrite Hself; assumption); [congruence|exact Hopt1|].
    rewrite Hself in Hto'.
    exists opt', s'. eexists. split; [|split; [|split; [exact Hopt'|]]].
    + cbn [for_fold].
      eapply bind_OK; [exact Hrun|exact Hloop|reflexivity].
    + rewrite length_app, Hlen1, Hlen. cbn [length]. lia.
    + eapply touches_only_trans; eassumption.
Qed.

(** The training phase of one learner. *)
Lemma fit_learner_ok (loader : Loader) (d li ep : Z) (k : nat)
    (l : Learner) (s : State) :
  trainable (self s) loader d li ep ->
  grad_enabled (world s) = true ->
  (k <= length (learners (self s)))%nat ->
  l ∈ learners (self s) ->
  exists s' calls,
    fit_learner dloss loader k l s = (OK tt, s', calls) /\
    length calls
    = (Z.to_nat ep * (length (batches loader) * (k + 1)))%nat /\
    touches_only (reached (learners (self s)) k l) s s'.
Proof.
  intros Ht Hg Hk Hl.
  pose proof Ht as (_ & _ & _ & _ & Hep & (lr & wd & Hlr & Hwd & [o Ho])
                    & Hne & _).
  assert (Hlne : lparams l <> []).
  { rewrite Forall_forall in Hne. apply Hne. now apply list_elem_of_In. }
  destruct (epochs_loop_ok loader d li ep k l (seq 0 (Z.to_nat ep))
              {| opt_params := lparams l; opt_state := o |} s
              Ht Hg Hk Hl eq_refl)
    as (opt' & s' & calls & Hloop & Hlen & _ & Hto).
  exists s', calls. split; [|split; [|exact Hto]].
  - unfold fit_learner. rewrite bind_get. unfold getitem.
    rewrite Hlr. cbn [of_option]. rewrite bind_ret.
    rewrite Hwd. cbn [of_option]. rewrite bind_ret.
    unfold Adam. rewrite Ho.
    destruct (lparams l) as [|p ps] eqn:Hps; [congruence|].
    rewrite bind_ret. unfold range. rewrite Hep. cbn [as_int].
    rewrite bind_ret.
    eapply bind_OK; [exact Hloop|reflexivity|now rewrite app_nil_r].
  - rewrite Hlen, length_seq. reflexivity.
Qed.

Lemma invocations_closed (m : nat) :
  forall a, (2 * invocations a m = m * (2 * a + m + 1))%nat.
Proof.
  induction m as [|m IH]; intros a; cbn [invocations]; [lia|].
  specialize (IH (S a)). nia.
Qed.

(** The loop over the learners, from learner [a] on. *)
Lemma learners_loop_ok (loader : Loader) (d li ep : Z) :
  forall (rest : list Learner) (a : nat) (s : State),
    trainable (self s) loader d li ep ->
    grad_enabled (world s) = true ->
    drop a (learners (self s)) = rest ->
    exists s' calls,
      for_fold (combine (seq a (length rest)) rest) tt
        (fun _ '(learner_idx, learner) =>
           fit_learner dloss loader learner_idx learner) s
      = (OK tt, s', calls) /\
      length calls
      = (Z.to_nat ep * (length (batches loader)
                        * invocations a (length rest)))%nat /\
      self s' = self s /\
      grad_enabled (world s') = true.
Proof.
  induction rest as [|l rest IH]; intros a s Ht Hg Hdrop.
  - exists s, []. split; [reflexivity|]. split; [cbn; lia|].
    split; [reflexivity|exact Hg].
  - assert (Hla : learners (self s) !! a = Some l).
    { rewrite <- (Nat.add_0_r a), <- lookup_drop, Hdrop. reflexivity. }
    destruct (fit_learner_ok loader d li ep a l s Ht Hg)
      as (s1 & calls1 & Hrun & Hlen1 & (Hself & Hg1 & _)).
    { apply lookup_lt_Some in Hla. lia. }
    { eapply list_elem_of_lookup_2. exact Hla. }
    destruct (IH (S a) s1) as (s' & calls & Hloop & Hlen & Hself' & Hg');
      [rewrite Hself; exact Ht|congruence| |].
    { rewrite Hself. rewrite (drop_S _ _ _ Hla) in Hdrop.
      now injection Hdrop. }
    exists s'. eexists. split; [|split; [|split; [congruence|exact Hg']]].
    + cbn [length seq combine for_fold].
      eapply bind_OK; [exact Hrun| |reflexivity].
      destruct calls; exact Hloop.
    + rewrite length_app, Hlen1, Hlen. cbn [length invocations]. nia.
Qed.

(** X8.  On a trainable ensemble and loader, with gradient tracking on,
    [fit] returns: no exception is raised.  It leaves the ensemble in
    training mode with the same configuration and learners, and it has
    invoked learners [epochs * batches * n * (n + 1) / 2] times for [n]
    learners: training learner [k] runs the [k] earlier learners again
    on every batch of every epoch. *)
Theorem fit_completes (loader : Loader) (d li ep : Z) (s : State) :
  trainable (self s) loader d li ep ->
  grad_enabled (world s) = true ->
  exists s' calls,
    fit dloss loader s = (OK tt, s', calls) /\
    (2 * length calls
     = Z.to_nat ep * length (batches loader)
       * (length (learners (self s)) * (length (learners (self s)) + 1)))%nat /\
    self s' = self (set_training true s) /\
    grad_enabled (world s') = true.
Proof.
  intros Ht Hg.
  destruct (learners_loop_ok loader d li ep (learners (self s)) 0
              (set_training true s))
    as (s' & calls & Hloop & Hlen & Hself & Hg'); [exact Ht|exact Hg| |].
  { apply drop_0. }
  exists s', calls. split; [|split; [|split; assumption]].
  - unfold fit. rewrite bind_modify, bind_get. exact Hloop.
  - rewrite Hlen.
    pose proof (invocations_closed (length (learners (self s))) 0). nia.
Qed.

(** X9.  On a trainable ensemble and loader, the training phase of
    learner [k] returns after [epochs * batches * (k + 1)] learner
    invocations, and it has touched neither the parameters nor the
    gradients of anything but learner [k] and the learners before it:
    whatever later learners do not share with them is exactly as it
    was. *)
Theorem later_learners_untouched (loader : Loader) (d li ep : Z)
    (k : nat) (l : Learner) (s : State) :
  trainable (self s) loader d li ep ->
  grad_enabled (world s) = true ->
  learners (self s) !! k = Some l ->
  exists s' calls,
    fit_learner dloss loader k l s = (OK tt, s', calls) /\
    length calls
    = (Z.to_nat ep * (length (batches loader) * (k + 1)))%nat /\
    forall p, ~ reached (learners (self s)) k l p ->
      params (world s') p = params (world s) p /\
      grads (world s') p = grads (world s) p.
Proof.
  intros Ht Hg Hl.
  destruct (fit_learner_ok loader d li ep k l s Ht Hg)
    as (s' & calls & Hrun & Hlen & (_ & _ & Hframe)).
  { apply lookup_lt_Some in Hl. lia. }
  { eapply list_elem_of_lookup_2. exact Hl. }
  exists s', calls. split; [exact Hrun|]. split; [exact Hlen|].
  intros p Hp. destruct (Hframe p Hp) as [Hgr Hpa]. split; assumption.
Qed.
End FitRuns.

(** ** [fit]: how it fails, and when it does nothing *)

Section FitFailures.
Context {T : Type} `{Scalar T} `{Runtime T}.
Variable dloss : State -> input -> list Z -> nat -> loc -> gval.
Local Open Scope py_scope.

(** A training step with [log_interval = 0]: everything up to and
    including [optimizer.step()] runs, then the modulus raises. *)
Lemma train_step_zero_interval (s : State) (k : nat) (l : Learner)
    (epoch : nat) (opt : optimizer) (batch_idx : nat) (X : input)
    (y : list Z) (d : Z) :
  (k <= length (learners (self s)))%nat ->
  output_dim (self s) = VInt d -> (0 <= d)%Z ->
  Forall (fun yi => (0 <= yi < d)%Z) y ->
  Forall (fun l' => has_shape (lout s X l') (length y) (Z.to_nat d))
         (take k (learners (self s))) ->
  has_shape (lout s X l) (length y) (Z.to_nat d) ->
  grad_enabled (world s) = true ->
  lparams l <> [] ->
  log_interval (self s) = VInt 0 ->
  train_step dloss k l epoch opt batch_idx X y s
  = (Raise ZeroDivisionError,
     post (step opt)
       (after_backward dloss s opt
          (lparams l ++ concat (map lparams (take k (learners (self s)))))
          X y k),
     map (lcall s) (take k (learners (self s))) ++ [lcall s l]).
Proof.
  intros Hk Hd Hd0 Hy Hls Hl Hg Hne Hli.
  destruct (pseudo_residual_spec s X y (Z.of_nat k) d Hd Hd0 Hy)
    as (r & Hr & (Hrr & Hrc & _) & Hrl);
    [lia|rewrite Nat2Z.id; exact Hk|rewrite Nat2Z.id; exact Hls|].
  rewrite Nat2Z.id in Hr, Hrl.
  cbn [spec_residual nrows ncols] in Hrr, Hrc.
  set (out := Tracked (lout s X l) (lleaves s l)).
  destruct (criterion_same_shape s out r (length y) (Z.to_nat d))
    as (loss & Hloss & Hleaves); [exact Hl|split; assumption|].
  assert (Hlv : loss_leaves loss
                = lparams l ++
                  concat (map lparams (take k (learners (self s))))).
  { rewrite Hleaves, Hrl. unfold out, lleaves. cbn [leaves].
    rewrite Hg. reflexivity. }
  assert (Hnz : loss_leaves loss <> []).
  { rewrite Hlv. destruct (lparams l); [congruence|discriminate]. }
  set (sz := post (zero_grad opt) s).
  pose proof (backward_run dloss sz loss X y k Hnz) as Hback.
  rewrite Hlv in Hback.
  set (sb := after_backward dloss s opt
               (lparams l ++ concat (map lparams (take k (learners (self s)))))
               X y k) in *.
  destruct (step opt sb) as [[ro sp] co] eqn:Hstep.
  assert (Hstep' : exists opt', ro = OK opt' /\ co = [] /\
                     sp = post (step opt) sb).
  { unfold post. rewrite Hstep. unfold step in Hstep.
    destruct (fold_left _ _ _) as [ps o] in Hstep.
    injection Hstep as <- <- <-. eexists. repeat split. }
  destruct Hstep' as (opt' & -> & -> & Hsp).
  assert (Hlsp : log_interval (self sp) = VInt 0).
  { rewrite Hsp. unfold post, step.
    destruct (fold_left _ _ _) as [ps o]. exact Hli. }
  unfold train_step.
  eapply bind_OK; [exact Hr| |reflexivity].
  eapply bind_OK; [reflexivity| |reflexivity].
  fold (lout s X l). fold (lleaves s l). fold out.
  rewrite (bind_OK_nil _ _ _ _ _ Hloss).
  assert (Hz : zero_grad opt s = (OK tt, sz, [])) by reflexivity.
  rewrite (bind_OK_nil _ _ _ _ _ Hz).
  rewrite (bind_OK_nil _ _ _ _ _ Hback).
  change (set_grads _ sz) with sb.
  rewrite (bind_OK_nil _ _ _ _ _ Hstep).
  rewrite bind_get, Hlsp. cbn [as_int of_option]. rewrite bind_ret.
  cbn [Z.eqb]. rewrite bind_raise, <- Hsp. reflexivity.
Qed.

(** When the very first training step raises, so does [fit]. *)
Lemma fit_first_step_raises (loader : Loader) (s : State) (l : Learner)
    (rest : list Learner) (X : input) (y : list Z)
    (bs : list (input * list Z)) (ep : Z) (lr wd : value T) (o : ostate)
    (x : exn) (s' : State) (c : list Call) :
  learners (self s) = l :: rest ->
  batches loader = (X, y) :: bs ->
  epochs (self s) = VInt ep -> (0 < ep)%Z ->
  args (self s) !! "lr" = Some lr ->
  args (self s) !! "weight_decay" = Some wd ->
  adam_init lr wd = Some o ->
  lparams l <> [] ->
  train_step dloss 0 l 0 {| opt_params := lparams l; opt_state := o |} 0
    X y (set_training true s) = (Raise x, s', c) ->
  fit dloss loader s = (Raise x, s', c).
Proof.
  intros Hls Hbs Hep Hep0 Hlr Hwd Ho Hne Hstep.
  unfold fit. rewrite bind_modify, bind_get.
  cbn [set_training self learners]. rewrite Hls.
  cbn [enumerate length seq combine for_fold].
  apply bind_Raise.
  unfold fit_learner. rewrite bind_get.
  cbn [set_training self args epochs]. unfold getitem.
  rewrite Hlr. cbn [of_option]. rewrite bind_ret.
  rewrite Hwd. cbn [of_option]. rewrite bind_ret.
  unfold Adam. rewrite Ho.
  destruct (lparams l) as [|p ps] eqn:Hps; [congruence|].
  rewrite bind_ret. unfold range. rewrite Hep. cbn [as_int].
  rewrite bind_ret.
  destruct (Z.to_nat ep) as [|n] eqn:Hn; [lia|].
  cbn [seq for_fold]. rewrite Hbs.
  cbn [enumerate length seq combine for_fold].
  apply bind_Raise, bind_Raise, bind_Raise. exact Hstep.
Qed.

(** X10.  [fit] reads "lr" and "weight_decay", which [__init__] never
    looked at: with at least one learner, a configuration without one of
    them makes [fit] raise the KeyError (for "lr" first), after it has
    put the ensemble in training mode and before any learner is
    invoked. *)
Theorem fit_missing_hyperparameter (loader : Loader) (s : State)
    (l : Learner) (rest : list Learner) (key : string) :
  learners (self s) = l :: rest ->
  args (self s) !! key = None ->
  key = "lr" \/ (key = "weight_decay" /\ is_Some (args (self s) !! "lr")) ->
  fit dloss loader s = (Raise (KeyError key), set_training true s, []).
Proof.
  intros Hls Hnone Hkey.
  unfold fit. rewrite bind_modify, bind_get.
  cbn [set_training self learners]. rewrite Hls.
  cbn [enumerate length seq combine for_fold].
  apply bind_Raise.
  unfold fit_learner. rewrite bind_get.
  cbn [set_training self args epochs]. unfold getitem.
  destruct Hkey as [->|[-> [v Hv]]].
  - rewrite Hnone. reflexivity.
  - rewrite Hv. cbn [of_option]. rewrite bind_ret.
    rewrite Hnone. reflexivity.
Qed.

(** X11.  A first learner without parameters makes [fit] raise
    ValueError when it builds that learner's Adam optimizer, whatever
    the hyper-parameters are: no learner has been invoked, and nothing
    but the training mode has changed. *)
Theorem fit_learner_without_parameters (loader : Loader) (s : State)
    (l : Learner) (rest : list Learner) :
  learners (self s) = l :: rest ->
  lparams l = [] ->
  is_Some (args (self s) !! "lr") ->
  is_Some (args (self s) !! "weight_decay") ->
  fit dloss loader s = (Raise ValueError, set_training true s, []).
Proof.
  intros Hls Hps [lr Hlr] [wd Hwd].
  unfold fit. rewrite bind_modify, bind_get.
  cbn [set_training self learners]. rewrite Hls.
  cbn [enumerate length seq combine for_fold].
  apply bind_Raise.
  unfold fit_learner. rewrite bind_get.
  cbn [set_training self args epochs]. unfold getitem.
  rewrite Hlr. cbn [of_option]. rewrite bind_ret.
  rewrite Hwd. cbn [of_option]. rewrite bind_ret.
  unfold Adam. rewrite Hps.
  destruct (adam_init lr wd); reflexivity.
Qed.

(** The epochs loop when there is no batch. *)
Lemma epochs_loop_no_batch (k : nat) (l : Learner) :
  forall (es : list nat) (opt : optimizer) (s : State),
    for_fold es opt (fun opt epoch =>
      for_fold (@nil (nat * (input * list Z))) opt
        (fun opt '(batch_idx, (X_train, y_train)) =>
           train_step dloss k l epoch opt batch_idx X_train y_train)) s
    = (OK opt, s, []).
Proof.
  induction es as [|e es IH]; intros opt s; [reflexivity|].
  cbn [for_fold]. rewrite bind_ret. apply IH.
Qed.

(** The learners loop when no training step is due. *)
Lemma learners_loop_no_step (loader : Loader) (ep : Z) (lr wd : value T)
    (s : State) :
  epochs (self s) = VInt ep ->
  (ep <= 0)%Z \/ batches loader = [] ->
  args (self s) !! "lr" = Some lr ->
  args (self s) !! "weight_decay" = Some wd ->
  is_Some (adam_init lr wd) ->
  forall (rest : list Learner) (a : nat),
    Forall (fun l => lparams l <> []) rest ->
    for_fold (combine (seq a (length rest)) rest) tt
      (fun _ '(learner_idx, learner) =>
         fit_learner dloss loader learner_idx learner) s
    = (OK tt, s, []).
Proof.
  intros Hep Hno Hlr Hwd [o Ho].
  induction rest as [|l rest IH]; intros a Hne; [reflexivity|].
  inversion Hne as [|? ? Hl Hrest]; subst.
  cbn [length seq combine for_fold].
  assert (Hfl : fit_learner dloss loader a l s = (OK tt, s, [])).
  { unfold fit_learner. rewrite bind_get. unfold getitem.
    rewrite Hlr. cbn [of_option]. rewrite bind_ret.
    rewrite Hwd. cbn [of_option]. rewrite bind_ret.
    unfold Adam. rewrite Ho.
    destruct (lparams l) as [|p ps] eqn:Hps; [congruence|].
    rewrite bind_ret. unfold range. rewrite Hep. cbn [as_int].
    rewrite bind_ret.
    destruct Hno as [Hle|Hnil].
    - replace (Z.to_nat ep) with 0%nat by lia. reflexivity.
    - rewrite Hnil. cbn [enumerate length seq combine].
      rewrite (bind_OK_nil _ _ _ _ _ (epochs_loop_no_batch a l _ _ s)).
      reflexivity. }
  rewrite (bind_OK_nil _ _ _ _ _ Hfl). apply IH. exact Hrest.
Qed.

(** X12.  With [epochs <= 0], or with a loader that yields no batch,
    [fit] trains nothing: given hyper-parameters Adam accepts and
    learners that have parameters, it returns without invoking a
    learner, and all it has done is to switch the ensemble to training
    mode. *)
Theorem fit_without_steps (loader : Loader) (s : State) (ep : Z)
    (lr wd : value T) :
  epochs (self s) = VInt ep ->
  (ep <= 0)%Z \/ batches loader = [] ->
  args (self s) !! "lr" = Some lr ->
  args (self s) !! "weight_decay" = Some wd ->
  is_Some (adam_init lr wd) ->
  Forall (fun l => lparams l <> []) (learners (self s)) ->
  fit dloss loader s = (OK tt, set_training true s, []).
Proof.
  intros Hep Hno Hlr Hwd Ho Hne.
  unfold fit. rewrite bind_modify, bind_get.
  apply (learners_loop_no_step loader ep lr wd (set_training true s)
           Hep Hno Hlr Hwd Ho (learners (self s)) 0 Hne).
Qed.

(** X13.  [log_interval = 0] is found out late: on otherwise trainable
    data [fit] raises ZeroDivisionError at the first
    [batch_idx % self.log_interval], that is after the first learner has
    been run on the first batch and its first optimizer step has been
    made.  The state left behind is the one after that step. *)
Theorem fit_zero_log_interval (loader : Loader) (s : State) (l : Learner)
    (rest : list Learner) (X : input) (y : list Z)
    (bs : list (input * list Z)) (d ep : Z) (lr wd : value T)
    (o : ostate) :
  learners (self s) = l :: rest ->
  batches loader = (X, y) :: bs ->
  epochs (self s) = VInt ep -> (0 < ep)%Z ->
  args (self s) !! "lr" = Some lr ->
  args (self s) !! "weight_decay" = Some wd ->
  adam_init lr wd = Some o ->
  lparams l <> [] ->
  output_dim (self s) = VInt d -> (0 <= d)%Z ->
  Forall (fun yi => (0 <= yi < d)%Z) y ->
  well_shaped l X (length y) (Z.to_nat d) ->
  grad_enabled (world s) = true ->
  log_interval (self s) = VInt 0 ->
  fit dloss loader s
  = (Raise ZeroDivisionError,
     post (step {| opt_params := lparams l; opt_state := o |})
       (after_backward dloss (set_training true s)
          {| opt_params := lparams l; opt_state := o |}
          (lparams l) X y 0),
     [lcall (set_training true s) l]).
Proof.
  intros Hls Hbs Hep Hep0 Hlr Hwd Ho Hne Hd Hd0 Hy Hws Hg Hli.
  eapply fit_first_step_raises; try eassumption.
  rewrite (train_step_zero_interval (set_training true s) 0 l 0 _ 0 X y d);
    try assumption.
  - cbn [take map concat app]. rewrite app_nil_r. reflexivity.
  - lia.
  - cbn [take]. constructor.
  - apply Hws.
Qed.

(** X14.  Called with gradient tracking off (inside
    [torch.no_grad()]), [fit] cannot train: on otherwise trainable data
    it raises RuntimeError at the first [loss.backward()], after one
    invocation of the first learner, and no parameter has changed. *)
Theorem fit_without_grad (loader : Loader) (s : State) (l : Learner)
    (rest : list Learner) (X : input) (y : list Z)
    (bs : list (input * list Z)) (d ep : Z) (lr wd : value T)
    (o : ostate) :
  learners (self s) = l :: rest ->
  batches loader = (X, y) :: bs ->
  epochs (self s) = VInt ep -> (0 < ep)%Z ->
  args (self s) !! "lr" = Some lr ->
  args (self s) !! "weight_decay" = Some wd ->
  adam_init lr wd = Some o ->
  lparams l <> [] ->
  output_dim (self s) = VInt d -> (0 <= d)%Z ->
  Forall (fun yi => (0 <= yi < d)%Z) y ->
  well_shaped l X (length y) (Z.to_nat d) ->
  grad_enabled (world s) = false ->
  exists s',
    fit dloss loader s
    = (Raise RuntimeError, s', [lcall (set_training true s) l]) /\
    self s' = self (set_training true s) /\
    params (world s') = params (world s).
Proof.
  intros Hls Hbs Hep Hep0 Hlr Hwd Ho Hne Hd Hd0 Hy Hws Hg.
  eexists. split; [|split].
  - eapply fit_first_step_raises; try eassumption.
    rewrite (train_step_untracked dloss (set_training true s) 0 l 0 _ 0 X y d);
      try assumption.
    + reflexivity.
    + lia.
    + cbn [take]. constructor.
    + apply Hws.
  - reflexivity.
  - reflexivity.
Qed.
End FitFailures.

(** ** [evaluate]: the accuracy it prints *)

Section EvaluationRuns.
Context {T : Type} `{Scalar T} `{Runtime T}.
Local Open Scope py_scope.

(** The run of [evaluate] on well-shaped batches of a non-empty
    dataset. *)
Lemma evaluate_run (s : State) (loader : Loader) (d : Z) :
  output_dim (self s) = VInt d -> (0 < d)%Z ->
  Forall (batch_ok (eval_state s) (Z.to_nat d)) (batches loader) ->
  (0 < dataset_len loader)%nat ->
  exists s' calls,
    evaluate loader s = (OK tt, s', calls) /\
    stdout (world s')
    = stdout (world s)
      ++ [TestingAccuracy (spec_accuracy s (Z.to_nat d) loader)].
Proof.
  intros Hd Hd0 Hbs Hlen.
  pose proof (evaluate_body s loader d Hd Hd0 Hbs) as Hloop.
  eexists. eexists. split.
  - unfold evaluate. rewrite bind_modify.
    unfold no_grad, finally. fold (eval_state s).
    erewrite bind_OK; [reflexivity|exact Hloop| |symmetry; apply app_nil_r].
    rewrite bool_decide_eq_false_2 by lia. reflexivity.
  - reflexivity.
Qed.

Lemma matches_bounds (p : list nat) (y : list Z) :
  (0 <= matches p y <= Z.of_nat (length y))%Z.
Proof.
  unfold matches. split; [lia|].
  apply inj_le.
  etransitivity; [apply length_filter|].
  rewrite length_zip_with. lia.
Qed.

Lemma spec_correct_bounds (s : State) (d : nat)
    (bs : list (input * list Z)) :
  (0 <= spec_correct s d bs
   <= Z.of_nat (length (concat (map snd bs))))%Z.
Proof.
  unfold spec_correct.
  induction bs as [|[X y] bs IH]; cbn [map foldr concat snd]; [lia|].
  rewrite length_app.
  pose proof (matches_bounds (spec_argmax s X d) y). lia.
Qed.

Lemma mapM_seq_lookup {A B} (f : nat -> option B) (g : A -> B)
    (y : list A) :
  forall a,
    (forall i yi, y !! i = Some yi -> f (a + i)%nat = Some (g yi)) ->
    mapM f (seq a (length y)) = Some (map g y).
Proof.
  induction y as [|x y IH]; intros a Hf; [reflexivity|].
  cbn [length seq map]. cbn [mapM].
  rewrite <- (Nat.add_0_r a) at 1. rewrite (Hf 0%nat x eq_refl).
  rewrite (IH (S a)); [reflexivity|].
  intros i yi Hi. replace (S a + i)%nat with (a + S i)%nat by lia.
  apply Hf. exact Hi.
Qed.

Lemma matches_all (y : list Z) :
  Forall (fun yi => (0 <= yi)%Z) y ->
  matches (map Z.to_nat y) y = Z.of_nat (length y).
Proof.
  intros Hy. unfold matches. f_equal.
  induction Hy as [|yi y Hyi Hy IH]; [reflexivity|].
  cbn [map zip_with filter list_filter length].
  cbn. rewrite decide_True by lia. cbn [length]. f_equal. exact IH.
Qed.
End EvaluationRuns.

Section RealEvaluation.
Context `{Runtime R}.
Local Open Scope R_scope.

(** X15.  The accuracy [evaluate] prints is a percentage of the dataset
    size, not of the examples seen: it lies between 0 and
    [100 * examples / len(dataset)].  It is at most 100 when the loader
    yields no more examples than the dataset has, and stays below 100,
    whatever the predictions, when it yields fewer.  (Over the real
    numbers.) *)
Theorem accuracy_bounds (s : State) (loader : Loader) (d : Z) :
  output_dim (self s) = VInt d -> (0 < d)%Z ->
  Forall (batch_ok (eval_state s) (Z.to_nat d)) (batches loader) ->
  (0 < dataset_len loader)%nat ->
  exists acc s' calls,
    evaluate loader s = (OK tt, s', calls) /\
    stdout (world s') = stdout (world s) ++ [TestingAccuracy acc] /\
    0 <= acc <= 100 * INR (examples loader) / INR (dataset_len loader) /\
    ((examples loader <= dataset_len loader)%nat -> acc <= 100) /\
    ((examples loader < dataset_len loader)%nat -> acc < 100).
Proof.
  intros Hd Hd0 Hbs Hlen.
  destruct (evaluate_run s loader d Hd Hd0 Hbs Hlen)
    as (s' & calls & Hrun & Hout).
  exists (spec_accuracy s (Z.to_nat d) loader), s', calls.
  split; [exact Hrun|]. split; [exact Hout|].
  unfold spec_accuracy. cbn [sdiv smul of_Z R_scalar].
  pose proof (spec_correct_bounds (eval_state s) (Z.to_nat d)
                (batches loader)) as [Hc0 Hc1].
  fold (examples loader) in Hc1.
  set (c := spec_correct (eval_state s) (Z.to_nat d) (batches loader)) in *.
  assert (Hn : 0 < INR (dataset_len loader)) by (apply lt_0_INR; lia).
  rewrite <- INR_IZR_INZ.
  apply IZR_le in Hc0, Hc1. rewrite <- INR_IZR_INZ in Hc1.
  assert (Hle : 0 <= 100 * IZR c / INR (dataset_len loader)
                <= 100 * INR (examples loader) / INR (dataset_len loader)).
  { pose proof (Rinv_0_lt_compat _ Hn) as Hi. unfold Rdiv. split.
    - apply Rmult_le_pos; lra.
    - apply Rmult_le_compat_r; lra. }
  split; [exact Hle|]. split.
  - intros He. apply le_INR in He.
    apply (Rmult_le_reg_r (INR (dataset_len loader))); [exact Hn|].
    unfold Rdiv. rewrite Rmult_assoc, Rinv_l by lra. lra.
  - intros He. apply lt_INR in He.
    apply (Rmult_lt_reg_r (INR (dataset_len loader))); [exact Hn|].
    unfold Rdiv. rewrite Rmult_assoc, Rinv_l by lra. lra.
Qed.

Lemma argmax_from_keeps (l : list R) (best : nat) (bv : R) (j : nat) :
  (forall x, x ∈ l -> ~ bv < x) -> argmax_from best bv j l = best.
Proof.
  revert j. induction l as [|x l IH]; intros j Hl; [reflexivity|].
  cbn [argmax_from sltb R_scalar]. unfold Rltb.
  destruct (Rlt_dec bv x) as [Hlt|_].
  - exfalso. apply (Hl x); [left|exact Hlt].
  - apply IH. intros x' Hx'. apply Hl. now right.
Qed.

Lemma argmax_from_strict (l : list R) :
  forall (k : nat) (x : R) (best : nat) (bv : R) (j : nat),
    l !! k = Some x -> bv < x ->
    (forall k' x', l !! k' = Some x' -> k' <> k -> x' < x) ->
    argmax_from best bv j l = (j + k)%nat.
Proof.
  induction l as [|a l IH]; intros k x best bv j Hk Hbv Hmax;
    [discriminate|].
  cbn [argmax_from sltb R_scalar]. unfold Rltb.
  destruct k as [|k].
  - injection Hk as ->.
    destruct (Rlt_dec bv x) as [_|Hn]; [|contradiction].
    rewrite argmax_from_keeps; [lia|].
    intros x' Hx'. apply list_elem_of_lookup in Hx' as [k' Hk'].
    assert (x' < x) by (apply (Hmax (S k') x' Hk'); lia). lra.
  - cbn in Hk.
    assert (Ha : a < x) by (apply (Hmax 0%nat a); [reflexivity|lia]).
    assert (Hrest : forall k' x', l !! k' = Some x' -> k' <> k -> x' < x).
    { intros k' x' Hk' Hne. apply (Hmax (S k') x' Hk'). lia. }
    destruct (Rlt_dec bv a) as [_|_]; rewrite (IH k x) by assumption; lia.
Qed.

(** A strict maximum of a row is what [max(1)[1]] returns. *)
Lemma argmax_row_strict (l : list R) (k : nat) (x : R) :
  l !! k = Some x ->
  (forall k' x', l !! k' = Some x' -> k' <> k -> x' < x) ->
  argmax_row l = Some k.
Proof.
  intros Hk Hmax. destruct l as [|a l]; [discriminate|].
  cbn [argmax_row]. f_equal. destruct k as [|k].
  - injection Hk as ->. apply argmax_from_keeps.
    intros x' Hx'. apply list_elem_of_lookup in Hx' as [k' Hk'].
    assert (x' < x) by (apply (Hmax (S k') x' Hk'); lia). lra.
  - cbn in Hk. rewrite (argmax_from_strict l k x); [lia|exact Hk| |].
    + apply (Hmax 0%nat a); [reflexivity|lia].
    + intros k' x' Hk' Hne. apply (Hmax (S k') x' Hk'). lia.
Qed.

Lemma argmax_separates (t : tensor R) (y : list Z) :
  separates t y -> length y = nrows t ->
  argmax t = Some (map Z.to_nat y).
Proof.
  intros Hsep Hlen. unfold argmax. rewrite <- Hlen.
  apply mapM_seq_lookup. intros i yi Hi. cbn [Nat.add].
  destruct (Hsep i yi Hi) as [Hr Hlt].
  apply argmax_row_strict with (x := entry t i (Z.to_nat yi)).
  - unfold row. change (map ?f ?l) with (f <$> l).
    rewrite list_lookup_fmap, lookup_seq_lt by lia. reflexivity.
  - intros k' x' Hk' Hne. unfold row in Hk'.
    change (map ?f ?l) with (f <$> l) in Hk'.
    rewrite list_lookup_fmap in Hk'.
    destruct (seq 0 (ncols t) !! k') as [j|] eqn:Hj; [|discriminate].
    apply lookup_seq in Hj as [-> Hj]. injection Hk' as <-.
    apply Hlt; assumption.
Qed.

Lemma spec_correct_all (s : State) (d : Z) (bs : list (input * list Z)) :
  output_dim (self s) = VInt d -> (0 < d)%Z ->
  Forall (batch_ok s (Z.to_nat d)) bs ->
  Forall (classifies s) bs ->
  spec_correct s (Z.to_nat d) bs
  = Z.of_nat (length (concat (map snd bs))).
Proof.
  intros Hd Hd0 Hok Hcl. unfold spec_correct.
  induction bs as [|[X y] bs IH]; [reflexivity|].
  inversion Hok as [|? ? [Hlen Hls] Hok']; subst.
  inversion Hcl as [|? ? (t & s' & calls & Hrun & Hsep) Hcl']; subst.
  cbn [fst snd] in Hlen, Hls, Hrun, Hsep.
  cbn [map foldr concat snd]. rewrite length_app, Nat2Z.inj_add.
  rewrite (IH Hok' Hcl'). f_equal.
  destruct (forward_spec s X d Hd) as (t' & Hrun' & Heq & _);
    [lia|exact Hls|].
  rewrite Hrun in Hrun'. injection Hrun' as <- _ _.
  unfold spec_argmax. rewrite <- (argmax_ext _ _ Heq).
  rewrite (argmax_separates (tval t) y Hsep).
  - cbn [default]. apply matches_all.
    apply Forall_forall. intros yi Hyi.
    apply list_elem_of_In, list_elem_of_lookup in Hyi as [i Hi].
    destruct (Hsep i yi Hi) as [? _]. lia.
  - destruct Heq as (Hr & _). rewrite Hr. exact Hlen.
Qed.

(** X16.  When the loader yields the whole dataset and, for every
    example, the logits [forward] returns in inference mode put the
    label's class strictly above all others, [evaluate] prints an
    accuracy of exactly 100.  (Over the real numbers.) *)
Theorem perfect_accuracy (s : State) (loader : Loader) (d : Z) :
  output_dim (self s) = VInt d -> (0 < d)%Z ->
  Forall (batch_ok (eval_state s) (Z.to_nat d)) (batches loader) ->
  Forall (classifies (eval_state s)) (batches loader) ->
  dataset_len loader = examples loader ->
  (0 < examples loader)%nat ->
  exists s' calls,
    evaluate loader s = (OK tt, s', calls) /\
    stdout (world s') = stdout (world s) ++ [TestingAccuracy 100].
Proof.
  intros Hd Hd0 Hbs Hcl Hlen Hex.
  destruct (evaluate_run s loader d Hd Hd0 Hbs)
    as (s' & calls & Hrun & Hout); [lia|].
  exists s', calls. split; [exact Hrun|].
  rewrite Hout. do 3 f_equal.
  unfold spec_accuracy.
  rewrite (spec_correct_all (eval_state s) d (batches loader) Hd Hd0 Hbs Hcl).
  fold (examples loader). rewrite Hlen.
  cbn [sdiv smul of_Z R_scalar]. rewrite <- INR_IZR_INZ.
  assert (0 < INR (examples loader)) by (apply lt_0_INR; lia).
  field. lra.
Qed.
End RealEvaluation.

(** ** The pseudo-residual as a regression target *)

Section RealResidual.
Context `{Runtime R}.
Local Open Scope R_scope.




End RealResidual.

(** ** [forward]: learner outputs of other shapes *)

Section ForwardShapes.
Context {T : Type} `{Scalar T} `{Runtime T}.
Local Open Scope py_scope.

Lemma accumulate_step_expand (s : State) (X : input) (acc : tracked)
    (l : Learner) (b d : nat) :
  has_shape (tval acc) b d -> expandable (lout s X l) b d = true ->
  exists acc',
    (let* out := call l X in
     iadd_scaled acc (shrinkage_rate (self s)) out) s
    = (OK acc', s, [lcall s l]) /\
    has_shape (tval acc') b d /\
    (forall i j, entry (tval acc') i j =
                 sadd (entry (tval acc) i j)
                      (smul (as_scalar (shrinkage_rate (self s)))
                            (entry (expand (lout s X l) b d) i j))) /\
    leaves acc' = leaves acc ++ lleaves s l.
Proof.
  intros [Hr Hc] He.
  eexists. split; [|split; [|split]].
  - unfold bind, call, iadd_scaled, iadd. cbn [tval leaves].
    fold (lout s X l). rewrite Hr, Hc.
    change (expandable (scale _ (lout s X l)) b d)
      with (expandable (lout s X l) b d).
    rewrite He. reflexivity.
  - split; reflexivity.
  - intros i j. reflexivity.
  - reflexivity.
Qed.

Lemma accumulate_step_mismatch (s : State) (X : input) (acc : tracked)
    (l : Learner) (b d : nat) :
  has_shape (tval acc) b d -> expandable (lout s X l) b d = false ->
  (let* out := call l X in
   iadd_scaled acc (shrinkage_rate (self s)) out) s
  = (Raise RuntimeError, s, [lcall s l]).
Proof.
  intros [Hr Hc] He.
  unfold bind, call, iadd_scaled, iadd. cbn [tval leaves].
  fold (lout s X l). rewrite Hr, Hc.
  change (expandable (scale _ (lout s X l)) b d)
    with (expandable (lout s X l) b d).
  rewrite He. reflexivity.
Qed.

Lemma forward_loop_expand (s : State) (X : input) (b d : nat) :
  forall (ls : list Learner) (acc : tracked),
    has_shape (tval acc) b d ->
    Forall (fun l => expandable (lout s X l) b d = true) ls ->
    exists acc',
      for_fold ls acc (fun y_pred learner =>
        let* s := get in
        let* out := call learner X in
        iadd_scaled y_pred (shrinkage_rate (self s)) out) s
      = (OK acc', s, map (lcall s) ls) /\
      has_shape (tval acc') b d /\
      (forall i j, entry (tval acc') i j =
         accumulate (as_scalar (shrinkage_rate (self s)))
           (map (fun l => expand (lout s X l) b d) ls) i j
           (entry (tval acc) i j)).
Proof.
  induction ls as [|l ls IH]; intros acc Ha Hls.
  - exists acc. repeat split; apply Ha.
  - inversion Hls as [|? ? Hl Hls']; subst.
    destruct (accumulate_step_expand s X acc l b d Ha Hl)
      as (acc1 & Hstep & Hs1 & He1 & _).
    destruct (IH acc1 Hs1 Hls') as (acc' & Hrun & Hs' & He').
    exists acc'. split; [|split; [exact Hs'|]].
    + cbn [for_fold].
      eapply bind_OK; [rewrite bind_get; exact Hstep|exact Hrun|].
      reflexivity.
    + intros i j. rewrite He'. cbn [map]. unfold accumulate.
      cbn [fold_left]. now rewrite He1.
Qed.

(** X18.  [forward] does not insist on logits of shape
    [(B, output_dim)]: a learner output with one row, or one column, is
    broadcast by [y_pred += ...] without a word, and what is summed
    is the broadcast tensor. *)
Theorem forward_broadcasts (s : State) (X : input) (d : Z) :
  output_dim (self s) = VInt d -> (0 <= d)%Z ->
  Forall (fun l => expandable (lout s X l) (batch_size X) (Z.to_nat d)
                   = true) (learners (self s)) ->
  exists t,
    forward X s = (OK t, s, map (lcall s) (learners (self s))) /\
    tensor_eq (tval t)
      (spec_prediction (as_scalar (shrinkage_rate (self s)))
         (map (fun l => expand (lout s X l) (batch_size X) (Z.to_nat d))
              (learners (self s)))
         (batch_size X) (Z.to_nat d)).
Proof.
  intros Hd Hd0 Hls.
  destruct (forward_loop_expand s X (batch_size X) (Z.to_nat d)
              (learners (self s))
              (Tracked (zeros (batch_size X) (Z.to_nat d)) []))
    as (t & Hrun & [Hr Hc] & He); [split; reflexivity|exact Hls|].
  exists t. split.
  - unfold forward. rewrite bind_get, Hd.
    rewrite (bind_OK_nil _ _ _ _ _ (as_size_VInt d s Hd0)).
    exact Hrun.
  - split; [exact Hr|split; [exact Hc|]].
    intros i j _ _. rewrite He. cbn [tval zeros entry spec_prediction].
    apply accumulate_ssum.
Qed.

(** X19.  The first learner whose output cannot be broadcast to
    [(B, output_dim)] makes [forward] raise RuntimeError at its
    [y_pred += ...]: the learners before it and the learner itself have
    been invoked, the ones after it have not, and the state is as it
    was. *)
Theorem forward_shape_mismatch (s : State) (X : input) (d : Z)
    (pre post_ : list Learner) (l : Learner) :
  output_dim (self s) = VInt d -> (0 <= d)%Z ->
  learners (self s) = pre ++ l :: post_ ->
  Forall (fun l' => expandable (lout s X l') (batch_size X) (Z.to_nat d)
                    = true) pre ->
  expandable (lout s X l) (batch_size X) (Z.to_nat d) = false ->
  forward X s = (Raise RuntimeError, s, map (lcall s) (pre ++ [l])).
Proof.
  intros Hd Hd0 Hls Hpre Hl.
  destruct (forward_loop_expand s X (batch_size X) (Z.to_nat d) pre
              (Tracked (zeros (batch_size X) (Z.to_nat d)) []))
    as (t & Hrun & Hs & _); [split; reflexivity|exact Hpre|].
  unfold forward. rewrite bind_get, Hd.
  rewrite (bind_OK_nil _ _ _ _ _ (as_size_VInt d s Hd0)).
  rewrite Hls, for_fold_app.
  eapply bind_OK; [exact Hrun| |rewrite map_app; reflexivity].
  cbn [for_fold]. apply bind_Raise. rewrite bind_get.
  apply (accumulate_step_mismatch s X t l _ _ Hs Hl).
Qed.
End ForwardShapes.

(** ** [LeNet5]: which images it takes *)

(** Division by a constant, for [lia]. *)
From Stdlib Require Import ZifyNat.

Section LeNet5Sizes.
Context {T : Type} `{Scalar T} `{Runtime T}.
Local Open Scope py_scope.

Lemma numel_size4 (n c h w : nat) :
  LeNet5.numel (LeNet5.size (LeNet5.Size4 n c h w)) = (n * (c * h * w))%nat.
Proof. unfold LeNet5.numel. cbn. lia. Qed.

Lemma num_flat_features_size4 (n c h w : nat) :
  LeNet5.num_flat_features (LeNet5.size (LeNet5.Size4 n c h w))
  = (c * h * w)%nat.
Proof. unfold LeNet5.num_flat_features. cbn. lia. Qed.

(** [output.view(-1, self.num_flat_features(output))] keeps the first
    dimension of a tensor that has elements, and raises on one that has
    none. *)
Lemma view_flat {S} (n c h w : nat) (s : S) :
  LeNet5.view (LeNet5.Size4 n c h w)
    (LeNet5.num_flat_features (LeNet5.size (LeNet5.Size4 n c h w))) s
  = (if negb (n * (c * h * w) =? 0)%nat
     then OK (LeNet5.Size2 n (c * h * w)) else Raise RuntimeError, s, []).
Proof.
  unfold LeNet5.view.
  rewrite numel_size4, num_flat_features_size4.
  destruct (n * (c * h * w) =? 0)%nat eqn:Hm; [reflexivity|].
  apply Nat.eqb_neq in Hm.
  assert (Hn : (c * h * w)%nat <> 0%nat) by lia.
  apply Nat.eqb_neq in Hn. rewrite Hn. cbn [orb negb].
  rewrite Nat.Div0.mod_mul, Nat.eqb_refl.
  apply Nat.eqb_neq in Hn. rewrite Nat.div_mul by exact Hn. reflexivity.
Qed.

Lemma conv2d_run {S} (c : LeNet5.Conv2d) (n ch h w : nat) (s : S) :
  LeNet5.conv2d c (LeNet5.Size4 n ch h w) s
  = (if bool_decide (ch = LeNet5.in_channels c)
        && (LeNet5.kernel_size c <=? h + 2 * LeNet5.padding c)%nat
        && (LeNet5.kernel_size c <=? w + 2 * LeNet5.padding c)%nat
     then OK (LeNet5.Size4 n (LeNet5.out_channels c)
                (h + 2 * LeNet5.padding c - LeNet5.kernel_size c + 1)
                (w + 2 * LeNet5.padding c - LeNet5.kernel_size c + 1))
     else Raise RuntimeError, s, []).
Proof.
  unfold LeNet5.conv2d.
  cbn [LeNet5.dim0 LeNet5.dim1 LeNet5.dim2 LeNet5.dim3].
  destruct (_ && _ && _); reflexivity.
Qed.

Lemma max_pool2d_run {S} (n c h w : nat) (s : S) :
  LeNet5.max_pool2d (LeNet5.Size4 n c h w) (2, 2)%nat s
  = (if (2 <=? h)%nat && (2 <=? w)%nat
     then OK (LeNet5.Size4 n c ((h - 2) / 2 + 1) ((w - 2) / 2 + 1))
     else Raise RuntimeError, s, []).
Proof.
  unfold LeNet5.max_pool2d.
  cbn [LeNet5.dim0 LeNet5.dim1 LeNet5.dim2 LeNet5.dim3].
  change (0 <? 2)%nat with true. cbn [andb].
  destruct (_ && _); reflexivity.
Qed.

Lemma linear_run {S} (fc : LeNet5.Linear) (m k : nat) (s : S) :
  LeNet5.linear fc (LeNet5.Size2 m k) s
  = (if bool_decide (k = LeNet5.in_features fc)
     then OK (LeNet5.Size2 m (LeNet5.out_features fc))
     else Raise RuntimeError, s, []).
Proof.
  unfold LeNet5.linear. cbn [LeNet5.rows LeNet5.cols].
  destruct (bool_decide _); reflexivity.
Qed.

Lemma bind_cond {S A B} (m : M S A) (k : A -> M S B) (s : S) (b : bool)
    (a : A) (e : exn) :
  m s = (if b then OK a else Raise e, s, []) ->
  bind m k s = if b then k a s else (Raise e, s, []).
Proof.
  intros Hm. destruct b; [now apply bind_OK_nil|now apply bind_Raise].
Qed.

Lemma lenet5_init {S} (args : gmap string (value T)) (d : Z) (s : S) :
  args !! "output_dim" = Some (VInt d) -> (0 <= d)%Z ->
  LeNet5.__init__ args s
  = (OK {| LeNet5.args := args;
           LeNet5.conv1 := {| LeNet5.in_channels := 3;
                              LeNet5.out_channels := 6;
                              LeNet5.kernel_size := 5;
                              LeNet5.padding := 2 |};
           LeNet5.conv2 := {| LeNet5.in_channels := 6;
                              LeNet5.out_channels := 16;
                              LeNet5.kernel_size := 5;
                              LeNet5.padding := 0 |};
           LeNet5.fc1 := {| LeNet5.in_features := 576;
                            LeNet5.out_features := 120 |};
           LeNet5.fc2 := {| LeNet5.in_features := 120;
                            LeNet5.out_features := 84 |};
           LeNet5.fc3 := {| LeNet5.in_features := 84;
                            LeNet5.out_features := Z.to_nat d |} |},
     s, []).
Proof.
  intros Hd Hd0. unfold LeNet5.__init__, getitem.
  rewrite Hd. cbn [of_option]. rewrite bind_ret.
  rewrite (bind_OK_nil _ _ _ _ _ (as_size_VInt d s Hd0)). reflexivity.
Qed.

Local Ltac div_lia := zify; Z.div_mod_to_equations; lia.

Local Ltac props :=
  repeat match goal with
  | H : _ && _ = true |- _ => apply andb_true_iff in H as [? ?]
  | H : _ && _ = false |- _ => apply andb_false_iff in H as [?|?]
  | H : bool_decide _ = true |- _ => apply bool_decide_eq_true in H
  | H : bool_decide _ = false |- _ => apply bool_decide_eq_false in H
  | H : (_ <=? _)%nat = true |- _ => apply Nat.leb_le in H
  | H : (_ <=? _)%nat = false |- _ => apply Nat.leb_gt in H
  | H : negb _ = true |- _ => apply negb_true_iff in H
  | H : negb _ = false |- _ => apply negb_false_iff in H
  | H : (_ =? _)%nat = true |- _ => apply Nat.eqb_eq in H
  | H : (_ =? _)%nat = false |- _ => apply Nat.eqb_neq in H
  end.

(** The run of [forward] on a batch of images, for a network built
    with [output_dim = d]. *)
Lemma lenet5_forward_run {S} (args : gmap string (value T)) (d : Z)
    (self : LeNet5.LeNet5) (data : LeNet5.size4) (s0 s : S) :
  args !! "output_dim" = Some (VInt d) -> (0 <= d)%Z ->
  LeNet5.__init__ args s0 = (OK self, s0, []) ->
  (LeNet5.accepts data /\
   LeNet5.forward self data s
   = (OK (LeNet5.Size2 (LeNet5.dim0 data) (Z.to_nat d)), s, [])) \/
  (~ LeNet5.accepts data /\
   LeNet5.forward self data s = (Raise RuntimeError, s, [])).
Proof.
  intros Hd Hd0 Hinit. rewrite (lenet5_init args d s0 Hd Hd0) in Hinit.
  injection Hinit as <-.
  destruct data as [n c h w]. unfold LeNet5.accepts, LeNet5.forward.
  cbn [LeNet5.dim0 LeNet5.dim1 LeNet5.dim2 LeNet5.dim3 LeNet5.conv1
       LeNet5.conv2 LeNet5.fc1 LeNet5.fc2 LeNet5.fc3].
  unfold LeNet5.relu, LeNet5.dropout.
  rewrite (bind_cond _ _ _ _ _ _ (conv2d_run _ _ _ _ _ _)).
  cbn [LeNet5.in_channels LeNet5.out_channels LeNet5.kernel_size
       LeNet5.padding].
  destruct (_ && _ && _) eqn:Hb1;
    [|right; split; [intros (Hn & Hc & Hh & Hw & Hhw); props; div_lia
                    |reflexivity]].
  rewrite (bind_cond _ _ _ _ _ _ (max_pool2d_run _ _ _ _ _)).
  destruct (_ && _) eqn:Hb2 in |- *;
    [|right; split; [intros (Hn & Hc & Hh & Hw & Hhw); props; div_lia
                    |reflexivity]].
  rewrite (bind_cond _ _ _ _ _ _ (conv2d_run _ _ _ _ _ _)).
  cbn [LeNet5.in_channels LeNet5.out_channels LeNet5.kernel_size
       LeNet5.padding].
  destruct (_ && _ && _) eqn:Hb3 in |- *;
    [|right; split; [intros (Hn & Hc & Hh & Hw & Hhw); props; div_lia
                    |reflexivity]].
  rewrite (bind_cond _ _ _ _ _ _ (max_pool2d_run _ _ _ _ _)).
  destruct (_ && _) eqn:Hb4 in |- *;
    [|right; split; [intros (Hn & Hc & Hh & Hw & Hhw); props; div_lia
                    |reflexivity]].
  props.
  assert (Hh4 : (((h + 2 * 2 - 5 + 1 - 2) / 2 + 1 + 2 * 0 - 5 + 1 - 2) / 2 + 1
                 = (h / 2 - 4) / 2)%nat) by div_lia.
  assert (Hw4 : (((w + 2 * 2 - 5 + 1 - 2) / 2 + 1 + 2 * 0 - 5 + 1 - 2) / 2 + 1
                 = (w / 2 - 4) / 2)%nat) by div_lia.
  assert (Hh6 : (6 <= h / 2)%nat) by div_lia.
  assert (Hw6 : (6 <= w / 2)%nat) by div_lia.
  rewrite Hh4, Hw4.
  rewrite (bind_cond _ _ _ _ _ _ (view_flat _ _ _ _ _)).
  destruct (negb _) eqn:Hb5 in |- *;
    [|right; split; [intros (Hn & Hc' & Hh & Hw & Hhw); props; lia
                    |reflexivity]].
  rewrite (bind_cond _ _ _ _ _ _ (linear_run _ _ _ _)).
  cbn [LeNet5.in_features LeNet5.out_features].
  destruct (bool_decide (_ = 576%nat)) eqn:Hb6 in |- *;
    [|right; split; [intros (Hn & Hc' & Hh & Hw & Hhw); props; lia
                    |reflexivity]].
  rewrite (bind_cond _ _ _ _ _ _ (linear_run _ _ _ _)).
  cbn [LeNet5.in_features LeNet5.out_features].
  rewrite (bool_decide_eq_true_2 (120 = 120)%nat) by reflexivity.
  rewrite (bind_cond _ _ _ _ _ _ (linear_run _ _ _ _)).
  cbn [LeNet5.in_features LeNet5.out_features].
  rewrite (bool_decide_eq_true_2 (84 = 84)%nat) by reflexivity.
  left. props. split; [|reflexivity].
  repeat split; try assumption; lia.
Qed.


Lemma accepts_square (n h : nat) :
  LeNet5.accepts (LeNet5.Size4 n 3 h h) <->
  (0 < n)%nat /\ (32 <= h <= 35)%nat.
Proof.
  unfold LeNet5.accepts.
  cbn [LeNet5.dim0 LeNet5.dim1 LeNet5.dim2 LeNet5.dim3].
  split.
  - intros (Hn & _ & Hh & _ & Hq). split; [exact Hn|].
    assert (Hq6 : ((h / 2 - 4) / 2 = 6)%nat) by nia.
    div_lia.
  - intros [Hn Hh]. split; [exact Hn|]. split; [reflexivity|].
    assert (Hq6 : ((h / 2 - 4) / 2 = 6)%nat) by div_lia.
    rewrite Hq6. split; [div_lia|]. split; [div_lia|reflexivity].
Qed.

(** X21.  On square three-channel images the network works for the
    sides 32 to 35 and for no other: smaller or larger images do not
    give the 576 features its first linear layer takes, and [forward]
    raises RuntimeError. *)
Theorem lenet5_square_images {S} (args : gmap string (value T)) (d : Z)
    (self : LeNet5.LeNet5) (n h : nat) (s0 s : S) :
  args !! "output_dim" = Some (VInt d) -> (0 <= d)%Z ->
  LeNet5.__init__ args s0 = (OK self, s0, []) ->
  (0 < n)%nat ->
  LeNet5.forward self (LeNet5.Size4 n 3 h h) s
  = (if (32 <=? h)%nat && (h <=? 35)%nat
     then OK (LeNet5.Size2 n (Z.to_nat d)) else Raise RuntimeError, s, []).
Proof.
  intros Hd Hd0 Hinit Hn.
  destruct (lenet5_forward_run args d self (LeNet5.Size4 n 3 h h) s0 s
              Hd Hd0 Hinit) as [[Ha Hrun]|[Hna Hrun]]; rewrite Hrun.
  - apply accepts_square in Ha as [_ Hh].
    destruct (_ && _) eqn:Hb; [reflexivity|]. props; lia.
  - destruct (_ && _) eqn:Hb; [|reflexivity]. props.
    exfalso. apply Hna, accepts_square. lia.
Qed.


End LeNet5Sizes.

(** ** The further properties on the examples *)

Section MoreWitnesses.
Local Existing Instance example_runtime.
Local Open Scope R_scope.

Lemma example_trainable :
  trainable (self example_state) example_loader 2 1 1.
Proof.
  repeat split; try lia.
  - exists (VFloat (1 / 100)), (VFloat 0). repeat split. eexists. reflexivity.
  - repeat constructor; discriminate.
  - repeat constructor; cbn; try lia; intros tr ps; split; reflexivity.
Qed.

Lemma construct_missing_key_witness :
  construct (delete "log_interval" (example_args 2 2)) bias_factory ∅
    example_world
  = (Raise (KeyError "log_interval"), example_world).
Proof.
  apply (construct_missing_key _ _ _ _ 2 "log_interval").
  - reflexivity.
  - intros [|[|j]] k Hj Hk; [| |lia]; injection Hk as <-;
      eexists; reflexivity.
  - reflexivity.
Defined.

Lemma construct_factory_raises_witness :
  exists w2,
    construct (example_args 2 2) (limited_factory 2) ∅ example_world
    = (Raise RuntimeError, w2) /\ next_loc w2 = 2%nat.
Proof.
  eexists. split.
  - eapply (construct_factory_raises (example_args 2 2) (limited_factory 2)
              ∅ (VInt 1) (VInt 2) (VInt 1) (VFloat (1 / 10)) (VBool false)
              2 example_world _ _ [bias_learner 0 2] RuntimeError).
    + repeat split.
    + eapply built_cons; [reflexivity|apply built_nil].
    + simpl. lia.
    + reflexivity.
  - reflexivity.
Defined.

Lemma bad_label_stops_witness :
  _onehot_coding [0%Z; 2%Z] example_state
  = (Raise RuntimeError, example_state, []) /\
  train_step example_dloss 1 (bias_learner 2 2) 0 example_optimizer 0
    example_X [0%Z; 2%Z] example_state
  = (Raise RuntimeError, example_state, []).
Proof.
  destruct (bad_label_stops example_state [0%Z; 2%Z] 2 eq_refl ltac:(lia))
    as (Hcode & _ & Hstep).
  - apply Exists_cons_tl, Exists_cons_hd. lia.
  - split; [exact Hcode|apply Hstep].
Defined.

Lemma residual_index_out_of_range_witness :
  _pseudo_residual example_X example_y (-1) example_state
  = _pseudo_residual example_X example_y 0 example_state /\
  _pseudo_residual example_X example_y 3 example_state
  = (Raise IndexError, example_state,
     map (lcall example_state) (learners (self example_state))).
Proof.
  split.
  - apply (proj1 (residual_index_out_of_range example_state example_X
                    example_y (-1) 2)). lia.
  - apply (proj2 (residual_index_out_of_range example_state example_X
                    example_y 3 2)).
    + reflexivity.
    + lia.
    + exact example_labels.
    + exact example_shapes.
    + simpl. lia.
Defined.


Lemma fit_completes_witness :
  exists s' calls,
    fit example_dloss example_loader example_state = (OK tt, s', calls) /\
    length calls = 3%nat.
Proof.
  destruct (fit_completes example_dloss example_loader 2 1 1 example_state
              example_trainable eq_refl)
    as (s' & calls & Hrun & Hlen & _).
  exists s', calls. split; [exact Hrun|]. simpl in Hlen. lia.
Defined.

Lemma later_learners_untouched_witness :
  exists s' calls,
    fit_learner example_dloss example_loader 0 (bias_learner 0 2)
      example_state = (OK tt, s', calls) /\
    params (world s') 2%nat = params (world example_state) 2%nat /\
    grads (world s') 2%nat = grads (world example_state) 2%nat.
Proof.
  destruct (later_learners_untouched example_dloss example_loader 2 1 1
              0 (bias_learner 0 2) example_state
              example_trainable eq_refl eq_refl)
    as (s' & calls & Hrun & _ & Hframe).
  exists s', calls. split; [exact Hrun|]. apply Hframe.
  intros [Hp|Hp]; cbn in Hp; apply list_elem_of_In in Hp; cbn in Hp; lia.
Defined.

Lemma fit_missing_hyperparameter_witness :
  let st := example_state_of
              (example_ensemble (delete "lr" (example_args 1 2))
                 [bias_learner 0 2] 1) true (fun _ => 0) in
  fit example_dloss example_loader st
  = (Raise (KeyError "lr"), set_training true st, []).
Proof.
  intros st.
  apply (fit_missing_hyperparameter example_dloss example_loader st
           (bias_learner 0 2) [] "lr").
  - reflexivity.
  - reflexivity.
  - left. reflexivity.
Defined.

Lemma fit_learner_without_parameters_witness :
  let st := example_state_of
              (example_ensemble (example_args 1 2) [constant_learner 2] 1)
              true (fun _ => 0) in
  fit example_dloss example_loader st
  = (Raise ValueError, set_training true st, []).
Proof.
  intros st.
  apply (fit_learner_without_parameters example_dloss example_loader st
           (constant_learner 2) []).
  - reflexivity.
  - reflexivity.
  - eexists. reflexivity.
  - eexists. reflexivity.
Defined.

Lemma fit_without_steps_witness :
  fit example_dloss empty_loader example_state
  = (OK tt, set_training true example_state, []).
Proof.
  apply (fit_without_steps example_dloss empty_loader example_state 1
           (VFloat (1 / 100)) (VFloat 0)).
  - reflexivity.
  - right. reflexivity.
  - reflexivity.
  - reflexivity.
  - eexists. reflexivity.
  - repeat constructor; discriminate.
Defined.

Lemma fit_zero_log_interval_witness :
  let st := example_state_of
              (example_ensemble (example_args 1 2) [bias_learner 0 2] 0)
              true (fun _ => 0) in
  exists s',
    fit example_dloss example_loader st
    = (Raise ZeroDivisionError, s', [lcall (set_training true st)
                                       (bias_learner 0 2)]).
Proof.
  intros st. eexists.
  apply (fit_zero_log_interval example_dloss example_loader st
           (bias_learner 0 2) [] example_X example_y [] 2 1
           (VFloat (1 / 100)) (VFloat 0) (1 / 100)).
  - reflexivity.
  - reflexivity.
  - reflexivity.
  - lia.
  - reflexivity.
  - reflexivity.
  - reflexivity.
  - discriminate.
  - reflexivity.
  - lia.
  - exact example_labels.
  - intros tr ps. split; reflexivity.
  - reflexivity.
  - reflexivity.
Defined.

Lemma fit_without_grad_witness :
  let st := example_state_of
              (example_ensemble (example_args 1 2) [bias_learner 0 2] 1)
              false (fun _ => 0) in
  exists s',
    fit example_dloss example_loader st
    = (Raise RuntimeError, s', [lcall (set_training true st)
                                  (bias_learner 0 2)]) /\
    params (world s') = params (world st).
Proof.
  intros st.
  destruct (fit_without_grad example_dloss example_loader st
              (bias_learner 0 2) [] example_X example_y [] 2 1
              (VFloat (1 / 100)) (VFloat 0) (1 / 100))
    as (s' & Hrun & _ & Hpar).
  - reflexivity.
  - reflexivity.
  - reflexivity.
  - lia.
  - reflexivity.
  - reflexivity.
  - reflexivity.
  - discriminate.
  - reflexivity.
  - lia.
  - exact example_labels.
  - intros tr ps. split; reflexivity.
  - reflexivity.
  - exists s'. split; [exact Hrun|exact Hpar].
Defined.

Lemma accuracy_bounds_witness :
  exists acc s' calls,
    evaluate example_loader example_state = (OK tt, s', calls) /\
    stdout (world s') = [TestingAccuracy acc] /\
    0 <= acc <= 100.
Proof.
  destruct (accuracy_bounds example_state example_loader 2)
    as (acc & s' & calls & Hrun & Hout & [Hlo _] & Hhi & _).
  - reflexivity.
  - lia.
  - repeat constructor.
  - simpl. lia.
  - exists acc, s', calls. split; [exact Hrun|]. split; [exact Hout|].
    split; [exact Hlo|]. apply Hhi. cbn. lia.
Defined.

Lemma tuned_state_classifies :
  Forall (classifies (eval_state tuned_state)) (batches ones_loader).
Proof.
  repeat constructor.
  eexists. eexists. eexists. split; [reflexivity|].
  intros i yi Hi. cbn [snd] in Hi.
  assert (Hyi : yi = 1%Z).
  { destruct i as [|[|i]]; cbn in Hi; [| |discriminate Hi];
      now injection Hi. }
  subst yi. split; [simpl; lia|].
  intros j Hj Hne.
  change (Z.to_nat 1) with 1%nat in *. simpl in Hj.
  destruct j as [|[|j]]; [|exfalso; apply Hne; reflexivity|lia].
  simpl. unfold tuned_params. simpl. lra.
Qed.

Lemma perfect_accuracy_witness :
  exists s' calls,
    evaluate ones_loader tuned_state = (OK tt, s', calls) /\
    stdout (world s') = [TestingAccuracy 100].
Proof.
  apply (perfect_accuracy tuned_state ones_loader 2).
  - reflexivity.
  - lia.
  - repeat constructor.
  - exact tuned_state_classifies.
  - reflexivity.
  - cbn. lia.
Defined.


Lemma forward_broadcasts_witness :
  let st := example_state_of
              (example_ensemble (example_args 2 2)
                 [bias_learner 0 2; fixed_rows_learner 1 2 2] 1)
              true (fun _ => 0) in
  exists t,
    forward example_X st = (OK t, st, map (lcall st) (learners (self st))) /\
    nrows (tval t) = 2%nat.
Proof.
  intros st.
  destruct (forward_broadcasts st example_X 2) as (t & Hrun & Hr & _).
  - reflexivity.
  - lia.
  - repeat constructor.
  - exists t. split; [exact Hrun|exact Hr].
Defined.

Lemma forward_shape_mismatch_witness :
  let st := example_state_of
              (example_ensemble (example_args 2 2)
                 [bias_learner 0 2; fixed_rows_learner 3 2 2] 1)
              true (fun _ => 0) in
  forward example_X st
  = (Raise RuntimeError, st, map (lcall st) (learners (self st))).
Proof.
  intros st.
  apply (forward_shape_mismatch st example_X 2 [bias_learner 0 2] []
           (fixed_rows_learner 3 2 2)).
  - reflexivity.
  - lia.
  - reflexivity.
  - repeat constructor.
  - reflexivity.
Defined.


Lemma lenet5_square_images_witness :
  exists self,
    LeNet5.__init__ (example_args 2 10) tt = (OK self, tt, []) /\
    LeNet5.forward self (LeNet5.Size4 1 3 35 35) tt
    = (OK (LeNet5.Size2 1 10), tt, []) /\
    LeNet5.forward self (LeNet5.Size4 1 3 36 36) tt
    = (Raise RuntimeError, tt, []).
Proof.
  eexists. split; [reflexivity|]. split.
  - apply (lenet5_square_images (example_args 2 10) 10 _ 1 35 tt tt
             eq_refl ltac:(lia) eq_refl ltac:(lia)).
  - apply (lenet5_square_images (example_args 2 10) 10 _ 1 36 tt tt
             eq_refl ltac:(lia) eq_refl ltac:(lia)).
Defined.
End MoreWitnesses.
